(** * fotos: session, login and catalogue code of the photo storefront

    A shallow embedding of

    - [src/frontend/script.js]: the browser script's global [estado], its
      session functions [guardarSesion], [cerrarSesion],
      [cargarSesionGuardada], [iniciarSesion], [registrarUsuario] and
      [mostrarInterfaz], and the click listeners of
      [configurarEventosLogin];
    - src/backend/models/imagenes.model.js and the image controller
      ([obtenerImagenes], [getImagenes]);
    - the customer model ([buscarPorEmail], [crearCliente]);
    - the cart operations, which the script calls for but no file under
      src/ defines, read from the specification.

    The script runs on JavaScript values, [localStorage], [JSON.parse] and
    [JSON.stringify]; the first two modules model that runtime, the later ones
    the repository's functions, written as state-passing code over an explicit
    [World]. *)

From Stdlib Require Import ZArith NArith List String Ascii Bool Lia Sorted.
From stdpp Require Import gmap strings.
Import ListNotations.
Local Open Scope string_scope.
Local Open Scope list_scope.

#[local] Set Warnings "-register-all".

(* ===================================================================== *)
(** ** JavaScript values *)
(* ===================================================================== *)

Module JS.

Infix "+++" := String.append (at level 60, right associativity).

(** A number [VNum m e] is the exact decimal [m * 10^(-e)]: integers have
    [e = 0].  Rounding to IEEE doubles and the exponent notation of very
    large and very small numbers are not modelled.  A string is the
    sequence of its bytes (UTF-8).  An object is the list of its own
    properties in insertion order. *)
Inductive value : Type :=
| VUndefined
| VNull
| VBool (b : bool)
| VNum (m : Z) (e : nat)
| VStr (s : string)
| VArr (xs : list value)
| VObj (fields : list (string * value)).

Definition VInt (z : Z) : value := VNum z 0.

(** What a throw carries. *)
Inductive JsError : Type :=
| TypeError (detalle : string)
| SyntaxError (detalle : string)
| NetworkError (detalle : string)
| DbError (detalle : string).

(** Completion of an expression or statement: a value or a throw. *)
Inductive Res (A : Type) : Type :=
| Val (a : A)
| Throw (err : JsError).
Arguments Val {A} a.
Arguments Throw {A} err.

(** [!!v] / the test of [if (v)] and of [v || w]. *)
Definition truthy (v : value) : bool :=
  match v with
  | VUndefined | VNull => false
  | VBool b => b
  | VNum m _ => negb (m =? 0)%Z
  | VStr s => negb (String.eqb s "")
  | VArr _ | VObj _ => true
  end.

(** [a || b]. *)
Definition js_or (a b : value) : value := if truthy a then a else b.

Fixpoint assoc (k : string) (fields : list (string * value)) : option value :=
  match fields with
  | [] => None
  | (k', v) :: tl => if String.eqb k k' then Some v else assoc k tl
  end.

(** [v.k] for a data property [k].  Reading a property of [undefined] or
    [null] throws; a missing property reads as [undefined].  The prototype
    chain is not modelled: the script only reads the names [token],
    [usuario], [message], [nombre], [email], [password] and [insertId], none
    of which a prototype defines. *)
Definition get_prop (v : value) (k : string) : Res value :=
  match v with
  | VUndefined => Throw (TypeError ("Cannot read properties of undefined (reading '" +++ k +++ "')"))
  | VNull => Throw (TypeError ("Cannot read properties of null (reading '" +++ k +++ "')"))
  | VObj fields => Val (match assoc k fields with Some x => x | None => VUndefined end)
  | _ => Val VUndefined
  end.

(** *** Decimal digits *)

Definition digit_char (d : N) : ascii := ascii_of_N (48 + d).

Fixpoint digits_fuel (fuel : nat) (n : N) (acc : list ascii) : list ascii :=
  match fuel with
  | O => acc
  | S f =>
      let acc' := digit_char (n mod 10) :: acc in
      if (n <? 10)%N then acc' else digits_fuel f (n / 10) acc'
  end.

(** The decimal digits of [n], most significant first; [0] is ["0"]. *)
Definition digits (n : N) : list ascii :=
  digits_fuel (S (N.to_nat (N.log2 n))) n [].

Definition zero_char : ascii := "0"%char.

Definition pad_zeros (k : nat) (ds : list ascii) : list ascii :=
  repeat zero_char (k - length ds) ++ ds.

(** Number to text: an integer as its digits, [m * 10^(-e)] with the point
    [e] digits from the right.  This is JavaScript's text for the integers
    below 2^53 in magnitude; the exponent notation of larger and of very
    small numbers is not modelled. *)
Definition number_chars (m : Z) (e : nat) : list ascii :=
  let ds := digits (Z.abs_N m) in
  let sign := if (m <? 0)%Z then ["-"%char] else [] in
  match e with
  | O => sign ++ ds
  | S _ =>
      let ds' := pad_zeros (S e) ds in
      let k := (length ds' - e)%nat in
      sign ++ firstn k ds' ++ "."%char :: skipn k ds'
  end.

Definition chars (s : string) : list ascii := list_ascii_of_string s.
Definition str (cs : list ascii) : string := string_of_list_ascii cs.

(** The parts joined by commas, as [Array.prototype.join] and
    [JSON.stringify] do. *)
Fixpoint join_comma (parts : list (list ascii)) : list ascii :=
  match parts with
  | [] => []
  | p :: tl =>
      match tl with
      | [] => p
      | _ :: _ => p ++ ","%char :: join_comma tl
      end
  end.

(** [String(v)], as [alert], template literals and [localStorage.setItem]
    apply it. *)
Fixpoint ToString_chars (v : value) : list ascii :=
  match v with
  | VUndefined => chars "undefined"
  | VNull => chars "null"
  | VBool true => chars "true"
  | VBool false => chars "false"
  | VNum m e => number_chars m e
  | VStr s => chars s
  | VArr xs =>
      join_comma
        (map (fun x => match x with
                       | VUndefined | VNull => []
                       | _ => ToString_chars x
                       end) xs)
  | VObj _ => chars "[object Object]"
  end.

Definition ToString (v : value) : string := str (ToString_chars v).

End JS.
Export JS.

(* ===================================================================== *)
(** ** JSON.stringify and JSON.parse *)
(* ===================================================================== *)

Module JSON.

Definition dquote : ascii := ascii_of_N 34.
Definition backslash : ascii := ascii_of_N 92.

Definition hex_digit (n : N) : ascii :=
  if (n <? 10)%N then ascii_of_N (48 + n) else ascii_of_N (87 + n).

(** One character of a string literal, as [JSON.stringify] quotes it. *)
Definition escape_char (c : ascii) : list ascii :=
  let n := N_of_ascii c in
  if (n =? 34)%N then [backslash; dquote]
  else if (n =? 92)%N then [backslash; backslash]
  else if (n =? 8)%N then [backslash; "b"%char]
  else if (n =? 9)%N then [backslash; "t"%char]
  else if (n =? 10)%N then [backslash; "n"%char]
  else if (n =? 12)%N then [backslash; "f"%char]
  else if (n =? 13)%N then [backslash; "r"%char]
  else if (n <? 32)%N then
    [backslash; "u"%char; zero_char; zero_char; hex_digit (n / 16); hex_digit (n mod 16)]
  else [c].

Definition quote_chars (cs : list ascii) : list ascii :=
  dquote :: flat_map escape_char cs ++ [dquote].

(** The text of a value inside an array or object; [None] for [undefined],
    which an object skips and an array writes as [null]. *)
Fixpoint stringify_chars (v : value) : option (list ascii) :=
  match v with
  | VUndefined => None
  | VNull => Some (chars "null")
  | VBool true => Some (chars "true")
  | VBool false => Some (chars "false")
  | VNum m e => Some (number_chars m e)
  | VStr s => Some (quote_chars (chars s))
  | VArr xs =>
      Some ("["%char ::
            join_comma
              (map (fun x => match stringify_chars x with
                             | Some t => t
                             | None => chars "null"
                             end) xs)
            ++ ["]"%char])
  | VObj fields =>
      Some ("{"%char ::
            join_comma
              (flat_map (fun kx => match stringify_chars (snd kx) with
                                   | Some t =>
                                       [quote_chars (chars (fst kx))
                                          ++ ":"%char :: t]
                                   | None => []
                                   end) fields)
            ++ ["}"%char])
  end.

(** [JSON.stringify(v)]: a string, or [undefined] when [v] is [undefined]. *)
Definition JSON_stringify (v : value) : value :=
  match stringify_chars v with
  | Some t => VStr (str t)
  | None => VUndefined
  end.

(** *** The parser *)

Inductive presult (A : Type) : Type :=
| POk (a : A) (rest : list ascii)
| PError
| PFuel.
Arguments POk {A} a rest.
Arguments PError {A}.
Arguments PFuel {A}.

Definition is_ws (c : ascii) : bool :=
  let n := N_of_ascii c in
  (n =? 32)%N || (n =? 9)%N || (n =? 10)%N || (n =? 13)%N.

Fixpoint skip_ws (s : list ascii) : list ascii :=
  match s with
  | c :: tl => if is_ws c then skip_ws tl else s
  | [] => []
  end.

Definition is_digit (c : ascii) : bool :=
  let n := N_of_ascii c in (48 <=? n)%N && (n <=? 57)%N.

Definition hex_val (c : ascii) : option N :=
  let n := N_of_ascii c in
  if (48 <=? n)%N && (n <=? 57)%N then Some (n - 48)%N
  else if (97 <=? n)%N && (n <=? 102)%N then Some (n - 87)%N
  else if (65 <=? n)%N && (n <=? 70)%N then Some (n - 55)%N
  else None.

Definition hex4 (a b c d : ascii) : option N :=
  match hex_val a, hex_val b, hex_val c, hex_val d with
  | Some x, Some y, Some z, Some w => Some (((x * 16 + y) * 16 + z) * 16 + w)%N
  | _, _, _, _ => None
  end.

(** The bytes of the code unit [u] of a [\uXXXX] escape. *)
Definition utf8 (u : N) : list ascii :=
  if (u <? 128)%N then [ascii_of_N u]
  else if (u <? 2048)%N then
    [ascii_of_N (192 + u / 64); ascii_of_N (128 + u mod 64)]
  else
    [ascii_of_N (224 + u / 4096); ascii_of_N (128 + (u / 64) mod 64);
     ascii_of_N (128 + u mod 64)].

(** The character a one-letter escape stands for. *)
Definition unescape (k : N) : option ascii :=
  if (k =? 34)%N then Some dquote
  else if (k =? 92)%N then Some backslash
  else if (k =? 47)%N then Some "/"%char
  else if (k =? 98)%N then Some (ascii_of_N 8)
  else if (k =? 102)%N then Some (ascii_of_N 12)
  else if (k =? 110)%N then Some (ascii_of_N 10)
  else if (k =? 114)%N then Some (ascii_of_N 13)
  else if (k =? 116)%N then Some (ascii_of_N 9)
  else None.

(** A string literal from just after its opening quote: its characters and
    what follows the closing quote. *)
Fixpoint parse_string_body (s : list ascii) : option (list ascii * list ascii) :=
  match s with
  | [] => None
  | c :: tl =>
      let n := N_of_ascii c in
      if (n =? 34)%N then Some ([], tl)
      else if (n =? 92)%N then
        match tl with
        | [] => None
        | e :: tl2 =>
            if (N_of_ascii e =? 117)%N then
              match tl2 with
              | h1 :: h2 :: h3 :: h4 :: tl3 =>
                  match hex4 h1 h2 h3 h4 with
                  | Some u =>
                      match parse_string_body tl3 with
                      | Some (cs, r) => Some (utf8 u ++ cs, r)
                      | None => None
                      end
                  | None => None
                  end
              | _ => None
              end
            else
              match unescape (N_of_ascii e) with
              | Some c' =>
                  match parse_string_body tl2 with
                  | Some (cs, r) => Some (c' :: cs, r)
                  | None => None
                  end
              | None => None
              end
        end
      else if (n <? 32)%N then None
      else
        match parse_string_body tl with
        | Some (cs, r) => Some (c :: cs, r)
        | None => None
        end
  end.

(** The longest run of digits at the front of [s]: its value on top of
    [acc], how many there were, and the rest. *)
Fixpoint scan_digits (s : list ascii) (acc : N) (cnt : nat) : N * nat * list ascii :=
  match s with
  | c :: tl =>
      if is_digit c then scan_digits tl (10 * acc + (N_of_ascii c - 48))%N (S cnt)
      else (acc, cnt, s)
  | [] => (acc, cnt, s)
  end.

(** Drop trailing zeros of the mantissa while the scale allows it. *)
Fixpoint normalize (m : N) (e : nat) : N * nat :=
  match e with
  | O => (m, O)
  | S e' => if (m mod 10 =? 0)%N then normalize (m / 10) e' else (m, e)
  end.

(** The number with sign [neg], digits [m], [nf] of them after the point, and
    exponent [x], as an exact decimal: a double's rounding, and with it the
    underflow of a tiny number to [0], is not modelled. *)
Definition make_num (neg : bool) (m : N) (nf : nat) (x : Z) : value :=
  let k := (x - Z.of_nat nf)%Z in
  let '(m', e') :=
    if (0 <=? k)%Z then ((m * 10 ^ Z.to_N k)%N, O)
    else normalize m (Z.to_nat (- k)) in
  VNum (if neg then - Z.of_N m' else Z.of_N m')%Z e'.

Definition starts_with_zero (s : list ascii) : bool :=
  match s with
  | c :: _ => (N_of_ascii c =? 48)%N
  | [] => false
  end.

Definition parse_frac (s : list ascii) : option (N * nat * list ascii) :=
  match s with
  | c :: tl =>
      if (N_of_ascii c =? 46)%N then
        let '(f, nf, r) := scan_digits tl 0%N O in
        match nf with O => None | S _ => Some (f, nf, r) end
      else Some (0%N, O, s)
  | [] => Some (0%N, O, s)
  end.

Definition parse_exp (s : list ascii) : option (Z * list ascii) :=
  match s with
  | c :: tl =>
      if (N_of_ascii c =? 101)%N || (N_of_ascii c =? 69)%N then
        let '(neg, tl') :=
          match tl with
          | d :: tl2 =>
              if (N_of_ascii d =? 45)%N then (true, tl2)
              else if (N_of_ascii d =? 43)%N then (false, tl2)
              else (false, tl)
          | [] => (false, tl)
          end in
        let '(x, nx, r) := scan_digits tl' 0%N O in
        match nx with
        | O => None
        | S _ => Some ((if neg then - Z.of_N x else Z.of_N x)%Z, r)
        end
      else Some (0%Z, s)
  | [] => Some (0%Z, s)
  end.

(** A number literal: an optional minus sign; the integer part, a single
    zero or digits that do not begin with zero; an optional point followed
    by digits; an optional exponent, [e] or [E], a sign and digits. *)
Definition parse_number (s : list ascii) : option (value * list ascii) :=
  let '(neg, s1) :=
    match s with
    | c :: tl => if (N_of_ascii c =? 45)%N then (true, tl) else (false, s)
    | [] => (false, s)
    end in
  let '(i, ni, s2) := scan_digits s1 0%N O in
  match ni with
  | O => None
  | S ni' =>
      if starts_with_zero s1 && negb (Nat.eqb ni' 0) then None
      else
        match parse_frac s2 with
        | None => None
        | Some (f, nf, s3) =>
            match parse_exp s3 with
            | None => None
            | Some (x, s4) =>
                Some (make_num neg (i * 10 ^ N.of_nat nf + f)%N nf x, s4)
            end
        end
  end.

Fixpoint strip_prefix (p s : list ascii) : option (list ascii) :=
  match p with
  | [] => Some s
  | a :: p' =>
      match s with
      | b :: s' => if Ascii.eqb a b then strip_prefix p' s' else None
      | [] => None
      end
  end.

(** [o[k] = v] while an object literal is read: a repeated key keeps its
    place and takes the later value.  Every key keeps its insertion order;
    JavaScript moves keys that are array indices to the front, an order no
    function of the script observes. *)
(** The members are kept in the order of the text; JavaScript moves keys
    that are array indices (["0"], ["1"], ...) to the front, which shows in
    the text [JSON.stringify] gives and in nothing else the statements
    read. *)
Fixpoint obj_set (k : string) (v : value) (fields : list (string * value))
  : list (string * value) :=
  match fields with
  | [] => [(k, v)]
  | (k', v') :: tl =>
      if String.eqb k k' then (k', v) :: tl else (k', v') :: obj_set k v tl
  end.

Definition build_object (members : list (string * value)) : value :=
  VObj (fold_left (fun acc kv => obj_set (fst kv) (snd kv) acc) members []).

(** A value at the front of [s] (white space already skipped).  Every call
    spends one unit of [fuel]; [JSON_parse] below hands out enough of it. *)
Fixpoint parse_value (fuel : nat) (s : list ascii) : presult value :=
  match fuel with
  | O => PFuel
  | S f =>
      match s with
      | [] => PError
      | c :: tl =>
          let n := N_of_ascii c in
          if (n =? 123)%N then
            match skip_ws tl with
            | d :: tl' =>
                if (N_of_ascii d =? 125)%N then POk (VObj []) tl'
                else
                  match parse_members f (d :: tl') with
                  | POk ms r => POk (build_object ms) r
                  | PError => PError
                  | PFuel => PFuel
                  end
            | [] => PError
            end
          else if (n =? 91)%N then
            match skip_ws tl with
            | d :: tl' =>
                if (N_of_ascii d =? 93)%N then POk (VArr []) tl'
                else
                  match parse_elems f (d :: tl') with
                  | POk vs r => POk (VArr vs) r
                  | PError => PError
                  | PFuel => PFuel
                  end
            | [] => PError
            end
          else if (n =? 34)%N then
            match parse_string_body tl with
            | Some (cs, r) => POk (VStr (str cs)) r
            | None => PError
            end
          else if (n =? 116)%N then
            match strip_prefix (chars "true") s with
            | Some r => POk (VBool true) r
            | None => PError
            end
          else if (n =? 102)%N then
            match strip_prefix (chars "false") s with
            | Some r => POk (VBool false) r
            | None => PError
            end
          else if (n =? 110)%N then
            match strip_prefix (chars "null") s with
            | Some r => POk VNull r
            | None => PError
            end
          else
            match parse_number s with
            | Some (v, r) => POk v r
            | None => PError
            end
      end
  end

(** The elements of an array from the first one to the closing bracket. *)
with parse_elems (fuel : nat) (s : list ascii) : presult (list value) :=
  match fuel with
  | O => PFuel
  | S f =>
      match parse_value f s with
      | POk v r =>
          match skip_ws r with
          | c :: r' =>
              if (N_of_ascii c =? 44)%N then
                match parse_elems f (skip_ws r') with
                | POk vs r'' => POk (v :: vs) r''
                | PError => PError
                | PFuel => PFuel
                end
              else if (N_of_ascii c =? 93)%N then POk [v] r'
              else PError
          | [] => PError
          end
      | PError => PError
      | PFuel => PFuel
      end
  end

(** The members of an object from the first key to the closing brace. *)
with parse_members (fuel : nat) (s : list ascii) : presult (list (string * value)) :=
  match fuel with
  | O => PFuel
  | S f =>
      match s with
      | q :: tl =>
          if (N_of_ascii q =? 34)%N then
            match parse_string_body tl with
            | Some (k, r) =>
                match skip_ws r with
                | c :: r1 =>
                    if (N_of_ascii c =? 58)%N then
                      match parse_value f (skip_ws r1) with
                      | POk v r2 =>
                          match skip_ws r2 with
                          | d :: r3 =>
                              if (N_of_ascii d =? 44)%N then
                                match parse_members f (skip_ws r3) with
                                | POk ms r4 => POk ((str k, v) :: ms) r4
                                | PError => PError
                                | PFuel => PFuel
                                end
                              else if (N_of_ascii d =? 125)%N then POk [(str k, v)] r3
                              else PError
                          | [] => PError
                          end
                      | PError => PError
                      | PFuel => PFuel
                      end
                    else PError
                | [] => PError
                end
            | None => PError
            end
          else PError
      | [] => PError
      end
  end.

Definition parse_fuel (cs : list ascii) : nat := 2 * length cs + 2.

(** [JSON.parse(s)]: the value, or [None] where JavaScript throws a
    [SyntaxError]. *)
Definition JSON_parse (s : string) : option value :=
  let cs := chars s in
  match parse_value (parse_fuel cs) (skip_ws cs) with
  | POk v r => match skip_ws r with [] => Some v | _ :: _ => None end
  | PError => None
  | PFuel => None
  end.

End JSON.
Export JSON.

(* ===================================================================== *)
(** ** The browser: page state, storage, console, alerts, document *)
(* ===================================================================== *)

Module Browser.

(** A cart line as the comment on [estado] gives it:
    [{id:1, nombre:"Producto", precio:10, cantidad:2}].  Prices and
    quantities are exact integers. *)
Record Linea : Type := {
  item_id : Z;
  item_nombre : string;
  precio : Z;
  cantidad : Z
}.

(** [estado.carrito]: [{items: [], total: 0}]. *)
Record Carrito : Type := {
  items : list Linea;
  total : Z
}.

(** The global [estado] of script.js, lines 3-10. *)
Record Estado : Type := {
  usuario : value;
  token : value;
  carrito : Carrito
}.

Definition carrito_vacio : Carrito := {| items := []; total := 0 |}.

Definition estado_inicial : Estado :=
  {| usuario := VNull; token := VNull; carrito := carrito_vacio |}.

(** What [authNav.innerHTML] holds. *)
Inductive Nav : Type :=
| NavPagina                      (* the markup the page was served with *)
| NavUsuario (nombre : string)   (* user name and the wired logout button *)
| NavInvitado.                   (* "Inicia sesión para comprar" *)

(** The document: the elements that exist, by id, each with whether its
    class list holds [hidden]; and the content of [authNav]. *)
Record Dom : Type := {
  elementos : gmap string bool;
  nav : Nav
}.

Inductive Registro : Type :=
| ConsoleLog (args : list value)
| ConsoleError (mensaje : string) (err : JsError).

Record World : Type := {
  estado : Estado;
  localStorage : gmap string string;
  documento : Dom;
  consola : list Registro;    (* latest first *)
  alertas : list string       (* latest first *)
}.

(** Statements: state passing with throws.  A throw keeps the writes made
    before it. *)
Definition M (A : Type) : Type := World -> Res A * World.

Definition ret {A} (a : A) : M A := fun w => (Val a, w).

Definition bind {A B} (m : M A) (k : A -> M B) : M B :=
  fun w =>
    match m w with
    | (Val a, w') => k a w'
    | (Throw e, w') => (Throw e, w')
    end.

Definition lift {A} (r : Res A) : M A := fun w => (r, w).

(** [try { body } catch (err) { handler }]. *)
Definition try_catch {A} (body : M A) (handler : JsError -> M A) : M A :=
  fun w =>
    match body w with
    | (Val a, w') => (Val a, w')
    | (Throw e, w') => handler e w'
    end.

Declare Scope js_scope.
Delimit Scope js_scope with js.
Notation "x <- m ;; k" := (bind m (fun x => k))
  (at level 100, m at next level, right associativity) : js_scope.
Notation "m ;; k" := (bind m (fun _ => k))
  (at level 100, right associativity) : js_scope.
Local Open Scope js_scope.

Definition get_estado : M Estado := fun w => (Val (estado w), w).

Definition put_estado (e : Estado) : M unit :=
  fun w => (Val tt, {| estado := e; localStorage := localStorage w;
                       documento := documento w; consola := consola w;
                       alertas := alertas w |}).

(** [estado.token = v], [estado.usuario = v], [estado.carrito = c]. *)
Definition set_token (v : value) : M unit :=
  e <- get_estado ;;
  put_estado {| usuario := usuario e; token := v; carrito := carrito e |}.

Definition set_usuario (v : value) : M unit :=
  e <- get_estado ;;
  put_estado {| usuario := v; token := token e; carrito := carrito e |}.

Definition set_carrito (c : Carrito) : M unit :=
  e <- get_estado ;;
  put_estado {| usuario := usuario e; token := token e; carrito := c |}.

Definition put_localStorage (s : gmap string string) : M unit :=
  fun w => (Val tt, {| estado := estado w; localStorage := s;
                       documento := documento w; consola := consola w;
                       alertas := alertas w |}).

(** [localStorage.setItem(k, v)] stores [String(v)]; the store is taken to
    accept every write. *)
Definition localStorage_setItem (k : string) (v : value) : M unit :=
  fun w => put_localStorage (<[k := ToString v]> (localStorage w)) w.

(** [localStorage.getItem(k)]: the stored string, or [null]. *)
Definition localStorage_getItem (k : string) : M value :=
  fun w => (Val (match localStorage w !! k with
                 | Some s => VStr s
                 | None => VNull
                 end), w).

Definition localStorage_removeItem (k : string) : M unit :=
  fun w => put_localStorage (delete k (localStorage w)) w.

Definition console_log (args : list value) : M unit :=
  fun w => (Val tt, {| estado := estado w; localStorage := localStorage w;
                       documento := documento w;
                       consola := ConsoleLog args :: consola w;
                       alertas := alertas w |}).

Definition console_error (mensaje : string) (err : JsError) : M unit :=
  fun w => (Val tt, {| estado := estado w; localStorage := localStorage w;
                       documento := documento w;
                       consola := ConsoleError mensaje err :: consola w;
                       alertas := alertas w |}).

(** [alert(v)] shows [String(v)]. *)
Definition alert (v : value) : M unit :=
  fun w => (Val tt, {| estado := estado w; localStorage := localStorage w;
                       documento := documento w; consola := consola w;
                       alertas := ToString v :: alertas w |}).

Definition put_documento (d : Dom) : M unit :=
  fun w => (Val tt, {| estado := estado w; localStorage := localStorage w;
                       documento := d; consola := consola w;
                       alertas := alertas w |}).

(** [document.getElementById(id)] is non-null. *)
Definition existe (id : string) : M bool :=
  fun w => (Val (bool_decide (is_Some (elementos (documento w) !! id))), w).

(** [el.classList.toggle("hidden", force)]. *)
Definition toggle_hidden (id : string) (force : bool) : M unit :=
  fun w =>
    put_documento {| elementos := <[id := force]> (elementos (documento w));
                     nav := nav (documento w) |} w.

(** [authNav.innerHTML = ...], as what [authNav] then shows. *)
Definition set_nav (n : Nav) : M unit :=
  fun w =>
    put_documento {| elementos := elementos (documento w); nav := n |} w.

(** [JSON.parse(v)] as a statement: a [SyntaxError] is thrown where the
    text is not JSON. *)
Definition JSON_parse_m (v : value) : M value :=
  match JSON_parse (ToString v) with
  | Some x => ret x
  | None => lift (Throw (SyntaxError "Unexpected token in JSON"))
  end.

(** [a && b]. *)
Definition js_and (a b : value) : value := if truthy a then b else a.

(** *** fetch *)

Record Peticion : Type := {
  metodo : string;
  cabeceras : list (string * string);
  cuerpo : string
}.

(** A response: its status line and the text of its body. *)
Record Respuesta : Type := {
  status : Z;
  texto : string
}.

(** [respuesta.ok]: the status is in 200..299. *)
Definition ok (r : Respuesta) : bool :=
  (200 <=? status r)%Z && (status r <=? 299)%Z.

(** [await respuesta.json()]. *)
Definition respuesta_json (r : Respuesta) : M value :=
  JSON_parse_m (VStr (texto r)).

End Browser.
Export Browser.

(* ===================================================================== *)
(** ** src/frontend/script.js *)
(* ===================================================================== *)

Module Script.

Local Open Scope js_scope.

Definition URL_API : string := "http://localhost:4000/api".

Section Funciones.

(** Called by the script and defined in no file under src/: what they do
    to the world is left open. *)
Variable cargarCarrito : M unit.
Variable cargarProductosTienda : M unit.

(** The network and the authentication service behind it: the response
    to a request, or the rejection of [fetch]. *)
Variable fetch : string -> Peticion -> Res Respuesta.

(** script.js, lines 32-42. *)
Definition guardarSesion (token usuario : value) : M unit :=
  set_token token ;;
  set_usuario usuario ;;
  localStorage_setItem "token" token ;;
  localStorage_setItem "user" (JSON_stringify usuario) ;;
  nombre <- lift (get_prop usuario "nombre") ;;
  console_log [VStr "💾 Sesión guardada para:"; nombre].

(** script.js, lines 176-228.  What is written into [authNav] is kept as
    what it shows ([Nav]): the markup is not parsed, so the elements it
    builds or replaces inside [authNav] (the logout button, which the
    script then looks up to attach [cerrarSesion]) do not enter
    [elementos], and a name that holds markup is taken as text.  The
    statements on the redraw for a logged-in user are stated for pages
    without [authNav] or for names without [<] and [&], where the name is
    shown as it is, the button is built and the lookup succeeds. *)
Definition mostrarInterfaz : M unit :=
  authSection <- existe "authSection" ;;
  authNav <- existe "authNav" ;;
  tiendaSection <- existe "tiendaSection" ;;
  productosMostrar <- existe "productosMostrar" ;;
  e <- get_estado ;;
  let logueado := truthy (usuario e) in
  (if authSection then toggle_hidden "authSection" logueado else ret tt) ;;
  (if productosMostrar then toggle_hidden "productosMostrar" logueado
   else ret tt) ;;
  (if tiendaSection then
     toggle_hidden "tiendaSection" (negb logueado) ;;
     if logueado then cargarCarrito ;; cargarProductosTienda else ret tt
   else ret tt) ;;
  if authNav then
    if logueado then
      e' <- get_estado ;;
      nombre <- lift (get_prop (usuario e') "nombre") ;;
      set_nav (NavUsuario (ToString nombre))
    else set_nav NavInvitado
  else ret tt.

(** script.js, lines 56-69. *)
Definition cerrarSesion : M unit :=
  set_token VNull ;;
  set_usuario VNull ;;
  set_carrito {| items := []; total := 0 |} ;;
  localStorage_removeItem "token" ;;
  localStorage_removeItem "user" ;;
  localStorage_removeItem "carrito" ;;
  console_log [VStr "👋 Sesión cerrada"] ;;
  mostrarInterfaz.

(** script.js, lines 82-98. *)
Definition cargarSesionGuardada : M unit :=
  tokenGuardado <- localStorage_getItem "token" ;;
  usuarioGuardado <- localStorage_getItem "user" ;;
  if truthy (js_and tokenGuardado usuarioGuardado) then
    try_catch
      (set_token tokenGuardado ;;
       u <- JSON_parse_m usuarioGuardado ;;
       set_usuario u ;;
       e <- get_estado ;;
       nombre <- lift (get_prop (usuario e) "nombre") ;;
       console_log [VStr "👤 Sesión restaurada:"; nombre])
      (fun err =>
         console_error "❌ Sesión corrupta, limpiando..." err ;;
         cerrarSesion)
  else ret tt.

Definition peticion_json (datos : value) : Peticion :=
  {| metodo := "POST";
     cabeceras := [("Content-Type", "application/json")];
     cuerpo := ToString (JSON_stringify datos) |}.

(** script.js, lines 111-136. *)
Definition iniciarSesion (email password : value) : M unit :=
  try_catch
    (respuesta <- lift (fetch (URL_API +++ "/auth/login")
                          (peticion_json (VObj [("email", email);
                                                ("password", password)]))) ;;
     datos <- respuesta_json respuesta ;;
     console_log [VStr "📥 Respuesta login:"; VInt (status respuesta); datos] ;;
     if ok respuesta then
       t <- lift (get_prop datos "token") ;;
       u <- lift (get_prop datos "usuario") ;;
       guardarSesion t u ;;
       mostrarInterfaz ;;
       u' <- lift (get_prop datos "usuario") ;;
       nombre <- lift (get_prop u' "nombre") ;;
       alert (VStr ("Bienvenido, " +++ ToString nombre))
     else
       m <- lift (get_prop datos "message") ;;
       alert (js_or m (VStr "Error al iniciar sesión")))
    (fun error =>
       console_error "❌ Error login:" error ;;
       alert (VStr "No se pudo conectar con el servidor")).

(** script.js, lines 150-174. *)
Definition registrarUsuario (nombre email password : value) : M unit :=
  try_catch
    (respuesta <- lift (fetch (URL_API +++ "/auth/register")
                          (peticion_json (VObj [("nombre", nombre);
                                                ("email", email);
                                                ("password", password)]))) ;;
     datos <- respuesta_json respuesta ;;
     console_log [VStr "📥 Respuesta registro:"; VInt (status respuesta); datos] ;;
     if ok respuesta then
       t <- lift (get_prop datos "token") ;;
       u <- lift (get_prop datos "usuario") ;;
       guardarSesion t u ;;
       mostrarInterfaz ;;
       u' <- lift (get_prop datos "usuario") ;;
       n <- lift (get_prop u' "nombre") ;;
       alert (VStr ("Cuenta creada. Bienvenido, " +++ ToString n))
     else
       m <- lift (get_prop datos "message") ;;
       alert (js_or m (VStr "Error al registrarse")))
    (fun error =>
       console_error "❌ Error registro:" error ;;
       alert (VStr "No se pudo conectar con el servidor")).

End Funciones.

(** [document.getElementById(id).classList.add("hidden")] and
    [document.getElementById(id).classList.remove("hidden")], as the click
    listeners write them: the element is not tested, and reading
    [classList] of [null] throws. *)
Definition classList_hidden (id : string) (oculto : bool) : M unit :=
  hay <- existe id ;;
  if hay then toggle_hidden id oculto
  else lift (Throw (TypeError "Cannot read properties of null (reading 'classList')")).

(** The click listener [configurarEventosLogin] puts on the link
    [showRegister], script.js lines 266-272; [e.preventDefault()] touches
    nothing of the world. *)
Definition showRegister_click : M unit :=
  classList_hidden "loginForm" true ;;
  classList_hidden "registerForm" false.

(** The click listener of the link [showLogin], script.js lines 277-283. *)
Definition showLogin_click : M unit :=
  classList_hidden "registerForm" true ;;
  classList_hidden "loginForm" false.

End Script.
Export Script.

(* ===================================================================== *)
(** ** The cart operations *)
(* ===================================================================== *)

Module Cart.

(** [estado.carrito] is declared in script.js (lines 6-9), but no file
    under src/ defines the functions that change it; the reading here
    follows the specification's section 4.3.  A line's [item_id],
    [item_nombre], [precio] and [cantidad] are the specification's
    [itemId], [name], [unitPrice] and [quantity].  Writing the cart to
    [localStorage] is left out: no statement below reads it back. *)

(** Modelled from the spec: the derived total of its section 3, the sum
    of [unitPrice * quantity] over the lines. *)
Definition suma (ls : list Linea) : Z :=
  fold_right (fun l acc => (precio l * cantidad l + acc)%Z) 0%Z ls.

(** Modelled from the spec: the item [addItem] takes,
    [{itemId, name, unitPrice}]. *)
Record Item : Type := {
  itemId : Z;
  name : string;
  unitPrice : Z
}.

Definition con_cantidad (l : Linea) (q : Z) : Linea :=
  {| item_id := item_id l; item_nombre := item_nombre l;
     precio := precio l; cantidad := q |}.

(** Modelled from the spec: the body of [addItem] is in no file under src/.
    "if an entry with the same itemId exists, increments its quantity;
    otherwise appends a new line". *)
Fixpoint agregar (it : Item) (quantity : Z) (ls : list Linea) : list Linea :=
  match ls with
  | [] => [ {| item_id := itemId it; item_nombre := name it;
               precio := unitPrice it; cantidad := quantity |} ]
  | l :: tl =>
      if (item_id l =? itemId it)%Z
      then con_cantidad l (cantidad l + quantity) :: tl
      else l :: agregar it quantity tl
  end.

(** Modelled from the spec: the body of [addItem] is in no file under src/.
    [addItem(item, quantity)]: merge or append, then "Recomputes total". *)
Definition addItem (it : Item) (quantity : Z) (c : Carrito) : Carrito :=
  let ls := agregar it quantity (items c) in
  {| items := ls; total := suma ls |}.

(** Modelled from the spec: the body of [removeItem] is in no file under
    src/.  "deletes the matching line if present (no-op, not an error, if
    absent). Recomputes total". *)
Definition removeItem (id : Z) (c : Carrito) : Carrito :=
  let ls := List.filter (fun l => negb (item_id l =? id)%Z) (items c) in
  {| items := ls; total := suma ls |}.

(** One call of the cart's interface. *)
Inductive Op : Type :=
| OpAdd (it : Item) (quantity : Z)
| OpRemove (id : Z).

Definition aplicar (c : Carrito) (o : Op) : Carrito :=
  match o with
  | OpAdd it q => addItem it q c
  | OpRemove id => removeItem id c
  end.

(** A sequence of calls, first to last. *)
Definition ejecutar (ops : list Op) (c : Carrito) : Carrito :=
  fold_left aplicar ops c.

End Cart.

(* ===================================================================== *)
(** ** The server: database, image listing, customer creation *)
(* ===================================================================== *)

Module Backend.

(** A row: the value of each column, as the driver hands it to JavaScript
    (numbers for INT and BOOLEAN columns, strings for text, [null] for
    NULL). *)
Definition Fila : Type := list (string * value).

Record Tabla : Type := {
  columnas : list string;
  filas : list Fila
}.

(** The database behind [pool]: whether it can be reached, the two tables
    the code under src/ queries, and the next AUTO_INCREMENT id of
    [clientes]. *)
Record Db : Type := {
  conectada : bool;
  imagenes : Tabla;
  clientes : Tabla;
  siguiente_id : Z
}.

Definition campo (f : Fila) (c : string) : value :=
  match assoc c f with
  | Some v => v
  | None => VNull
  end.

(** [a = b] of a WHERE clause on values of one type; a comparison with
    NULL is not true.  Strings are compared byte by byte, as a binary
    collation does: equal strings are equal under every collation, and a
    case-insensitive one (the server's default) holds more strings equal.
    The statements on [clientes] keep to what holds under both. *)
Definition sql_eq (a b : value) : bool :=
  match a, b with
  | VNum m e, VNum m' e' => (m =? m')%Z && Nat.eqb e e'
  | VStr s, VStr s' => String.eqb s s'
  | VBool x, VBool y => Bool.eqb x y
  | _, _ => false
  end.

(** [SELECT cols FROM t WHERE c = v ORDER BY o ASC]. *)
Record Select : Type := {
  sel_columnas : list string;
  sel_where : string * value;
  sel_order : string
}.

Definition tiene_columna (t : Tabla) (c : string) : bool :=
  existsb (String.eqb c) (columnas t).

Definition proyectar (cols : list string) (f : Fila) : value :=
  VObj (map (fun c => (c, campo f c)) cols).

(** The columns a SELECT names, each with the clause it stands in, in the
    order the server resolves them. *)
Definition columnas_nombradas (q : Select) : list (string * string) :=
  map (fun c => (c, "field list")) (sel_columnas q)
  ++ [(fst (sel_where q), "where clause"); (sel_order q, "order clause")].

(** The server's error 1054, whose message the driver hands on as
    [error.message]. *)
Definition columna_desconocida (c donde : string) : JsError :=
  DbError ("Unknown column '" +++ c +++ "' in '" +++ donde +++ "'").

Section Consultas.

(** The collation's order on column values, as ORDER BY uses it. *)
Variable collation_leb : value -> value -> bool.

Fixpoint insertar_ordenado (c : string) (f : Fila) (fs : list Fila) : list Fila :=
  match fs with
  | [] => [f]
  | g :: tl =>
      if collation_leb (campo f c) (campo g c) then f :: fs
      else g :: insertar_ordenado c f tl
  end.

Definition ordenar (c : string) (fs : list Fila) : list Fila :=
  fold_right (insertar_ordenado c) [] fs.

(** [pool.query] on a SELECT: the rows as objects, or a rejection when
    the server cannot be reached or the statement names a column the
    table does not have. *)
Definition pool_query_select (viva : bool) (t : Tabla) (q : Select)
  : Res (list value) :=
  if negb viva then Throw (DbError "connect ECONNREFUSED")
  else
    match find (fun cd => negb (tiene_columna t (fst cd)))
               (columnas_nombradas q) with
    | Some (c, donde) => Throw (columna_desconocida c donde)
    | None =>
        Val (map (proyectar (sel_columnas q))
               (ordenar (sel_order q)
                  (List.filter (fun f => sql_eq (campo f (fst (sel_where q)))
                                      (snd (sel_where q)))
                     (filas t))))
    end.

(** The statement of imagenes.model.js, lines 5-8. *)
Definition consulta_imagenes : Select :=
  {| sel_columnas := ["id"; "titulo"; "descripcion"; "precio"; "stock";
                      "categoria"; "categoria_id"; "ruta_imagen"; "activo";
                      "creado_en"];
     sel_where := ("activo", VInt 1);
     sel_order := "nombre" |}.

(** src/backend/models/imagenes.model.js, lines 3-11. *)
Definition obtenerImagenes (db : Db) : Res (list value) :=
  pool_query_select (conectada db) (imagenes db) consulta_imagenes.

(** What [res.status(c).json(b)] sends. *)
Record HttpRespuesta : Type := {
  codigo : Z;
  json : value
}.

Definition error_message (e : JsError) : string :=
  match e with
  | TypeError m | SyntaxError m | NetworkError m | DbError m => m
  end.

(** The controller [getImagenes(req, res)], src/unnamed/part_000, lines
    9-29; [req] is not read, and the server's console is not modelled. *)
Definition getImagenes (db : Db) : HttpRespuesta :=
  match obtenerImagenes db with
  | Val imagenes =>
      {| codigo := 200;
         json := VObj [("success", VBool true);
                       ("message",
                        VStr ("Se encontraron "
                              +++ ToString (VInt (Z.of_nat (length imagenes)))
                              +++ " imagenes"));
                       ("data", VArr imagenes)] |}
  | Throw error =>
      {| codigo := 500;
         json := VObj [("success", VBool false);
                       ("message", VStr "Error interno del servidor");
                       ("error", VStr (error_message error))] |}
  end.

End Consultas.

(** The table [imagenes] as initdb.js creates it (lines 129-148). *)
Definition columnas_imagenes : list string :=
  ["id"; "titulo"; "descripcion"; "precio"; "stock"; "categoria";
   "categoria_id"; "ruta_imagen"; "activo"; "creado_en"].

(** The table [clientes] as initdb.js creates it (lines 78-88). *)
Definition columnas_clientes : list string :=
  ["id"; "nombre"; "email"; "password"; "creado_en"].

Definition es_nulo (v : value) : bool :=
  match v with
  | VNull => true
  | _ => false
  end.

Definition es_undefined (v : value) : bool :=
  match v with
  | VUndefined => true
  | _ => false
  end.

(** What [pool.query] sends as NULL: [null], and [undefined] too. *)
Definition es_null_sql (v : value) : bool := es_nulo v || es_undefined v.

(** [pool.query] on
    [INSERT INTO clientes (nombre, email, password) VALUES (?, ?, ?)].
    The three columns are NOT NULL: a NULL parameter is refused before a
    row is written.  [email] is UNIQUE: a duplicate is found once the row
    has taken its id, and InnoDB does not give the id back, so the counter
    has advanced although no row is added.  Otherwise the new row takes
    the next id, which the result reports as [insertId].  The column
    [creado_en] takes the server's clock, which is not modelled: the new
    row is given without it, and no statement reads it.  The message texts
    vary with the server's version; no statement depends on them. *)
Definition pool_query_insert_cliente (db : Db) (nombre email password : value)
  : Res value * Db :=
  if negb (conectada db) then (Throw (DbError "connect ECONNREFUSED"), db)
  else
    match find (fun cv => es_null_sql (snd cv))
               [("nombre", nombre); ("email", email); ("password", password)] with
    | Some (c, _) => (Throw (DbError ("Column '" +++ c +++ "' cannot be null")), db)
    | None =>
        let id := siguiente_id db in
        if existsb (fun f => sql_eq (campo f "email") email) (filas (clientes db))
        then (Throw (DbError ("Duplicate entry '" +++ ToString email
                              +++ "' for key 'clientes.email'")),
              {| conectada := conectada db;
                 imagenes := imagenes db;
                 clientes := clientes db;
                 siguiente_id := (id + 1)%Z |})
        else
          let fila := [("id", VInt id); ("nombre", nombre); ("email", email);
                       ("password", password)] in
          (Val (VObj [("affectedRows", VInt 1); ("insertId", VInt id)]),
           {| conectada := conectada db;
              imagenes := imagenes db;
              clientes := {| columnas := columnas (clientes db);
                             filas := filas (clientes db) ++ [fila] |};
              siguiente_id := (id + 1)%Z |})
    end.

(** [crearCliente({ nombre, email, password })],
    src/backend/routes/fotos.routes.js, lines 48-63. *)
Definition crearCliente (arg : value) (db : Db) : Res value * Db :=
  match get_prop arg "nombre", get_prop arg "email", get_prop arg "password" with
  | Val nombre, Val email, Val password =>
      match pool_query_insert_cliente db nombre email password with
      | (Val result, db') =>
          match get_prop result "insertId" with
          | Val insertId =>
              (Val (VObj [("insertId", insertId); ("id", insertId);
                          ("nombre", nombre); ("email", email)]), db')
          | Throw e => (Throw e, db')
          end
      | (Throw e, db') => (Throw e, db')
      end
  | Throw e, _, _ => (Throw e, db)
  | _, Throw e, _ => (Throw e, db)
  | _, _, Throw e => (Throw e, db)
  end.

(** [pool.query] on [SELECT cols FROM t WHERE c = ?] with the parameter
    [v] (a comparison with a [null] or [undefined] parameter is not
    true): the matching rows in table order, or a rejection as for
    [pool_query_select]. *)
Definition pool_query_select_where (viva : bool) (t : Tabla)
    (cols : list string) (c : string) (v : value) : Res (list value) :=
  if negb viva then Throw (DbError "connect ECONNREFUSED")
  else
    match find (fun cd => negb (tiene_columna t (fst cd)))
               (map (fun x => (x, "field list")) cols ++ [(c, "where clause")]) with
    | Some (x, donde) => Throw (columna_desconocida x donde)
    | None =>
        Val (map (proyectar cols)
               (List.filter (fun f => sql_eq (campo f c) v) (filas t)))
    end.

(** [buscarPorEmail(email)], src/backend/routes/fotos.routes.js, lines
    28-39: [rows[0]] is [undefined] when no row matches. *)
Definition buscarPorEmail (email : value) (db : Db) : Res value :=
  match pool_query_select_where (conectada db) (clientes db)
          ["id"; "nombre"; "email"; "password"; "creado_en"] "email" email with
  | Val rows => Val (nth 0 rows VUndefined)
  | Throw e => Throw e
  end.

End Backend.

(* ===================================================================== *)
(** ** Vocabulary of the statements *)
(* ===================================================================== *)

Import Cart.
Import Backend.

(** *** JSON data *)

Fixpoint claves_distintas (ks : list string) : bool :=
  match ks with
  | [] => true
  | k :: tl => negb (existsb (String.eqb k) tl) && claves_distintas tl
  end.

(** The values [JSON.parse] can give back for the text [JSON.stringify]
    wrote: no [undefined] inside, the keys of an object distinct, a number
    with decimal places in lowest terms. *)
Fixpoint json_limpio (v : value) : bool :=
  match v with
  | VUndefined => false
  | VNull | VBool _ | VStr _ => true
  | VNum m e =>
      match e with
      | O => true
      | S _ => negb (Z.abs_N m mod 10 =? 0)%N
      end
  | VArr xs => forallb json_limpio xs
  | VObj fs =>
      forallb (fun kx => json_limpio (snd kx)) fs && claves_distintas (map fst fs)
  end.

Definition digit_val (c : ascii) : N := (N_of_ascii c - 48)%N.

(** The number a run of digits spells, on top of [acc]. *)
Definition valor (ds : list ascii) (acc : N) : N :=
  fold_left (fun a c => (10 * a + digit_val c)%N) ds acc.

(** [ds] spells [n] in decimal, without a leading zero. *)
Definition digits_ok (n : N) (ds : list ascii) : Prop :=
  ds <> []
  /\ Forall (fun c => is_digit c = true) ds
  /\ valor ds 0 = n
  /\ (n <> 0%N -> hd zero_char ds <> zero_char).

(** What may follow a number literal: nothing, or a character that cannot
    continue it. *)
Definition fin_numero (rest : list ascii) : bool :=
  match rest with
  | [] => true
  | c :: _ =>
      let n := N_of_ascii c in
      negb (is_digit c) && negb (n =? 46)%N && negb (n =? 101)%N && negb (n =? 69)%N
  end.

(** The text of an array element. *)
Definition texto_de (x : value) : list ascii :=
  match stringify_chars x with
  | Some t => t
  | None => chars "null"
  end.

(** The text of an object member. *)
Definition miembro (kx : string * value) : list ascii :=
  quote_chars (chars (fst kx)) ++ ":"%char :: texto_de (snd kx).

(** What follows an element or member: the closing bracket, or a comma and
    the remaining ones. *)
Definition cola (cierre : ascii) (parts : list (list ascii)) (rest : list ascii)
  : list ascii :=
  match parts with
  | [] => cierre :: rest
  | _ :: _ => ","%char :: join_comma parts ++ cierre :: rest
  end.

(** The first character of a value's text opens a value: it is no white
    space and closes neither an array nor an object. *)
Definition abre_valor (c : ascii) : Prop :=
  is_ws c = false /\ (N_of_ascii c =? 93)%N = false /\ (N_of_ascii c =? 125)%N = false.

(** Reading back what was written, for texts of length within the fuel. *)
Definition ida_vuelta_valor (f : nat) : Prop :=
  forall (v : value) (rest : list ascii),
    json_limpio v = true -> (length (texto_de v) <= f)%nat ->
    fin_numero rest = true ->
    parse_value f (texto_de v ++ rest) = POk v rest.

Definition ida_vuelta_elems (f : nat) : Prop :=
  forall (x : value) (xs : list value) (rest : list ascii),
    forallb json_limpio (x :: xs) = true ->
    (length (join_comma (map texto_de (x :: xs))) < f)%nat ->
    parse_elems f (join_comma (map texto_de (x :: xs)) ++ "]"%char :: rest)
    = POk (x :: xs) rest.

Definition ida_vuelta_miembros (f : nat) : Prop :=
  forall (kx : string * value) (fs : list (string * value)) (rest : list ascii),
    forallb (fun kx => json_limpio (snd kx)) (kx :: fs) = true ->
    (length (join_comma (map miembro (kx :: fs))) < f)%nat ->
    parse_members f (join_comma (map miembro (kx :: fs)) ++ "}"%char :: rest)
    = POk (kx :: fs) rest.

(** A parse that ends does so within its fuel, and a successful one uses
    up part of the text. *)
Definition avanza {A : Type} (s : list ascii) (r : presult A) : Prop :=
  match r with
  | POk _ rest => (length rest < length s)%nat
  | PError => True
  | PFuel => False
  end.

Definition combustible_valor (f : nat) : Prop :=
  forall s : list ascii, (2 * length s < f)%nat -> avanza s (parse_value f s).

Definition combustible_elems (f : nat) : Prop :=
  forall s : list ascii, (2 * length s + 1 < f)%nat -> avanza s (parse_elems f s).

Definition combustible_miembros (f : nat) : Prop :=
  forall s : list ascii, (2 * length s < f)%nat -> avanza s (parse_members f s).




(** *** Session *)

(** A session field is present when it is truthy: the test the script
    itself applies ([!!estado.usuario], [tokenGuardado && usuarioGuardado]).
    No partial session: token and user are both present or both absent. *)
Definition sesion_coherente (e : Estado) : Prop :=
  truthy (token e) = truthy (usuario e).

(** [localStorage.getItem(k)] in the world [w]. *)
Definition leer (k : string) (w : World) : value :=
  match localStorage w !! k with
  | Some s => VStr s
  | None => VNull
  end.

(** The persisted user text, where it parses, parses to [null] (which the
    restore rejects) or to a truthy value.  A number counts only with at
    most 300 decimal places: a smaller one may round to the double [0],
    which the exact decimals of [JSON_parse] do not show. *)
Definition usuario_persistido_sano (w : World) : bool :=
  match localStorage w !! "user" with
  | Some s =>
      match JSON_parse s with
      | Some VNull | Some VUndefined => true
      | Some (VNum m e) => truthy (VNum m e) && (e <=? 300)%nat
      | Some v => truthy v
      | None => true
      end
  | None => true
  end.

(** The values whose truth and whose text the model gives as JavaScript
    does: [undefined], [null], a boolean, a string, or an integer below
    2^53 in magnitude (printed in plain digits, held exactly by a
    double). *)
Definition escalar_exacto (v : value) : bool :=
  match v with
  | VUndefined | VNull | VBool _ | VStr _ => true
  | VNum m O => (Z.abs m <? 2 ^ 53)%Z
  | _ => false
  end.

(** The keys the script's session functions name. *)
Definition claves_persistidas : list string := ["token"; "user"; "carrito"].

Definition con_documento (d : Dom) (w : World) : World :=
  {| estado := estado w; localStorage := localStorage w; documento := d;
     consola := consola w; alertas := alertas w |}.

Definition con_consola (r : Registro) (w : World) : World :=
  {| estado := estado w; localStorage := localStorage w; documento := documento w;
     consola := r :: consola w; alertas := alertas w |}.

Definition con_alerta (s : string) (w : World) : World :=
  {| estado := estado w; localStorage := localStorage w; documento := documento w;
     consola := consola w; alertas := s :: alertas w |}.

Definition con_sesion (tok usr : value) (w : World) : World :=
  {| estado := {| usuario := usr; token := tok; carrito := carrito (estado w) |};
     localStorage := localStorage w; documento := documento w;
     consola := consola w; alertas := alertas w |}.

(** The world [cerrarSesion] leaves, up to the document [d]. *)
Definition mundo_cerrado (d : Dom) (w : World) : World :=
  {| estado := {| usuario := VNull; token := VNull;
                  carrito := {| items := []; total := 0 |} |};
     localStorage := delete "carrito" (delete "user" (delete "token" (localStorage w)));
     documento := d;
     consola := ConsoleLog [VStr "👋 Sesión cerrada"] :: consola w;
     alertas := alertas w |}.

(** A page just loaded: the initial [estado], nothing logged or alerted,
    over the store [ls]. *)
Definition mundo_nuevo (ls : gmap string string) : World :=
  {| estado := estado_inicial; localStorage := ls;
     documento := {| elementos := ∅; nav := NavPagina |};
     consola := []; alertas := [] |}.

Definition peticion_login (email password : value) : Peticion :=
  peticion_json (VObj [("email", email); ("password", password)]).

Definition peticion_registro (nombre email password : value) : Peticion :=
  peticion_json (VObj [("nombre", nombre); ("email", email); ("password", password)]).

(** *** Cart *)

(** The ids of the lines, in order. *)
Definition ids (ls : list Linea) : list Z := map item_id ls.

(** What [addItem] does to a line of the cart. *)
Definition fusionar (it : Item) (quantity : Z) (l : Linea) : Linea :=
  if (item_id l =? itemId it)%Z then con_cantidad l (cantidad l + quantity) else l.

Definition linea_nueva (it : Item) (quantity : Z) : Linea :=
  {| item_id := itemId it; item_nombre := name it;
     precio := unitPrice it; cantidad := quantity |}.

(** The cart's invariant: the stored total is the sum over the lines, and
    no two lines share an id. *)
Definition carrito_ok (c : Carrito) : Prop :=
  total c = suma (items c) /\ List.NoDup (ids (items c)).

(** *** Server *)

(** The names of an object's own properties. *)
Definition claves (v : value) : list string :=
  match v with
  | VObj fs => map fst fs
  | _ => []
  end.

(** *** Concrete inputs *)

(** Stand-in for the two functions the script calls and no file defines. *)
Definition sin_efecto : M unit := ret tt.

(** The user the script documents: [{id, nombre, email}]. *)
Definition usuario_valido (id : Z) (nombre email : string) : value :=
  VObj [("id", VInt id); ("nombre", VStr nombre); ("email", VStr email)].

Definition ana : value := usuario_valido 1 "Ana" "a@x.com".

(** A service that answers every request with status [st] and body
    [cuerpo]. *)
Definition red_fija (st : Z) (cuerpo : string) : string -> Peticion -> Res Respuesta :=
  fun _ _ => Val {| status := st; texto := cuerpo |}.

(** The body [{message: m}] as the service serializes it. *)
Definition cuerpo_mensaje (m : string) : string :=
  ToString (JSON_stringify (VObj [("message", VStr m)])).

Definition producto_x : Item := {| itemId := 1; name := "X"; unitPrice := 10 |}.

Definition fila_imagen (id : Z) (nombre : string) (activo : value) : Fila :=
  [("id", VInt id); ("titulo", VStr nombre); ("nombre", VStr nombre);
   ("precio", VInt 10); ("activo", activo)].

(** A database whose [imagenes] table has, besides the columns of
    initdb.js, the column [nombre] the listing orders by. *)
Definition db_ejemplo : Db :=
  {| conectada := true;
     imagenes := {| columnas := "nombre" :: columnas_imagenes;
                    filas := [fila_imagen 1 "playa" (VInt 1);
                              fila_imagen 2 "bosque" (VInt 0);
                              fila_imagen 3 "ciudad" VNull;
                              fila_imagen 4 "montaña" (VInt 1)] |};
     clientes := {| columnas := columnas_clientes; filas := [] |};
     siguiente_id := 1 |}.

Definition orden_cualquiera : value -> value -> bool := fun _ _ => true.

Definition alta_ana : value :=
  VObj [("nombre", VStr "Ana"); ("email", VStr "a@x.com");
        ("password", VStr "$2b$10$hash")].

(** *** Views, links, customers *)

(** [classList.toggle("hidden", force)] on the element [id] where the page
    has it. *)
Definition alternar (id : string) (force : bool) (els : gmap string bool)
  : gmap string bool :=
  if bool_decide (is_Some (els !! id)) then <[id := force]> els else els.

(** A name that is plain text to the HTML parser: it holds no [<] and no
    [&], so that, written into the markup of [authNav], it opens no tag,
    comment or character reference, is shown as it is, and the button
    after it is built. *)
Definition sin_marcado (s : string) : bool :=
  forallb (fun c => negb (Ascii.eqb c "<"%char) && negb (Ascii.eqb c "&"%char))
    (chars s).

(** What [authNav] shows for the user [u]. *)
Definition nav_de (u : value) : Nav :=
  if truthy u then
    match get_prop u "nombre" with
    | Val n => NavUsuario (ToString n)
    | Throw _ => NavPagina
    end
  else NavInvitado.

(** The document [mostrarInterfaz] draws for the user [u]. *)
Definition vista (u : value) (d : Dom) : Dom :=
  {| elementos := alternar "tiendaSection" (negb (truthy u))
                    (alternar "productosMostrar" (truthy u)
                       (alternar "authSection" (truthy u) (elementos d)));
     nav := if bool_decide (is_Some (elementos d !! "authNav")) then nav_de u
            else nav d |}.

(** Whether the class list of [id] holds [hidden] after [mostrarInterfaz],
    [b] being what it held before. *)
Definition oculto_tras_vista (logueado : bool) (id : string) (b : bool) : bool :=
  if String.eqb id "tiendaSection" then negb logueado
  else if String.eqb id "productosMostrar" then logueado
  else if String.eqb id "authSection" then logueado
  else b.


(** The two links under the forms, and a click on one of them. *)
Inductive Enlace : Type := ShowRegister | ShowLogin.

Definition pulsar (l : Enlace) : M unit :=
  match l with
  | ShowRegister => showRegister_click
  | ShowLogin => showLogin_click
  end.

(** Clicks one after the other; a listener that throws does not stop the
    next click from being served. *)
Fixpoint pulsar_todos (ls : list Enlace) (w : World) : World :=
  match ls with
  | [] => w
  | l :: tl => pulsar_todos tl (snd (pulsar l w))
  end.

(** Whether the element [id] is on the page and shown. *)
Definition visible (id : string) (w : World) : bool :=
  match elementos (documento w) !! id with
  | Some oculto => negb oculto
  | None => false
  end.

(** ORDER BY [nombre]: the order of two rows. *)
Definition por_nombre (leb : value -> value -> bool) (f g : Fila) : Prop :=
  leb (campo f "nombre") (campo g "nombre") = true.

(** WHERE [activo = 1]. *)
Definition activa (f : Fila) : bool := sql_eq (campo f "activo") (VInt 1).

(** No two rows of [clientes] have equal emails: the UNIQUE key. *)
Definition emails_unicos (db : Db) : Prop :=
  ForallOrdPairs
    (fun f g => sql_eq (campo f "email") (campo g "email") = false)
    (filas (clientes db)).

(** Every id in [clientes] is below the AUTO_INCREMENT counter. *)
Definition ids_bajo_contador (db : Db) : Prop :=
  Forall (fun f => exists i, campo f "id" = VInt i /\ (i < siguiente_id db)%Z)
    (filas (clientes db)).


(** A page with both forms, the login form shown. *)
Definition pagina_formularios : World :=
  {| estado := estado_inicial; localStorage := ∅;
     documento := {| elementos := <["loginForm" := false]>
                                    (<["registerForm" := true]>
                                       (<["authSection" := false]> ∅));
                     nav := NavPagina |};
     consola := []; alertas := [] |}.

(** A network that cannot be reached. *)
Definition red_caida : string -> Peticion -> Res Respuesta :=
  fun _ _ => Throw (NetworkError "Failed to fetch").

(** A binary collation: strings in the order of their bytes, everything
    else (NULL) first. *)
Definition orden_binario (a b : value) : bool :=
  match a, b with
  | VStr s, VStr t => String.leb s t
  | VStr _, _ => false
  | _, _ => true
  end.

(** A row of [imagenes] as the INSERT of initdb.js (lines 281-297) leaves
    it: [activo] takes its default TRUE, [categoria_id] is NULL. *)
Definition fila_semilla (id : Z) (titulo descripcion : string) (centimos stock : Z)
    (categoria : string) : Fila :=
  [("id", VInt id); ("titulo", VStr titulo); ("descripcion", VStr descripcion);
   ("precio", VNum centimos 2); ("stock", VInt stock); ("categoria", VStr categoria);
   ("categoria_id", VNull);
   ("ruta_imagen", VStr "https://via.placeholder.com/300x300");
   ("activo", VInt 1); ("creado_en", VStr "2025-01-01 00:00:00")].

Definition usuario_prueba : Fila :=
  [("id", VInt 1); ("nombre", VStr "Usuario Prueba");
   ("email", VStr "test@example.com"); ("password", VStr "$2a$10$N9qo8uLO");
   ("creado_en", VStr "2025-01-01 00:00:00")].

(** A database as initdb.js sets it up: the tables with the columns of
    its CREATE TABLE statements, two of the sample images and the test
    customer. *)
Definition db_initdb : Db :=
  {| conectada := true;
     imagenes := {| columnas := columnas_imagenes;
                    filas := [fila_semilla 1 "Pajaro volando"
                                "Se ven varios pajaros de varios colores"
                                1999 50 "Naturaleza";
                              fila_semilla 2 "perro negro" "perro negro sentado"
                                4999 30 "Naturaleza"] |};
     clientes := {| columnas := columnas_clientes; filas := [usuario_prueba] |};
     siguiente_id := 2 |}.

(** The text of a JSON body. *)
Definition cuerpo_json (v : value) : string := ToString (JSON_stringify v).

(** A page with the sections [mostrarInterfaz] looks for, as served. *)
Definition pagina_tienda : World :=
  {| estado := estado_inicial; localStorage := ∅;
     documento := {| elementos := <["authSection" := true]>
                                    (<["tiendaSection" := false]>
                                       (<["productosMostrar" := true]>
                                          (<["authNav" := false]>
                                             (<["pie" := false]> ∅))));
                     nav := NavPagina |};
     consola := []; alertas := [] |}.

(** A registration with the email of the test customer of initdb.js. *)
Definition alta_prueba : value :=
  VObj [("nombre", VStr "Otro"); ("email", VStr "test@example.com");
        ("password", VStr "$2b$10$otro")].

(** A registration of Ana's email under another name. *)
Definition alta_repetida : value :=
  VObj [("nombre", VStr "Otra"); ("email", VStr "a@x.com");
        ("password", VStr "$2b$10$otro")].

(** *** Proof steps *)

(** Run the state-passing primitives on an opened world. *)
Ltac desplegar :=
  cbv beta iota zeta delta
    [bind ret lift try_catch get_estado put_estado set_token set_usuario
     set_carrito put_localStorage localStorage_setItem localStorage_getItem
     localStorage_removeItem console_log console_error alert put_documento
     existe toggle_hidden set_nav respuesta_json JSON_parse_m
     estado localStorage documento consola alertas usuario token carrito
     elementos nav fst snd].

Ltac abrir_mundo w :=
  destruct w as [[?u ?t ?k] ?ls [?els ?n] ?c ?a].

(** Replace a call of [cerrarSesion] by the world it leaves. *)
Ltac cerrar lema :=
  match goal with
  | |- context [Script.cerrarSesion ?a ?b ?w'] =>
      let d := fresh "d" in
      let H := fresh "H" in
      destruct (lema w') as (d & H); rewrite H; clear H
  end.

(* ===================================================================== *)
(** ** JSON: what is written is read back, and the fuel is enough *)
(* ===================================================================== *)

(** *** String literals *)

(** Each of the 256 characters, quoted, is read back as itself. *)
Lemma parse_string_body_escape (c : ascii) (tl : list ascii) :
  parse_string_body (escape_char c ++ tl)
  = match parse_string_body tl with
    | Some (cs, r) => Some (c :: cs, r)
    | None => None
    end.
Proof.
  destruct c as [[] [] [] [] [] [] [] []]; reflexivity.
Qed.

Lemma parse_string_body_quote (cs rest : list ascii) :
  parse_string_body (flat_map escape_char cs ++ dquote :: rest) = Some (cs, rest).
Proof.
  induction cs as [|c cs IH]; [reflexivity|].
  cbn [flat_map]. rewrite <- app_assoc, parse_string_body_escape, IH.
  reflexivity.
Qed.

(** *** Number literals *)

Lemma is_digit_digit_char (d : N) :
  (d < 10)%N -> is_digit (digit_char d) = true /\ digit_val (digit_char d) = d.
Proof.
  intros H. unfold is_digit, digit_val, digit_char.
  rewrite N_ascii_embedding by lia. split; [|lia].
  apply andb_true_iff; split; apply N.leb_le; lia.
Qed.

Lemma digits_ok_one (n : N) : (n < 10)%N -> digits_ok n [digit_char n].
Proof.
  intros Hlt. destruct (is_digit_digit_char n Hlt) as [Hd Hv].
  split; [discriminate|]. split; [constructor; [exact Hd|constructor]|].
  split; [unfold valor; cbn [fold_left]; rewrite Hv; lia|].
  intros Hnz Heq. cbn in Heq.
  assert (H : digit_val (digit_char n) = digit_val zero_char)
    by (rewrite Heq; reflexivity).
  rewrite Hv in H. unfold digit_val, zero_char in H. cbn in H. lia.
Qed.

Lemma digits_ok_snoc (n : N) (ds : list ascii) :
  (10 <= n)%N -> digits_ok (n / 10) ds ->
  digits_ok n (ds ++ [digit_char (n mod 10)]).
Proof.
  intros Hge (Hne & Hall & Hval & Hhd).
  assert (Hm : (n mod 10 < 10)%N) by (apply N.mod_lt; lia).
  destruct (is_digit_digit_char _ Hm) as [Hd Hv].
  split; [destruct ds; discriminate|].
  split; [apply Forall_app; split; [exact Hall|constructor; [exact Hd|constructor]]|].
  split.
  - unfold valor in *. rewrite fold_left_app, Hval. cbn [fold_left]. rewrite Hv.
    pose proof (N.div_mod n 10). lia.
  - intros _. destruct ds as [|d ds]; [contradiction|]. cbn. cbn in Hhd.
    apply Hhd. intros H0. apply N.div_small_iff in H0; lia.
Qed.

Lemma digits_fuel_spec (fuel : nat) : forall (n : N) (acc : list ascii),
  (n < 10 ^ N.of_nat (S fuel))%N ->
  exists ds, digits_fuel (S fuel) n acc = ds ++ acc /\ digits_ok n ds.
Proof.
  induction fuel as [|f IH]; intros n acc Hn;
    change (digits_fuel (S ?k) n acc)
      with (if (n <? 10)%N then digit_char (n mod 10) :: acc
            else digits_fuel k (n / 10) (digit_char (n mod 10) :: acc));
    destruct (N.ltb_spec n 10) as [Hlt|Hge].
  - exists [digit_char (n mod 10)]. rewrite N.mod_small by exact Hlt.
    split; [reflexivity|apply digits_ok_one; exact Hlt].
  - cbn in Hn. lia.
  - exists [digit_char (n mod 10)]. rewrite N.mod_small by exact Hlt.
    split; [reflexivity|apply digits_ok_one; exact Hlt].
  - assert (Hq : (n / 10 < 10 ^ N.of_nat (S f))%N).
    { apply N.Div0.div_lt_upper_bound.
      rewrite (Nat2N.inj_succ (S f)), N.pow_succ_r' in Hn. exact Hn. }
    destruct (IH (n / 10)%N (digit_char (n mod 10) :: acc) Hq) as (ds & Heq & Hok).
    exists (ds ++ [digit_char (n mod 10)]). split.
    + rewrite Heq, <- app_assoc. reflexivity.
    + apply digits_ok_snoc; assumption.
Qed.

Lemma digits_spec (n : N) : digits_ok n (digits n).
Proof.
  unfold digits.
  destruct (digits_fuel_spec (N.to_nat (N.log2 n)) n []) as (ds & H & R).
  - rewrite Nat2N.inj_succ, N2Nat.id.
    destruct (N.eq_dec n 0%N) as [->|Hnz]; [cbn; lia|].
    apply N.lt_le_trans with (2 ^ N.succ (N.log2 n))%N.
    + apply N.log2_spec. lia.
    + apply N.pow_le_mono_l. lia.
  - rewrite H, app_nil_r. exact R.
Qed.

Lemma scan_digits_app (ds : list ascii) : forall (rest : list ascii) (acc : N) (cnt : nat),
  Forall (fun c => is_digit c = true) ds ->
  match rest with c :: _ => is_digit c = false | [] => True end ->
  scan_digits (ds ++ rest) acc cnt = (valor ds acc, (cnt + length ds)%nat, rest).
Proof.
  induction ds as [|d ds IH]; intros rest acc cnt Hall Hrest.
  - cbn. rewrite Nat.add_0_r. destruct rest as [|c rest]; [reflexivity|].
    cbn. rewrite Hrest. reflexivity.
  - inversion Hall as [|? ? Hd Hall']; subst.
    cbn [app scan_digits]. rewrite Hd, IH by assumption.
    cbn [length valor fold_left]. unfold digit_val.
    f_equal. f_equal. lia.
Qed.

Lemma fin_numero_no_digit (rest : list ascii) :
  fin_numero rest = true ->
  match rest with c :: _ => is_digit c = false | [] => True end.
Proof.
  destruct rest as [|c rest]; [trivial|]. cbn.
  destruct (is_digit c); [discriminate|reflexivity].
Qed.

Lemma parse_frac_none (rest : list ascii) :
  fin_numero rest = true -> parse_frac rest = Some (0%N, O, rest).
Proof.
  destruct rest as [|c rest]; [reflexivity|]. cbn.
  destruct (N_of_ascii c =? 46)%N; [|reflexivity].
  rewrite andb_false_r. discriminate.
Qed.

Lemma parse_exp_none (rest : list ascii) :
  fin_numero rest = true -> parse_exp rest = Some (0%Z, rest).
Proof.
  destruct rest as [|c rest]; [reflexivity|]. cbn.
  destruct (N_of_ascii c =? 101)%N, (N_of_ascii c =? 69)%N;
    rewrite ?andb_false_r; try discriminate; reflexivity.
Qed.

Lemma starts_with_zero_hd (ds rest : list ascii) :
  ds <> [] -> hd zero_char ds <> zero_char -> starts_with_zero (ds ++ rest) = false.
Proof.
  destruct ds as [|d ds]; [contradiction|]. intros _ Hd. cbn in *.
  apply N.eqb_neq. intros H. apply Hd.
  rewrite <- (ascii_N_embedding d), H. reflexivity.
Qed.

Lemma parse_digits_nat (n : N) (rest : list ascii) :
  fin_numero rest = true ->
  exists ni',
    scan_digits (digits n ++ rest) 0%N O = (n, S ni', rest)
    /\ starts_with_zero (digits n ++ rest) && negb (Nat.eqb ni' 0) = false.
Proof.
  intros Hrest. destruct (N.eq_dec n 0%N) as [->|Hnz].
  - exists O. change (digits 0) with [zero_char]. cbn [app].
    split; [|apply andb_false_r].
    cbn. destruct rest as [|c rest]; [reflexivity|].
    apply fin_numero_no_digit in Hrest. cbn. rewrite Hrest. reflexivity.
  - destruct (digits_spec n) as (Hne & Hall & Hval & Hhd).
    destruct (digits n) as [|d ds] eqn:E; [contradiction|].
    exists (length ds). split.
    + rewrite scan_digits_app; [|exact Hall|apply fin_numero_no_digit, Hrest].
      rewrite Hval. reflexivity.
    + rewrite starts_with_zero_hd; [reflexivity|discriminate|auto].
Qed.

Lemma make_num_int (neg : bool) (m : N) :
  make_num neg (m * 10 ^ N.of_nat 0 + 0) 0 0
  = VNum (if neg then - Z.of_N m else Z.of_N m)%Z 0.
Proof.
  unfold make_num. cbn. rewrite N.mul_1_r, N.add_0_r, N.mul_1_r. reflexivity.
Qed.

Lemma parse_number_int (z : Z) (rest : list ascii) :
  fin_numero rest = true ->
  parse_number (number_chars z 0 ++ rest) = Some (VNum z 0, rest).
Proof.
  intros Hrest. unfold number_chars.
  destruct (parse_digits_nat (Z.abs_N z) rest Hrest) as (ni' & Hscan & Hzero).
  destruct (Z.ltb_spec z 0) as [Hneg|Hpos].
  - cbn [app]. unfold parse_number.
    change (N_of_ascii "-" =? 45)%N with true. cbv iota.
    rewrite Hscan, Hzero, (parse_frac_none _ Hrest), (parse_exp_none _ Hrest).
    rewrite make_num_int. f_equal. f_equal. f_equal. lia.
  - cbn [app]. unfold parse_number.
    destruct (digits_spec (Z.abs_N z)) as (Hne & Hall & _).
    destruct (digits (Z.abs_N z)) as [|d ds] eqn:E; [contradiction|].
    cbn [app] in *. inversion Hall as [|? ? Hd _]; subst.
    assert (Hminus : (N_of_ascii d =? 45)%N = false).
    { unfold is_digit in Hd. apply andb_true_iff in Hd as [Hd _].
      apply N.leb_le in Hd. apply N.eqb_neq. lia. }
    rewrite Hminus, Hscan, Hzero, (parse_frac_none _ Hrest), (parse_exp_none _ Hrest).
    rewrite make_num_int. f_equal. f_equal. f_equal. lia.
Qed.

Lemma valor_acc (ds : list ascii) : forall acc : N,
  valor ds acc = (acc * 10 ^ N.of_nat (length ds) + valor ds 0)%N.
Proof.
  unfold valor. induction ds as [|d ds IH]; intros acc.
  - cbn. lia.
  - cbn [fold_left length]. rewrite IH, (IH (10 * 0 + digit_val d)%N).
    rewrite Nat2N.inj_succ, N.pow_succ_r'. lia.
Qed.

Lemma valor_app (l1 l2 : list ascii) :
  valor (l1 ++ l2) 0 = (valor l1 0 * 10 ^ N.of_nat (length l2) + valor l2 0)%N.
Proof.
  unfold valor at 1. rewrite fold_left_app. fold (valor l1 0).
  fold (valor l2 (valor l1 0)). apply valor_acc.
Qed.

Lemma valor_zeros (n : nat) : valor (repeat zero_char n) 0 = 0%N.
Proof.
  induction n as [|n IH]; [reflexivity|]. cbn [repeat].
  change (valor (zero_char :: repeat zero_char n) 0) with (valor (repeat zero_char n) 0).
  exact IH.
Qed.

Lemma Forall_digit_zeros (n : nat) :
  Forall (fun c => is_digit c = true) (repeat zero_char n).
Proof. induction n; cbn [repeat]; constructor; [reflexivity|assumption]. Qed.

(** The digits of a decimal with [e] places, split at the point. *)
Lemma decimal_split (n : N) (e : nat) :
  n <> 0%N ->
  let ds' := pad_zeros (S e) (digits n) in
  let k := (length ds' - e)%nat in
  exists ni',
    k = S ni'
    /\ length (skipn k ds') = e
    /\ Forall (fun c => is_digit c = true) (firstn k ds')
    /\ Forall (fun c => is_digit c = true) (skipn k ds')
    /\ (valor (firstn k ds') 0 * 10 ^ N.of_nat e + valor (skipn k ds') 0 = n)%N
    /\ starts_with_zero (firstn k ds') && negb (Nat.eqb ni' 0) = false
    /\ firstn k ds' <> [].
Proof.
  intros Hnz. cbv zeta.
  destruct (digits_spec n) as (Hne & Hall & Hval & Hhd). specialize (Hhd Hnz).
  set (ds := digits n) in *. unfold pad_zeros.
  remember (S e - length ds)%nat as z eqn:Hzdef.
  remember (repeat zero_char z ++ ds) as ds' eqn:Hds'.
  assert (Hlen : (length ds' = z + length ds)%nat)
    by (rewrite Hds', length_app, repeat_length; reflexivity).
  assert (Hge : (S e <= length ds')%nat) by lia.
  assert (Hall' : Forall (fun c => is_digit c = true) ds')
    by (rewrite Hds'; apply Forall_app; split; [apply Forall_digit_zeros|exact Hall]).
  assert (Hval' : valor ds' 0 = n).
  { rewrite Hds', valor_app, valor_zeros, Hval. lia. }
  remember (length ds' - e)%nat as k eqn:Hkdef.
  exists (k - 1)%nat.
  assert (Hsk : length (skipn k ds') = e) by (rewrite length_skipn; lia).
  rewrite <- (firstn_skipn k ds') in Hall', Hval'.
  apply Forall_app in Hall' as [Hf Hs]. rewrite valor_app, Hsk in Hval'.
  repeat split; try assumption; try lia.
  - destruct (Nat.eq_dec z 0) as [Hz|Hz].
    + assert (E : ds' = ds) by (rewrite Hds', Hz; reflexivity).
      rewrite E. destruct ds as [|d ds0]; [contradiction|].
      destruct k as [|k']; [lia|]. cbn [firstn].
      pose proof (starts_with_zero_hd [d] (firstn k' ds0)) as Hz0.
      cbn [app] in Hz0. rewrite Hz0; [reflexivity|discriminate|exact Hhd].
    + assert (k = 1)%nat as -> by lia. cbn. apply andb_false_r.
  - intros E. apply (f_equal (@length ascii)) in E.
    rewrite length_firstn in E. cbn in E. lia.
Qed.

Lemma normalize_id (m : N) (e : nat) :
  (m mod 10 <> 0)%N -> normalize m (S e) = (m, S e).
Proof.
  intros H. cbn [normalize]. destruct (N.eqb_spec (m mod 10) 0); [contradiction|reflexivity].
Qed.

Lemma parse_frac_digits (fs rest : list ascii) :
  fs <> [] -> Forall (fun c => is_digit c = true) fs -> fin_numero rest = true ->
  parse_frac ("."%char :: fs ++ rest) = Some (valor fs 0, length fs, rest).
Proof.
  intros Hne Hall Hrest. cbn [parse_frac].
  change (N_of_ascii "."%char =? 46)%N with true. cbv iota.
  rewrite scan_digits_app; [|exact Hall|apply fin_numero_no_digit, Hrest].
  cbn [Nat.add]. destruct fs; [contradiction|reflexivity].
Qed.

Lemma scan_digits_punto (ds tl : list ascii) :
  Forall (fun c => is_digit c = true) ds ->
  scan_digits (ds ++ "."%char :: tl) 0%N 0 = (valor ds 0, length ds, "."%char :: tl).
Proof.
  intros Hall. rewrite scan_digits_app; [reflexivity|exact Hall|reflexivity].
Qed.

Lemma parse_number_dec (z : Z) (e : nat) (rest : list ascii) :
  (Z.abs_N z mod 10 <> 0)%N -> fin_numero rest = true ->
  parse_number (number_chars z (S e) ++ rest) = Some (VNum z (S e), rest).
Proof.
  intros Hm Hrest.
  assert (Hnz : Z.abs_N z <> 0%N) by (intros E; rewrite E in Hm; apply Hm; reflexivity).
  destruct (decimal_split (Z.abs_N z) (S e) Hnz)
    as (ni' & Hk & Hsk & Hf & Hs & Hval & Hzero & Hfne).
  unfold number_chars.
  set (ds' := pad_zeros (S (S e)) (digits (Z.abs_N z))) in *.
  set (k := (length ds' - S e)%nat) in *.
  assert (Hsne : skipn k ds' <> []).
  { intros E. rewrite E in Hsk. discriminate. }
  assert (Hmk : forall neg,
             make_num neg (valor (firstn k ds') 0 * 10 ^ N.of_nat (length (skipn k ds'))
                           + valor (skipn k ds') 0) (length (skipn k ds')) 0
             = VNum (if neg then - Z.of_N (Z.abs_N z) else Z.of_N (Z.abs_N z))%Z (S e)).
  { intros neg. rewrite Hsk, Hval. unfold make_num.
    replace (0 - Z.of_nat (S e))%Z with (- Z.of_nat (S e))%Z by lia.
    destruct (Z.leb_spec 0 (- Z.of_nat (S e))) as [H|H]; [lia|].
    rewrite Z.opp_involutive, Nat2Z.id, normalize_id by exact Hm. reflexivity. }
  assert (Hbody : forall neg,
             (let '(i, ni, s2) := scan_digits ((firstn k ds' ++ "."%char :: skipn k ds') ++ rest) 0%N 0 in
              match ni with
              | O => None
              | S ni0 =>
                  if starts_with_zero ((firstn k ds' ++ "."%char :: skipn k ds') ++ rest)
                     && negb (Nat.eqb ni0 0) then None
                  else
                    match parse_frac s2 with
                    | None => None
                    | Some (f, nf, s3) =>
                        match parse_exp s3 with
                        | None => None
                        | Some (x, s4) =>
                            Some (make_num neg (i * 10 ^ N.of_nat nf + f)%N nf x, s4)
                        end
                    end
              end)
             = Some (VNum (if neg then - Z.of_N (Z.abs_N z) else Z.of_N (Z.abs_N z))%Z (S e), rest)).
  { intros neg. rewrite <- app_assoc. cbn [app].
    rewrite scan_digits_punto by exact Hf.
    assert (Hlf : length (firstn k ds') = S ni').
    { rewrite length_firstn. rewrite length_skipn in Hsk. lia. }
    rewrite Hlf.
    assert (Hz' : starts_with_zero (firstn k ds' ++ "."%char :: skipn k ds' ++ rest)
                  = starts_with_zero (firstn k ds')).
    { destruct (firstn k ds'); [contradiction|reflexivity]. }
    rewrite Hz', Hzero.
    rewrite parse_frac_digits by assumption.
    rewrite (parse_exp_none _ Hrest). rewrite Hmk. reflexivity. }
  destruct (Z.ltb_spec z 0) as [Hneg|Hpos].
  - cbn [app]. unfold parse_number.
    change (N_of_ascii "-" =? 45)%N with true. cbv iota.
    rewrite (Hbody true). f_equal. f_equal. f_equal. lia.
  - cbn [app]. unfold parse_number.
    destruct (firstn k ds') as [|d ds0] eqn:E; [contradiction|].
    inversion Hf as [|? ? Hd _]; subst.
    assert (Hminus : (N_of_ascii d =? 45)%N = false).
    { unfold is_digit in Hd. apply andb_true_iff in Hd as [Hd _].
      apply N.leb_le in Hd. apply N.eqb_neq. lia. }
    cbn [app]. rewrite Hminus.
    change (d :: (ds0 ++ "."%char :: skipn k ds') ++ rest)
      with (((d :: ds0) ++ "."%char :: skipn k ds') ++ rest).
    rewrite (Hbody false). f_equal. f_equal. f_equal. lia.
Qed.

Lemma number_chars_head (m : Z) (e : nat) :
  json_limpio (VNum m e) = true ->
  exists c t', number_chars m e = c :: t'
               /\ (N_of_ascii c = 45%N \/ is_digit c = true).
Proof.
  intros Hl. unfold number_chars. destruct (m <? 0)%Z.
  - destruct e; cbn [app]; eexists _, _; (split; [reflexivity|left; reflexivity]).
  - cbn [app]. destruct e as [|e].
    + destruct (digits_spec (Z.abs_N m)) as (Hne & Hall & _).
      destruct (digits (Z.abs_N m)) as [|d ds]; [contradiction|].
      inversion Hall; subst. eexists _, _. split; [reflexivity|right; assumption].
    + cbn [json_limpio] in Hl. apply negb_true_iff, N.eqb_neq in Hl.
      assert (Hnz : Z.abs_N m <> 0%N)
        by (intros E; rewrite E in Hl; apply Hl; reflexivity).
      destruct (decimal_split (Z.abs_N m) (S e) Hnz) as (_ & _ & _ & Hf & _ & _ & _ & Hfne).
      destruct (firstn _ _) as [|d ds]; [contradiction|].
      inversion Hf; subst. cbn [app]. eexists _, _.
      split; [reflexivity|right; assumption].
Qed.

Lemma parse_number_limpio (m : Z) (e : nat) (rest : list ascii) :
  json_limpio (VNum m e) = true -> fin_numero rest = true ->
  parse_number (number_chars m e ++ rest) = Some (VNum m e, rest).
Proof.
  intros Hl Hrest. destruct e as [|e].
  - apply parse_number_int, Hrest.
  - cbn [json_limpio] in Hl. apply negb_true_iff, N.eqb_neq in Hl.
    apply parse_number_dec; assumption.
Qed.

Lemma is_digit_abre (c : ascii) : is_digit c = true -> abre_valor c.
Proof.
  unfold is_digit, abre_valor, is_ws. intros H.
  apply andb_true_iff in H as [H1 H2]. apply N.leb_le in H1, H2.
  repeat split; repeat (apply orb_false_iff; split); apply N.eqb_neq; lia.
Qed.

Lemma menos_abre (c : ascii) : N_of_ascii c = 45%N -> abre_valor c.
Proof.
  unfold abre_valor, is_ws. intros H. rewrite H. repeat split.
Qed.

(** *** Values, arrays and objects *)

Lemma join_comma_cola (cierre : ascii) (p : list ascii) (parts : list (list ascii))
    (rest : list ascii) :
  join_comma (p :: parts) ++ cierre :: rest = p ++ cola cierre parts rest.
Proof.
  destruct parts as [|q parts]; [reflexivity|].
  cbn [join_comma cola]. rewrite <- app_assoc. reflexivity.
Qed.

Lemma stringify_abre (v : value) (t : list ascii) :
  json_limpio v = true -> stringify_chars v = Some t ->
  exists c t', t = c :: t' /\ abre_valor c.
Proof.
  intros Hl Hs. destruct v as [| |[]|m e|s|xs|fs]; cbn in Hs; try discriminate;
    injection Hs as <-; try (eexists _, _; split; [reflexivity|repeat split; reflexivity]).
  destruct (number_chars_head m e Hl) as (c & t' & E & [Hc|Hc]);
    exists c, t'; (split; [exact E|]).
  - apply menos_abre, Hc.
  - apply is_digit_abre, Hc.
Qed.

Lemma texto_de_limpio (v : value) :
  json_limpio v = true -> stringify_chars v = Some (texto_de v).
Proof.
  intros H. unfold texto_de. destruct v as [| |[]|m e|s|xs|fs]; try reflexivity.
  discriminate.
Qed.

Lemma skip_ws_abre (c : ascii) (tl : list ascii) :
  abre_valor c -> skip_ws (c :: tl) = c :: tl.
Proof. intros (H & _). cbn. rewrite H. reflexivity. Qed.

Lemma flat_map_miembros (fs : list (string * value)) :
  forallb (fun kx => json_limpio (snd kx)) fs = true ->
  flat_map (fun kx => match stringify_chars (snd kx) with
                      | Some t => [quote_chars (chars (fst kx)) ++ ":"%char :: t]
                      | None => []
                      end) fs
  = map miembro fs.
Proof.
  induction fs as [|[k x] fs IH]; [reflexivity|]. cbn [forallb flat_map map snd fst].
  intros H. apply andb_true_iff in H as [Hx Hfs].
  rewrite IH by exact Hfs. unfold miembro. cbn [fst snd].
  rewrite (texto_de_limpio x Hx). unfold texto_de at 1.
  rewrite (texto_de_limpio x Hx). reflexivity.
Qed.

Lemma map_texto (xs : list value) :
  map (fun x => match stringify_chars x with
                | Some t => t
                | None => chars "null"
                end) xs = map texto_de xs.
Proof. reflexivity. Qed.

(** Distinct keys are laid out as they come. *)
Lemma obj_set_fresh (k : string) (v : value) (acc : list (string * value)) :
  existsb (String.eqb k) (map fst acc) = false ->
  obj_set k v acc = acc ++ [(k, v)].
Proof.
  induction acc as [|[k' v'] acc IH]; [reflexivity|].
  cbn [map fst existsb obj_set app]. intros H.
  apply orb_false_iff in H as [Hk Hacc]. rewrite Hk, IH by exact Hacc.
  reflexivity.
Qed.

Lemma existsb_eqb_app (k : string) (l1 l2 : list string) :
  existsb (String.eqb k) (l1 ++ l2)
  = existsb (String.eqb k) l1 || existsb (String.eqb k) l2.
Proof. apply existsb_app. Qed.

Lemma fold_obj_set (fs : list (string * value)) : forall acc : list (string * value),
  claves_distintas (map fst fs) = true ->
  (forall k, existsb (String.eqb k) (map fst acc) = true ->
             existsb (String.eqb k) (map fst fs) = false) ->
  fold_left (fun a kv => obj_set (fst kv) (snd kv) a) fs acc = acc ++ fs.
Proof.
  induction fs as [|[k v] fs IH]; intros acc Hd Hacc.
  - cbn. rewrite app_nil_r. reflexivity.
  - cbn [map fst claves_distintas] in Hd.
    apply andb_true_iff in Hd as [Hk Hd]. apply negb_true_iff in Hk.
    cbn [fold_left fst snd]. rewrite obj_set_fresh.
    + rewrite IH; [rewrite <- app_assoc; reflexivity|exact Hd|].
      intros k' Hk'. rewrite map_app, existsb_app in Hk'. cbn in Hk'.
      rewrite orb_false_r in Hk'. apply orb_true_iff in Hk' as [Hin|Heq].
      * specialize (Hacc k' Hin). cbn [map fst existsb] in Hacc.
        apply orb_false_iff in Hacc as [_ Hacc]. exact Hacc.
      * apply String.eqb_eq in Heq as ->. exact Hk.
    + destruct (existsb (String.eqb k) (map fst acc)) eqn:E; [|reflexivity].
      specialize (Hacc k E). cbn [map fst existsb] in Hacc.
      rewrite String.eqb_refl in Hacc. discriminate.
Qed.

Lemma build_object_limpio (fs : list (string * value)) :
  claves_distintas (map fst fs) = true -> build_object fs = VObj fs.
Proof.
  intros H. unfold build_object. rewrite fold_obj_set; [reflexivity|exact H|].
  intros k Hk. discriminate.
Qed.

Lemma parse_value_number (f : nat) (c : ascii) (tl : list ascii) :
  (N_of_ascii c = 45%N \/ is_digit c = true) ->
  parse_value (S f) (c :: tl)
  = match parse_number (c :: tl) with
    | Some (v, r) => POk v r
    | None => PError
    end.
Proof.
  intros H.
  assert (Hn : (N_of_ascii c = 45 \/ 48 <= N_of_ascii c <= 57)%N).
  { destruct H as [H|H]; [left; exact H|right].
    unfold is_digit in H. apply andb_true_iff in H as [H1 H2].
    apply N.leb_le in H1, H2. lia. }
  cbn [parse_value].
  repeat match goal with
         | |- context [(N_of_ascii c =? ?k)%N] =>
             destruct (N.eqb_spec (N_of_ascii c) k); [lia|]
         end.
  reflexivity.
Qed.

Lemma fin_numero_cola (cierre : ascii) (parts : list (list ascii)) (rest : list ascii) :
  fin_numero [cierre] = true -> fin_numero (cola cierre parts rest) = true.
Proof. intros H. destruct parts; [exact H|reflexivity]. Qed.

Lemma length_join_comma_cons (p : list ascii) (parts : list (list ascii)) :
  (length p + length (join_comma parts) <= length (join_comma (p :: parts)))%nat.
Proof.
  destruct parts as [|q parts]; cbn [join_comma length].
  - lia.
  - rewrite length_app. cbn [length]. lia.
Qed.

Lemma length_join_comma_cons2 (p q : list ascii) (parts : list (list ascii)) :
  (length p + 1 + length (join_comma (q :: parts)) = length (join_comma (p :: q :: parts)))%nat.
Proof.
  change (join_comma (p :: q :: parts)) with (p ++ ","%char :: join_comma (q :: parts)).
  rewrite length_app. cbn [length]. lia.
Qed.

Lemma texto_de_cons (v : value) :
  json_limpio v = true -> exists c t', texto_de v = c :: t' /\ abre_valor c.
Proof.
  intros H. apply (stringify_abre v); [exact H|apply texto_de_limpio, H].
Qed.

Lemma skip_ws_keep (c : ascii) (tl : list ascii) :
  is_ws c = false -> skip_ws (c :: tl) = c :: tl.
Proof. intros H. cbn. rewrite H. reflexivity. Qed.

Lemma elems_step (f : nat) :
  ida_vuelta_valor f -> ida_vuelta_elems f -> ida_vuelta_elems (S f).
Proof.
  intros IHv IHe x xs rest Hl Hlen.
  cbn [forallb] in Hl. apply andb_true_iff in Hl as [Hx Hxs].
  cbn [map] in *. rewrite join_comma_cola.
  pose proof (length_join_comma_cons (texto_de x) (map texto_de xs)) as Hlx.
  cbn [parse_elems]. rewrite IHv; [|exact Hx|lia|apply fin_numero_cola; reflexivity].
  destruct xs as [|y ys].
  - reflexivity.
  - cbn [map cola]. rewrite skip_ws_keep by reflexivity.
    change (N_of_ascii ","%char =? 44)%N with true. cbv iota.
    destruct (texto_de_cons y) as (c & t' & Hy & Hc).
    { cbn [forallb] in Hxs. apply andb_true_iff in Hxs as [Hy _]. exact Hy. }
    pose proof (length_join_comma_cons2 (texto_de x) (texto_de y) (map texto_de ys)) as Hl2.
    destruct (texto_de_cons x Hx) as (cx & tx & Hxe & _).
    assert (Hj : exists j, join_comma (texto_de y :: map texto_de ys) ++ "]"%char :: rest = c :: j).
    { destruct (map texto_de ys); cbn [join_comma]; rewrite Hy; eexists; reflexivity. }
    destruct Hj as (j & Hj). rewrite Hj, (skip_ws_abre c j Hc), <- Hj.
    change (texto_de y :: map texto_de ys) with (map texto_de (y :: ys)).
    rewrite IHe; [reflexivity|exact Hxs|].
    assert (Hpos : (1 <= length (texto_de x))%nat) by (rewrite Hxe; cbn; lia).
    cbn [map] in *. lia.
Qed.

Lemma miembro_shape (kx : string * value) (tail : list ascii) :
  miembro kx ++ tail
  = dquote :: flat_map escape_char (chars (fst kx))
      ++ dquote :: ":"%char :: texto_de (snd kx) ++ tail.
Proof.
  unfold miembro, quote_chars. cbn [app].
  rewrite <- !app_assoc. reflexivity.
Qed.

Lemma length_miembro (kx : string * value) :
  (3 + length (texto_de (snd kx)) <= length (miembro kx))%nat.
Proof.
  unfold miembro, quote_chars. cbn [length app].
  rewrite !length_app. cbn [length]. lia.
Qed.

Lemma str_chars (s : string) : str (chars s) = s.
Proof. apply string_of_list_ascii_of_string. Qed.

Lemma chars_str (cs : list ascii) : chars (str cs) = cs.
Proof. apply list_ascii_of_string_of_list_ascii. Qed.

Lemma miembros_step (f : nat) :
  ida_vuelta_valor f -> ida_vuelta_miembros f -> ida_vuelta_miembros (S f).
Proof.
  intros IHv IHm [k x] fs rest Hl Hlen.
  cbn [forallb snd] in Hl. apply andb_true_iff in Hl as [Hx Hfs].
  cbn [map] in *. rewrite join_comma_cola, miembro_shape. cbn [fst snd].
  pose proof (length_join_comma_cons (miembro (k, x)) (map miembro fs)) as Hlx.
  pose proof (length_miembro (k, x)) as Hlm. cbn [snd] in Hlm.
  cbn [parse_members].
  change (N_of_ascii dquote =? 34)%N with true. cbv iota.
  rewrite parse_string_body_quote.
  rewrite skip_ws_keep by reflexivity.
  change (N_of_ascii ":"%char =? 58)%N with true. cbv iota.
  destruct (texto_de_cons x Hx) as (cx & tx & Hxe & Hcx).
  rewrite Hxe at 1. cbn [app]. rewrite (skip_ws_abre cx _ Hcx).
  change (cx :: tx ++ ?r) with ((cx :: tx) ++ r). rewrite <- Hxe.
  rewrite IHv; [|exact Hx|lia|apply fin_numero_cola; reflexivity].
  rewrite str_chars.
  destruct fs as [|ky fs'].
  - reflexivity.
  - cbn [map cola]. rewrite skip_ws_keep by reflexivity.
    change (N_of_ascii ","%char =? 44)%N with true. cbv iota.
    pose proof (length_join_comma_cons2 (miembro (k, x)) (miembro ky) (map miembro fs')) as Hl2.
    assert (Hj : exists j, join_comma (miembro ky :: map miembro fs') ++ "}"%char :: rest
                           = dquote :: j).
    { destruct (map miembro fs'); cbn [join_comma]; unfold miembro, quote_chars;
        cbn [app]; eexists; reflexivity. }
    destruct Hj as (j & Hj). rewrite Hj, skip_ws_keep by reflexivity. rewrite <- Hj.
    change (miembro ky :: map miembro fs') with (map miembro (ky :: fs')).
    rewrite IHm; [reflexivity|exact Hfs|].
    cbn [map] in *. lia.
Qed.

Lemma valor_step (f : nat) :
  ida_vuelta_elems f -> ida_vuelta_miembros f -> ida_vuelta_valor (S f).
Proof.
  intros IHe IHm v rest Hl Hlen Hrest.
  destruct v as [| |b|m e|s|xs|fs].
  - discriminate.
  - reflexivity.
  - destruct b; reflexivity.
  - change (texto_de (VNum m e)) with (number_chars m e).
    destruct (number_chars_head m e Hl) as (c & t' & Hc & Hhead).
    pose proof (parse_number_limpio m e rest Hl Hrest) as Hp.
    rewrite Hc in Hp |- *. cbn [app] in Hp |- *.
    rewrite parse_value_number by exact Hhead. rewrite Hp. reflexivity.
  - change (texto_de (VStr s)) with (quote_chars (chars s)).
    unfold quote_chars. cbn [app]. rewrite <- app_assoc. cbn [app].
    cbn [parse_value]. change (N_of_ascii dquote =? 123)%N with false.
    change (N_of_ascii dquote =? 91)%N with false.
    change (N_of_ascii dquote =? 34)%N with true. cbv iota.
    rewrite parse_string_body_quote, str_chars. reflexivity.
  - change (texto_de (VArr xs))
      with ("["%char :: join_comma (map texto_de xs) ++ ["]"%char]) in *.
    cbn [app length] in *. rewrite <- app_assoc. cbn [app].
    cbn [parse_value]. change (N_of_ascii "["%char =? 123)%N with false.
    change (N_of_ascii "["%char =? 91)%N with true. cbv iota.
    destruct xs as [|x xs'].
    + reflexivity.
    + cbn [json_limpio] in Hl.
      assert (Hx : json_limpio x = true).
      { cbn [forallb] in Hl. apply andb_true_iff in Hl as [Hx _]. exact Hx. }
      destruct (texto_de_cons x Hx) as (c & t' & Hxe & Hc).
      assert (Hj : exists j, join_comma (map texto_de (x :: xs')) ++ "]"%char :: rest = c :: j).
      { cbn [map]. destruct (map texto_de xs'); cbn [join_comma]; rewrite Hxe;
          eexists; reflexivity. }
      destruct Hj as (j & Hj). rewrite Hj, (skip_ws_abre c j Hc).
      destruct Hc as (_ & Hc93 & _). rewrite Hc93, <- Hj.
      rewrite IHe; [reflexivity|exact Hl|].
      rewrite length_app in Hlen. cbn [length] in Hlen. lia.
  - cbn [json_limpio] in Hl. apply andb_true_iff in Hl as [Hl Hd].
    assert (Ht : texto_de (VObj fs)
                 = "{"%char :: join_comma (map miembro fs) ++ ["}"%char]).
    { unfold texto_de. cbn [stringify_chars]. rewrite flat_map_miembros by exact Hl.
      reflexivity. }
    rewrite Ht in *. cbn [app length] in *. rewrite <- app_assoc. cbn [app].
    cbn [parse_value]. change (N_of_ascii "{"%char =? 123)%N with true. cbv iota.
    destruct fs as [|kx fs'].
    + reflexivity.
    + assert (Hj : exists j, join_comma (map miembro (kx :: fs')) ++ "}"%char :: rest
                             = dquote :: j).
      { cbn [map]. destruct (map miembro fs'); cbn [join_comma]; unfold miembro, quote_chars;
          cbn [app]; eexists; reflexivity. }
      destruct Hj as (j & Hj). rewrite Hj, skip_ws_keep by reflexivity.
      change (N_of_ascii dquote =? 125)%N with false. cbv iota. rewrite <- Hj.
      rewrite IHm; [|exact Hl|].
      * rewrite build_object_limpio by exact Hd. reflexivity.
      * rewrite length_app in Hlen. cbn [length] in Hlen. lia.
Qed.

Lemma ida_vuelta_todo (f : nat) :
  ida_vuelta_valor f /\ ida_vuelta_elems f /\ ida_vuelta_miembros f.
Proof.
  induction f as [|f (IHv & IHe & IHm)].
  - split; [|split].
    + intros v rest Hl Hlen _. destruct (texto_de_cons v Hl) as (c & t' & E & _).
      rewrite E in Hlen. cbn in Hlen. lia.
    + intros x xs rest _ Hlen. lia.
    + intros kx fs rest _ Hlen. lia.
  - split; [|split].
    + apply valor_step; assumption.
    + apply elems_step; assumption.
    + apply miembros_step; assumption.
Qed.

(** [JSON.parse(JSON.stringify(v))] is [v] for every value made of JSON
    data. *)
Theorem JSON_parse_stringify (v : value) :
  json_limpio v = true ->
  exists s, JSON_stringify v = VStr s /\ JSON_parse s = Some v.
Proof.
  intros Hl. exists (str (texto_de v)). split.
  - unfold JSON_stringify. rewrite (texto_de_limpio v Hl). reflexivity.
  - unfold JSON_parse. rewrite chars_str.
    destruct (texto_de_cons v Hl) as (c & t' & E & Hc).
    rewrite E at 2. rewrite (skip_ws_abre c t' Hc), <- E.
    destruct (ida_vuelta_todo (parse_fuel (texto_de v))) as (Hv & _).
    rewrite <- (app_nil_r (texto_de v)) at 2.
    rewrite Hv; [reflexivity|exact Hl|unfold parse_fuel; lia|reflexivity].
Qed.

(** *** The fuel of the parser *)

Lemma length_skip_ws (s : list ascii) : (length (skip_ws s) <= length s)%nat.
Proof.
  induction s as [|c s IH]; [reflexivity|]. cbn [skip_ws].
  destruct (is_ws c); cbn [length]; lia.
Qed.

Lemma parse_string_body_avanza (s : list ascii) : forall cs r,
  parse_string_body s = Some (cs, r) -> (length r < length s)%nat.
Proof.
  induction s as [s IH] using (induction_ltof1 _ (@length ascii)).
  unfold ltof in IH. intros cs r H.
  destruct s as [|c tl]; [discriminate|]. cbn [parse_string_body] in H.
  destruct (N_of_ascii c =? 34)%N.
  { injection H as _ <-. cbn. lia. }
  destruct (N_of_ascii c =? 92)%N.
  { destruct tl as [|e tl2]; [discriminate|].
    destruct (N_of_ascii e =? 117)%N.
    - destruct tl2 as [|h1 [|h2 [|h3 [|h4 tl3]]]]; try discriminate.
      destruct (hex4 h1 h2 h3 h4); [|discriminate].
      destruct (parse_string_body tl3) as [[cs' r']|] eqn:E; [|discriminate].
      injection H as _ <-. apply IH in E; cbn [length] in *; lia.
    - destruct (unescape (N_of_ascii e)); [|discriminate].
      destruct (parse_string_body tl2) as [[cs' r']|] eqn:E; [|discriminate].
      injection H as _ <-. apply IH in E; cbn [length] in *; lia. }
  destruct (N_of_ascii c <? 32)%N; [discriminate|].
  destruct (parse_string_body tl) as [[cs' r']|] eqn:E; [|discriminate].
  injection H as _ <-. apply IH in E; cbn [length] in *; lia.
Qed.

Lemma scan_digits_length (s : list ascii) : forall acc cnt v cnt' r,
  scan_digits s acc cnt = (v, cnt', r) ->
  (length r + cnt' = length s + cnt)%nat.
Proof.
  induction s as [|c s IH]; intros acc cnt v cnt' r H; cbn [scan_digits] in H.
  - injection H as _ <- <-. reflexivity.
  - destruct (is_digit c).
    + apply IH in H. cbn [length]. lia.
    + injection H as _ <- <-. reflexivity.
Qed.

Lemma parse_frac_length (s : list ascii) f nf r :
  parse_frac s = Some (f, nf, r) -> (length r <= length s)%nat.
Proof.
  destruct s as [|c tl]; cbn [parse_frac].
  - intros [= _ _ <-]. reflexivity.
  - destruct (N_of_ascii c =? 46)%N.
    + destruct (scan_digits tl 0%N 0) as [[f' nf'] r'] eqn:E.
      apply scan_digits_length in E.
      destruct nf'; [discriminate|]. intros [= _ _ <-]. cbn [length]. lia.
    + intros [= _ _ <-]. reflexivity.
Qed.

Lemma parse_exp_length (s : list ascii) x r :
  parse_exp s = Some (x, r) -> (length r <= length s)%nat.
Proof.
  destruct s as [|c tl]; cbn [parse_exp].
  - intros [= _ <-]. reflexivity.
  - destruct (_ || _).
    + assert (Htl : forall neg tl',
                 (length tl' <= length tl)%nat ->
                 (let '(x0, nx, r0) := scan_digits tl' 0%N 0 in
                  match nx with
                  | O => None
                  | S _ => Some ((if neg : bool then - Z.of_N x0 else Z.of_N x0)%Z, r0)
                  end) = Some (x, r) -> (length r <= length (c :: tl))%nat).
      { intros neg tl' Hle. destruct (scan_digits tl' 0%N 0) as [[x0 nx] r0] eqn:E.
        apply scan_digits_length in E. destruct nx; [discriminate|].
        intros [= _ <-]. cbn [length]. lia. }
      destruct tl as [|d tl2].
      * apply (Htl false []). reflexivity.
      * destruct (N_of_ascii d =? 45)%N; [apply (Htl true tl2); cbn; lia|].
        destruct (N_of_ascii d =? 43)%N; [apply (Htl false tl2); cbn; lia|].
        apply (Htl false (d :: tl2)). reflexivity.
    + intros [= _ <-]. reflexivity.
Qed.

Lemma parse_number_avanza (s : list ascii) v r :
  parse_number s = Some (v, r) -> (length r < length s)%nat.
Proof.
  unfold parse_number.
  assert (Hgen : forall neg s1,
             (length s1 <= length s)%nat ->
             (let '(i, ni, s2) := scan_digits s1 0%N 0 in
              match ni with
              | O => None
              | S ni' =>
                  if starts_with_zero s1 && negb (Nat.eqb ni' 0) then None
                  else
                    match parse_frac s2 with
                    | None => None
                    | Some (f, nf, s3) =>
                        match parse_exp s3 with
                        | None => None
                        | Some (x, s4) =>
                            Some (make_num neg (i * 10 ^ N.of_nat nf + f)%N nf x, s4)
                        end
                    end
              end) = Some (v, r) -> (length r < length s)%nat).
  { intros neg s1 Hle. destruct (scan_digits s1 0%N 0) as [[i ni] s2] eqn:E.
    apply scan_digits_length in E. destruct ni as [|ni']; [discriminate|].
    destruct (_ && _); [discriminate|].
    destruct (parse_frac s2) as [[[f nf] s3]|] eqn:Ef; [|discriminate].
    apply parse_frac_length in Ef.
    destruct (parse_exp s3) as [[x s4]|] eqn:Ex; [|discriminate].
    apply parse_exp_length in Ex. intros [= _ <-]. lia. }
  destruct s as [|c tl].
  - apply (Hgen false []). reflexivity.
  - destruct (N_of_ascii c =? 45)%N.
    + apply (Hgen true tl). cbn; lia.
    + apply (Hgen false (c :: tl)). reflexivity.
Qed.

Lemma strip_prefix_length (p : list ascii) : forall s r,
  strip_prefix p s = Some r -> (length r + length p = length s)%nat.
Proof.
  induction p as [|a p IH]; intros s r H; cbn [strip_prefix] in H.
  - injection H as <-. cbn. lia.
  - destruct s as [|b s]; [discriminate|]. destruct (Ascii.eqb a b); [|discriminate].
    apply IH in H. cbn [length]. lia.
Qed.

Lemma combustible_valor_step (f : nat) :
  combustible_elems f -> combustible_miembros f -> combustible_valor (S f).
Proof.
  intros IHe IHm s Hf. destruct s as [|c tl]; [exact I|].
  cbn [length] in Hf. cbn [parse_value].
  pose proof (length_skip_ws tl) as Hws.
  destruct (N_of_ascii c =? 123)%N.
  { destruct (skip_ws tl) as [|d tl'] eqn:E; [exact I|].
    destruct (N_of_ascii d =? 125)%N; [cbn [avanza length] in *; lia|].
    assert (H : avanza (d :: tl') (parse_members f (d :: tl')))
      by (apply IHm; cbn [length] in *; lia).
    destruct (parse_members f (d :: tl')); cbn [avanza length] in *;
      [lia|exact I|exact H]. }
  destruct (N_of_ascii c =? 91)%N.
  { destruct (skip_ws tl) as [|d tl'] eqn:E; [exact I|].
    destruct (N_of_ascii d =? 93)%N; [cbn [avanza length] in *; lia|].
    assert (H : avanza (d :: tl') (parse_elems f (d :: tl')))
      by (apply IHe; cbn [length] in *; lia).
    destruct (parse_elems f (d :: tl')); cbn [avanza length] in *;
      [lia|exact I|exact H]. }
  destruct (N_of_ascii c =? 34)%N.
  { destruct (parse_string_body tl) as [[cs r]|] eqn:E; [|exact I].
    apply parse_string_body_avanza in E. cbn [avanza length]. lia. }
  destruct (N_of_ascii c =? 116)%N.
  { destruct (strip_prefix _ _) as [r|] eqn:E; [|exact I].
    apply strip_prefix_length in E. cbn [avanza length] in *. cbn in E. lia. }
  destruct (N_of_ascii c =? 102)%N.
  { destruct (strip_prefix _ _) as [r|] eqn:E; [|exact I].
    apply strip_prefix_length in E. cbn [avanza length] in *. cbn in E. lia. }
  destruct (N_of_ascii c =? 110)%N.
  { destruct (strip_prefix _ _) as [r|] eqn:E; [|exact I].
    apply strip_prefix_length in E. cbn [avanza length] in *. cbn in E. lia. }
  destruct (parse_number (c :: tl)) as [[v r]|] eqn:E; [|exact I].
  apply parse_number_avanza in E. exact E.
Qed.

Lemma combustible_elems_step (f : nat) :
  combustible_valor f -> combustible_elems f -> combustible_elems (S f).
Proof.
  intros IHv IHe s Hf. cbn [parse_elems].
  assert (Hr : avanza s (parse_value f s)) by (apply IHv; lia).
  destruct (parse_value f s) as [v r| |]; cbn [avanza] in Hr;
    [|exact I|exact Hr].
  pose proof (length_skip_ws r) as Hws.
  destruct (skip_ws r) as [|c r'] eqn:E; [exact I|]. cbn [length] in Hws.
  destruct (N_of_ascii c =? 44)%N.
  - pose proof (length_skip_ws r') as Hws'.
    assert (H : avanza (skip_ws r') (parse_elems f (skip_ws r')))
      by (apply IHe; lia).
    destruct (parse_elems f (skip_ws r')); cbn [avanza] in *;
      [lia|exact I|exact H].
  - destruct (N_of_ascii c =? 93)%N; [cbn [avanza]; lia|exact I].
Qed.

Lemma combustible_miembros_step (f : nat) :
  combustible_valor f -> combustible_miembros f -> combustible_miembros (S f).
Proof.
  intros IHv IHm s Hf. cbn [parse_members].
  destruct s as [|q tl]; [exact I|]. cbn [length] in Hf.
  destruct (N_of_ascii q =? 34)%N; [|exact I].
  destruct (parse_string_body tl) as [[k r]|] eqn:Ek; [|exact I].
  apply parse_string_body_avanza in Ek.
  pose proof (length_skip_ws r) as Hws.
  destruct (skip_ws r) as [|c r1] eqn:E; [exact I|]. cbn [length] in Hws.
  destruct (N_of_ascii c =? 58)%N; [|exact I].
  pose proof (length_skip_ws r1) as Hws1.
  assert (Hr2 : avanza (skip_ws r1) (parse_value f (skip_ws r1)))
    by (apply IHv; lia).
  destruct (parse_value f (skip_ws r1)) as [v r2| |]; cbn [avanza] in Hr2;
    [|exact I|exact Hr2].
  pose proof (length_skip_ws r2) as Hws2.
  destruct (skip_ws r2) as [|d r3] eqn:E2; [exact I|]. cbn [length] in Hws2.
  destruct (N_of_ascii d =? 44)%N.
  - pose proof (length_skip_ws r3) as Hws3.
    assert (H : avanza (skip_ws r3) (parse_members f (skip_ws r3)))
      by (apply IHm; lia).
    destruct (parse_members f (skip_ws r3)); cbn [avanza length] in *;
      [lia|exact I|exact H].
  - destruct (N_of_ascii d =? 125)%N; [cbn [avanza length]; lia|exact I].
Qed.

Lemma combustible_todo (f : nat) :
  combustible_valor f /\ combustible_elems f /\ combustible_miembros f.
Proof.
  induction f as [|f (IHv & IHe & IHm)].
  - repeat split; intros s H; lia.
  - split; [|split].
    + apply combustible_valor_step; assumption.
    + apply combustible_elems_step; assumption.
    + apply combustible_miembros_step; assumption.
Qed.

(** [JSON_parse] never fails for want of fuel: where it answers [None], the
    text is not JSON. *)
Theorem JSON_parse_combustible (s : string) :
  parse_value (parse_fuel (chars s)) (skip_ws (chars s)) <> PFuel.
Proof.
  destruct (combustible_todo (parse_fuel (chars s))) as (Hv & _).
  specialize (Hv (skip_ws (chars s))).
  pose proof (length_skip_ws (chars s)).
  intros E. rewrite E in Hv. apply Hv. unfold parse_fuel. lia.
Qed.

(** *** What the parser returns is JSON data *)















(* ===================================================================== *)
(** ** The session functions, run *)
(* ===================================================================== *)

Lemma truthy_js_and_str (t s : string) :
  t <> "" -> s <> "" -> truthy (js_and (VStr t) (VStr s)) = true.
Proof.
  intros Ht Hs. unfold js_and. cbn [truthy].
  destruct (String.eqb_spec t ""); [contradiction|]. cbn [negb truthy].
  destruct (String.eqb_spec s ""); [contradiction|]. reflexivity.
Qed.

Lemma leer_Some (k s : string) (w : World) :
  localStorage w !! k = Some s -> leer k w = VStr s.
Proof. intros H. unfold leer. rewrite H. reflexivity. Qed.

Lemma ToString_VStr (s : string) : ToString (VStr s) = s.
Proof. apply str_chars. Qed.

(** The guard of [cargarSesionGuardada] passes exactly when both keys hold
    a non-empty string. *)
Lemma guarda_verdadera (w : World) :
  truthy (js_and (leer "token" w) (leer "user" w)) = true <->
  exists t s, localStorage w !! "token" = Some t /\ t <> ""
              /\ localStorage w !! "user" = Some s /\ s <> "".
Proof.
  unfold leer, js_and. split.
  - intros H.
    destruct (localStorage w !! "token") as [t|]; [|discriminate H].
    cbn [truthy] in H.
    destruct (String.eqb_spec t "") as [E|Ht]; cbn [negb truthy] in H;
      [rewrite E in H; discriminate H|].
    destruct (localStorage w !! "user") as [s|]; [|discriminate H].
    cbn [truthy] in H.
    destruct (String.eqb_spec s "") as [E|Hs]; [discriminate H|].
    exists t, s. auto.
  - intros (t & s & -> & Ht & -> & Hs). apply truthy_js_and_str; assumption.
Qed.

(** What [guardarSesion] leaves: both fields and both keys written, then
    the log line, or the throw of [usuario.nombre]. *)
Lemma guardarSesion_run (tok usr : value) (w : World) :
  guardarSesion tok usr w
  = let w' := {| estado := {| usuario := usr; token := tok;
                              carrito := carrito (estado w) |};
                 localStorage := <["user" := ToString (JSON_stringify usr)]>
                                   (<["token" := ToString tok]> (localStorage w));
                 documento := documento w;
                 consola := consola w;
                 alertas := alertas w |} in
    match get_prop usr "nombre" with
    | Val n => (Val tt, con_consola (ConsoleLog [VStr "💾 Sesión guardada para:"; n]) w')
    | Throw e => (Throw e, w')
    end.
Proof.
  abrir_mundo w. unfold guardarSesion, con_consola. desplegar.
  destruct (get_prop usr "nombre"); reflexivity.
Qed.

Lemma guardarSesion_escribe (tok usr : value) (w : World) :
  token (estado (snd (guardarSesion tok usr w))) = tok
  /\ usuario (estado (snd (guardarSesion tok usr w))) = usr
  /\ localStorage (snd (guardarSesion tok usr w))
     = <["user" := ToString (JSON_stringify usr)]>
         (<["token" := ToString tok]> (localStorage w)).
Proof.
  rewrite guardarSesion_run. cbv zeta.
  destruct (get_prop usr "nombre"); repeat split.
Qed.

Section Sesion.

Variable cargarCarrito : M unit.
Variable cargarProductosTienda : M unit.

Local Abbreviation mostrarInterfaz :=
  (mostrarInterfaz cargarCarrito cargarProductosTienda).
Local Abbreviation cerrarSesion :=
  (cerrarSesion cargarCarrito cargarProductosTienda).
Local Abbreviation cargarSesionGuardada :=
  (cargarSesionGuardada cargarCarrito cargarProductosTienda).

(** With no user, [mostrarInterfaz] only redraws: the two functions it
    would call for a logged-in user are not reached. *)
Lemma mostrarInterfaz_anonimo (w : World) :
  truthy (usuario (estado w)) = false ->
  exists d, mostrarInterfaz w = (Val tt, con_documento d w).
Proof.
  intros H. abrir_mundo w.
  cbn [estado usuario] in H. unfold Script.mostrarInterfaz, con_documento.
  desplegar. rewrite H. cbn [negb].
  repeat match goal with
         | |- context [bool_decide ?P] => destruct (bool_decide P)
         end; eexists; reflexivity.
Qed.

Lemma cerrarSesion_run (w : World) :
  exists d, cerrarSesion w = (Val tt, mundo_cerrado d w).
Proof.
  abrir_mundo w. unfold Script.cerrarSesion.
  match goal with
  | |- context [Script.mostrarInterfaz ?a ?b] => set (mi := Script.mostrarInterfaz a b)
  end.
  desplegar.
  match goal with
  | |- context [mi ?w'] =>
      destruct (mostrarInterfaz_anonimo w' eq_refl) as (d & Hd);
      fold mi in Hd; rewrite Hd
  end.
  exists d. reflexivity.
Qed.

Lemma cerrarSesion_estado (w : World) :
  estado (snd (cerrarSesion w)) = estado_inicial
  /\ localStorage (snd (cerrarSesion w))
     = delete "carrito" (delete "user" (delete "token" (localStorage w)))
  /\ fst (cerrarSesion w) = Val tt
  /\ alertas (snd (cerrarSesion w)) = alertas w.
Proof.
  destruct (cerrarSesion_run w) as (d & ->). repeat split.
Qed.

(** [cargarSesionGuardada], branch by branch. *)
Lemma cargarSesionGuardada_run (w : World) :
  cargarSesionGuardada w
  = let tg := leer "token" w in
    let ug := leer "user" w in
    if truthy (js_and tg ug) then
      match JSON_parse (ToString ug) with
      | Some u =>
          match get_prop u "nombre" with
          | Val n =>
              (Val tt, con_consola (ConsoleLog [VStr "👤 Sesión restaurada:"; n])
                         (con_sesion tg u w))
          | Throw e =>
              cerrarSesion
                (con_consola (ConsoleError "❌ Sesión corrupta, limpiando..." e)
                   (con_sesion tg u w))
          end
      | None =>
          cerrarSesion
            (con_consola (ConsoleError "❌ Sesión corrupta, limpiando..."
                            (SyntaxError "Unexpected token in JSON"))
               (con_sesion tg (usuario (estado w)) w))
      end
    else (Val tt, w).
Proof.
  abrir_mundo w. unfold Script.cargarSesionGuardada, leer, con_consola, con_sesion.
  desplegar.
  destruct (truthy _); [|reflexivity].
  destruct (JSON_parse _) as [v|]; [|reflexivity].
  desplegar. destruct (get_prop v "nombre"); reflexivity.
Qed.

Lemma cargarSesionGuardada_sin_datos (w : World) :
  truthy (leer "token" w) = false \/ truthy (leer "user" w) = false ->
  cargarSesionGuardada w = (Val tt, w).
Proof.
  intros H. rewrite cargarSesionGuardada_run. cbv zeta.
  assert (Hg : truthy (js_and (leer "token" w) (leer "user" w)) = false).
  { unfold js_and. destruct (truthy (leer "token" w)) eqn:E.
    - destruct H as [H|H]; [discriminate|exact H].
    - exact E. }
  rewrite Hg. reflexivity.
Qed.

Lemma cargarSesionGuardada_claves (w : World) :
  localStorage (snd (cargarSesionGuardada w)) = localStorage w
  \/ localStorage (snd (cargarSesionGuardada w))
     = delete "carrito" (delete "user" (delete "token" (localStorage w))).
Proof.
  rewrite cargarSesionGuardada_run. cbv zeta.
  destruct (truthy (js_and _ _)); [|left; reflexivity].
  destruct (JSON_parse _) as [u|].
  - destruct (get_prop u "nombre"); [left; reflexivity|right].
    cerrar cerrarSesion_run. reflexivity.
  - right. cerrar cerrarSesion_run. reflexivity.
Qed.

(** Claim C1, amended.  After [cerrarSesion] token and user are both
    absent.  After [guardarSesion] called with a truthy token and a truthy
    user both are present.  [cargarSesionGuardada] keeps "both present or
    both absent" when it held before and the persisted user text, where it
    parses, parses to [null] or to a truthy value (a number other than 0
    with at most 300 decimal places, so that it does not round to 0).  For
    every store in which the token key or the user key is missing or
    empty, [cargarSesionGuardada] leaves the in-memory session as it
    was. *)
Theorem sesion_sin_parciales :
  (forall w : World,
      token (estado (snd (cerrarSesion w))) = VNull
      /\ usuario (estado (snd (cerrarSesion w))) = VNull)
  /\ (forall (tok usr : value) (w : World),
        truthy tok = true -> truthy usr = true ->
        sesion_coherente (estado (snd (guardarSesion tok usr w))))
  /\ (forall w : World,
        sesion_coherente (estado w) -> usuario_persistido_sano w = true ->
        sesion_coherente (estado (snd (cargarSesionGuardada w))))
  /\ (forall w : World,
        truthy (leer "token" w) = false \/ truthy (leer "user" w) = false ->
        estado (snd (cargarSesionGuardada w)) = estado w).
Proof.
  split; [|split; [|split]].
  - intros w. destruct (cerrarSesion_estado w) as (-> & _). split; reflexivity.
  - intros tok usr w Ht Hu.
    destruct (guardarSesion_escribe tok usr w) as (Ht' & Hu' & _).
    unfold sesion_coherente. rewrite Ht', Hu', Ht, Hu. reflexivity.
  - intros w Hw Hsano. rewrite cargarSesionGuardada_run. cbv zeta.
    destruct (truthy (js_and _ _)) eqn:Hg; [|exact Hw].
    apply guarda_verdadera in Hg as (t & s & Ht & Htne & Hs & Hsne).
    rewrite (leer_Some _ _ _ Hs), (leer_Some _ _ _ Ht), ToString_VStr.
    unfold usuario_persistido_sano in Hsano. rewrite Hs in Hsano.
    destruct (JSON_parse s) as [u|].
    + assert (Hu : u = VNull \/ u = VUndefined \/ truthy u = true).
      { destruct u; auto.
        apply andb_true_iff in Hsano as [Hsano _]. auto. }
      clear Hsano.
      destruct u; cbn [get_prop];
        try (cerrar cerrarSesion_run; reflexivity);
        (destruct Hu as [Hu|[Hu|Hu]]; [discriminate Hu|discriminate Hu|]);
        unfold sesion_coherente;
        cbn [snd con_consola con_sesion estado token usuario];
        rewrite Hu; cbn [truthy];
        (destruct (String.eqb_spec t ""); [contradiction|reflexivity]).
    + cerrar cerrarSesion_run. reflexivity.
  - intros w H. rewrite cargarSesionGuardada_sin_datos by exact H. reflexivity.
Qed.

(** Claim C3, amended.  For every store whose token key holds a non-empty
    string and whose user key holds a non-empty string that is not valid
    JSON, [cargarSesionGuardada] returns without throwing and without an
    alert, leaves token and user [null] and the cart empty, and removes the
    keys [token], [user] and [carrito]. *)
Theorem sesion_corrupta_se_limpia (w : World) (t s : string) :
  localStorage w !! "token" = Some t -> t <> "" ->
  localStorage w !! "user" = Some s -> s <> "" ->
  JSON_parse s = None ->
  let r := cargarSesionGuardada w in
  fst r = Val tt
  /\ token (estado (snd r)) = VNull
  /\ usuario (estado (snd r)) = VNull
  /\ carrito (estado (snd r)) = {| items := []; total := 0 |}
  /\ localStorage (snd r) !! "token" = None
  /\ localStorage (snd r) !! "user" = None
  /\ localStorage (snd r) !! "carrito" = None
  /\ alertas (snd r) = alertas w.
Proof.
  intros Ht Htne Hs Hsne Hparse. cbv zeta.
  rewrite cargarSesionGuardada_run. cbv zeta.
  assert (Hg : truthy (js_and (leer "token" w) (leer "user" w)) = true).
  { apply guarda_verdadera. eauto 10. }
  rewrite Hg, (leer_Some _ _ _ Hs), ToString_VStr, Hparse.
  cerrar cerrarSesion_run.
  cbn [fst snd mundo_cerrado estado localStorage token usuario carrito alertas
       con_consola con_sesion].
  repeat split.
  - rewrite lookup_delete_ne, lookup_delete_ne by discriminate.
    apply lookup_delete_eq.
  - rewrite lookup_delete_ne by discriminate. apply lookup_delete_eq.
  - apply lookup_delete_eq.
Qed.

(** Claim C6, amended.  The session functions address the keys [token],
    [user] and [carrito]: [guardarSesion] writes [token] and [user],
    [cerrarSesion] removes [token], [user] and [carrito],
    [cargarSesionGuardada] leaves the store as it is or as [cerrarSesion]
    leaves it, and none of them changes any other key. *)
Theorem claves_de_localStorage (tok usr : value) (w : World) :
  localStorage (snd (guardarSesion tok usr w))
  = <["user" := ToString (JSON_stringify usr)]>
      (<["token" := ToString tok]> (localStorage w))
  /\ localStorage (snd (cerrarSesion w))
     = delete "carrito" (delete "user" (delete "token" (localStorage w)))
  /\ (localStorage (snd (cargarSesionGuardada w)) = localStorage w
      \/ localStorage (snd (cargarSesionGuardada w))
         = delete "carrito" (delete "user" (delete "token" (localStorage w))))
  /\ (forall k : string,
        ~ In k claves_persistidas ->
        localStorage (snd (guardarSesion tok usr w)) !! k = localStorage w !! k
        /\ localStorage (snd (cerrarSesion w)) !! k = localStorage w !! k
        /\ localStorage (snd (cargarSesionGuardada w)) !! k = localStorage w !! k).
Proof.
  destruct (guardarSesion_escribe tok usr w) as (_ & _ & Hg).
  destruct (cerrarSesion_estado w) as (_ & Hc & _).
  pose proof (cargarSesionGuardada_claves w) as Hr.
  split; [exact Hg|]. split; [exact Hc|]. split; [exact Hr|].
  intros k Hk.
  assert (Hk1 : "token" <> k) by (intros <-; apply Hk; cbn; auto).
  assert (Hk2 : "user" <> k) by (intros <-; apply Hk; cbn; auto).
  assert (Hk3 : "carrito" <> k) by (intros <-; apply Hk; cbn; auto).
  assert (Hd : delete "carrito" (delete "user" (delete "token" (localStorage w))) !! k
               = localStorage w !! k).
  { rewrite !lookup_delete_ne by assumption. reflexivity. }
  rewrite Hg, Hc. split; [|split].
  - rewrite !lookup_insert_ne by assumption. reflexivity.
  - exact Hd.
  - destruct Hr as [-> | ->]; [reflexivity|exact Hd].
Qed.

(** Every [{id, nombre, email}] is JSON data. *)
Lemma usuario_valido_limpio (id : Z) (nombre email : string) :
  json_limpio (usuario_valido id nombre email) = true.
Proof. reflexivity. Qed.

(** Claim C2.  For every non-empty token and every user object made of
    JSON data (by [usuario_valido_limpio] every [{id, nombre, email}], by
    [propiedad_de_json_limpia] every user received in a response body),
    [guardarSesion] followed by [cargarSesionGuardada] on a freshly loaded
    page over the same store returns normally and restores the same token
    and the same user. *)
Theorem guardar_y_restaurar (tok : string) (campos : list (string * value))
    (w : World) (d : Dom) :
  tok <> "" -> json_limpio (VObj campos) = true ->
  let guardado := snd (guardarSesion (VStr tok) (VObj campos) w) in
  let fresco := {| estado := estado_inicial;
                   localStorage := localStorage guardado;
                   documento := d; consola := []; alertas := [] |} in
  let r := cargarSesionGuardada fresco in
  fst r = Val tt
  /\ token (estado (snd r)) = VStr tok
  /\ usuario (estado (snd r)) = VObj campos.
Proof.
  intros Htok Hl. cbv zeta.
  destruct (JSON_parse_stringify (VObj campos) Hl) as (s & Hs & Hp).
  assert (Hsne : s <> "") by (intros ->; discriminate Hp).
  destruct (guardarSesion_escribe (VStr tok) (VObj campos) w) as (_ & _ & ->).
  rewrite Hs, !ToString_VStr.
  rewrite cargarSesionGuardada_run. cbv zeta.
  set (fresco := {| estado := estado_inicial;
                    localStorage := <["user" := s]> (<["token" := tok]> (localStorage w));
                    documento := d; consola := []; alertas := [] |}).
  assert (Hu : leer "user" fresco = VStr s).
  { apply leer_Some. cbn [fresco localStorage]. apply lookup_insert_eq. }
  assert (Ht : leer "token" fresco = VStr tok).
  { apply leer_Some. cbn [fresco localStorage].
    rewrite lookup_insert_ne by discriminate. apply lookup_insert_eq. }
  rewrite Hu, Ht, (truthy_js_and_str tok s Htok Hsne), ToString_VStr, Hp.
  cbn [get_prop]. repeat split.
Qed.

End Sesion.

(** Claim C8.  For every pair of arguments, whatever their type,
    [guardarSesion] overwrites the in-memory token and user with them and
    writes both keys: [token] holds the token as a string, [user] holds
    [JSON.stringify] of the user.  It tests nothing first; when the user is
    [null] or [undefined] the log line throws after the writes are made. *)
Theorem guardarSesion_sin_comprobaciones (tok usr : value) (w : World) :
  let w' := snd (guardarSesion tok usr w) in
  token (estado w') = tok
  /\ usuario (estado w') = usr
  /\ localStorage w'
     = <["user" := ToString (JSON_stringify usr)]>
         (<["token" := ToString tok]> (localStorage w))
  /\ localStorage w' !! "token" = Some (ToString tok)
  /\ localStorage w' !! "user" = Some (ToString (JSON_stringify usr))
  /\ (fst (guardarSesion tok usr w) = Val tt
      \/ (exists e, fst (guardarSesion tok usr w) = Throw e)
         /\ (usr = VNull \/ usr = VUndefined)).
Proof.
  cbv zeta. destruct (guardarSesion_escribe tok usr w) as (Ht & Hu & Hls).
  rewrite Ht, Hu, Hls. repeat split.
  - rewrite lookup_insert_ne by discriminate. apply lookup_insert_eq.
  - apply lookup_insert_eq.
  - rewrite guardarSesion_run. cbv zeta.
    destruct usr; cbn [get_prop fst]; eauto.
Qed.

(** Claim C1 as stated fails: restoring from a store whose user key holds
    the text [0] leaves a token without a user, and so does saving a
    [null] user. *)
Lemma sesion_parcial_posible :
  let w1 := snd (cargarSesionGuardada sin_efecto sin_efecto
                   (mundo_nuevo (<["token" := "abc"]> (<["user" := "0"]> ∅)))) in
  let w2 := snd (guardarSesion (VStr "abc") VNull (mundo_nuevo ∅)) in
  (token (estado w1) = VStr "abc" /\ usuario (estado w1) = VInt 0
   /\ ~ sesion_coherente (estado w1))
  /\ (token (estado w2) = VStr "abc" /\ usuario (estado w2) = VNull
      /\ ~ sesion_coherente (estado w2)).
Proof. vm_compute. repeat split; discriminate. Qed.

(** The hypotheses of [sesion_sin_parciales] hold: for Ana's session saved,
    for a store with an empty user object, and for a store without user. *)
Lemma sesion_sin_parciales_witness :
  sesion_coherente (estado (snd (guardarSesion (VStr "abc") ana (mundo_nuevo ∅))))
  /\ sesion_coherente
       (estado (snd (cargarSesionGuardada sin_efecto sin_efecto
                       (mundo_nuevo (<["token" := "abc"]>
                                       (<["user" := "{}"]> ∅))))))
  /\ estado (snd (cargarSesionGuardada sin_efecto sin_efecto
                    (mundo_nuevo (<["token" := "abc"]> ∅))))
     = estado_inicial.
Proof.
  destruct (sesion_sin_parciales sin_efecto sin_efecto) as (_ & H2 & H3 & H4).
  split; [apply H2; reflexivity|]. split; [apply H3; reflexivity|].
  apply (H4 (mundo_nuevo (<["token" := "abc"]> ∅))). right. reflexivity.
Defined.

(** [guardar_y_restaurar] at the token [abc] and the user
    [{id: 1, nombre: Ana, email: a@x.com}]. *)
Lemma guardar_y_restaurar_witness :
  let guardado := snd (guardarSesion (VStr "abc") ana (mundo_nuevo ∅)) in
  let r := cargarSesionGuardada sin_efecto sin_efecto
             (mundo_nuevo (localStorage guardado)) in
  fst r = Val tt
  /\ token (estado (snd r)) = VStr "abc"
  /\ usuario (estado (snd r)) = ana.
Proof.
  apply (guardar_y_restaurar sin_efecto sin_efecto "abc"
           [("id", VInt 1); ("nombre", VStr "Ana"); ("email", VStr "a@x.com")]
           (mundo_nuevo ∅) {| elementos := ∅; nav := NavPagina |});
    [discriminate|apply (usuario_valido_limpio 1 "Ana" "a@x.com")].
Defined.

(** Claim C3 as stated fails: the empty string is not valid JSON, yet with
    it under the user key the restore does nothing and the keys stay; the
    same with an empty token beside a user text that is not JSON. *)
Lemma usuario_vacio_no_se_limpia :
  let w := mundo_nuevo (<["token" := "abc"]> (<["user" := ""]> ∅)) in
  let w' := mundo_nuevo (<["token" := ""]> (<["user" := "{mal"]> ∅)) in
  (localStorage w !! "token" = Some "abc"
   /\ localStorage w !! "user" = Some ""
   /\ JSON_parse "" = None
   /\ localStorage (snd (cargarSesionGuardada sin_efecto sin_efecto w)) !! "token"
      = Some "abc"
   /\ localStorage (snd (cargarSesionGuardada sin_efecto sin_efecto w)) !! "user"
      = Some "")
  /\ (localStorage w' !! "token" = Some ""
      /\ localStorage w' !! "user" = Some "{mal"
      /\ JSON_parse "{mal" = None
      /\ localStorage (snd (cargarSesionGuardada sin_efecto sin_efecto w')) !! "token"
         = Some ""
      /\ localStorage (snd (cargarSesionGuardada sin_efecto sin_efecto w')) !! "user"
         = Some "{mal").
Proof. vm_compute. repeat split. Qed.

(** [sesion_corrupta_se_limpia] at a store whose user text is cut short. *)
Lemma sesion_corrupta_se_limpia_witness :
  let w := mundo_nuevo (<["token" := "abc"]> (<["user" := "{mal"]>
                          (<["carrito" := "[]"]> ∅))) in
  let r := cargarSesionGuardada sin_efecto sin_efecto w in
  fst r = Val tt
  /\ token (estado (snd r)) = VNull
  /\ usuario (estado (snd r)) = VNull
  /\ carrito (estado (snd r)) = {| items := []; total := 0 |}
  /\ localStorage (snd r) !! "token" = None
  /\ localStorage (snd r) !! "user" = None
  /\ localStorage (snd r) !! "carrito" = None
  /\ alertas (snd r) = alertas w.
Proof.
  apply (sesion_corrupta_se_limpia sin_efecto sin_efecto _ "abc" "{mal");
    [reflexivity|discriminate|reflexivity|discriminate|reflexivity].
Defined.

(** Claim C6 as stated fails: the cart key of the script is [carrito];
    [cerrarSesion] removes it and leaves a key named [cart] alone. *)
Lemma la_clave_cart_no_se_toca :
  let w := mundo_nuevo (<["cart" := "[]"]> (<["carrito" := "[]"]> ∅)) in
  let w' := snd (cerrarSesion sin_efecto sin_efecto w) in
  localStorage w' !! "cart" = Some "[]"
  /\ localStorage w !! "carrito" = Some "[]"
  /\ localStorage w' !! "carrito" = None.
Proof. vm_compute. repeat split. Qed.

(** [claves_de_localStorage] at a store that also holds a key of another
    script: it is left alone. *)
Lemma claves_de_localStorage_witness :
  let w := mundo_nuevo (<["idioma" := "es"]> (<["carrito" := "[]"]> ∅)) in
  localStorage (snd (guardarSesion (VStr "abc") ana w)) !! "idioma" = Some "es"
  /\ localStorage (snd (cerrarSesion sin_efecto sin_efecto w)) !! "idioma" = Some "es"
  /\ localStorage (snd (cargarSesionGuardada sin_efecto sin_efecto w)) !! "idioma"
     = Some "es".
Proof.
  destruct (claves_de_localStorage sin_efecto sin_efecto (VStr "abc") ana
              (mundo_nuevo (<["idioma" := "es"]> (<["carrito" := "[]"]> ∅))))
    as (_ & _ & _ & H).
  apply (H "idioma"). cbn.
  intros [E|[E|[E|[]]]]; discriminate E.
Defined.

(* ===================================================================== *)
(** ** Login and registration *)
(* ===================================================================== *)

Section Auth.

Variable cargarCarrito : M unit.
Variable cargarProductosTienda : M unit.
Variable fetch : string -> Peticion -> Res Respuesta.

Local Abbreviation iniciarSesion :=
  (iniciarSesion cargarCarrito cargarProductosTienda fetch).
Local Abbreviation registrarUsuario :=
  (registrarUsuario cargarCarrito cargarProductosTienda fetch).

(** A response outside 200..299 whose body is JSON: the [else] branch. *)
Lemma iniciarSesion_rechazado (email password : value) (w : World)
    (r : Respuesta) (datos m : value) :
  fetch (URL_API +++ "/auth/login") (peticion_login email password) = Val r ->
  ok r = false ->
  JSON_parse (texto r) = Some datos ->
  get_prop datos "message" = Val m ->
  iniciarSesion email password w
  = (Val tt,
     con_alerta (ToString (js_or m (VStr "Error al iniciar sesión")))
       (con_consola (ConsoleLog [VStr "📥 Respuesta login:"; VInt (status r); datos]) w)).
Proof.
  intros Hf Hok Hp Hm. abrir_mundo w.
  unfold Script.iniciarSesion, peticion_login, con_alerta, con_consola in *.
  desplegar. rewrite Hf, ToString_VStr, Hp. desplegar. rewrite Hok, Hm.
  reflexivity.
Qed.

(** A body that is not JSON: [respuesta.json()] rejects, the [catch] runs. *)
Lemma iniciarSesion_no_json (email password : value) (w : World) (r : Respuesta) :
  fetch (URL_API +++ "/auth/login") (peticion_login email password) = Val r ->
  JSON_parse (texto r) = None ->
  iniciarSesion email password w
  = (Val tt,
     con_alerta "No se pudo conectar con el servidor"
       (con_consola (ConsoleError "❌ Error login:"
                       (SyntaxError "Unexpected token in JSON")) w)).
Proof.
  intros Hf Hp. abrir_mundo w.
  unfold Script.iniciarSesion, peticion_login, con_alerta, con_consola in *.
  desplegar. rewrite Hf, ToString_VStr, Hp. reflexivity.
Qed.

Lemma registrarUsuario_no_json (nombre email password : value) (w : World)
    (r : Respuesta) :
  fetch (URL_API +++ "/auth/register") (peticion_registro nombre email password) = Val r ->
  JSON_parse (texto r) = None ->
  registrarUsuario nombre email password w
  = (Val tt,
     con_alerta "No se pudo conectar con el servidor"
       (con_consola (ConsoleError "❌ Error registro:"
                       (SyntaxError "Unexpected token in JSON")) w)).
Proof.
  intros Hf Hp. abrir_mundo w.
  unfold Script.registrarUsuario, peticion_registro, con_alerta, con_consola in *.
  desplegar. rewrite Hf, ToString_VStr, Hp. reflexivity.
Qed.

(** Claim C4, amended.  For every login attempt answered with a status
    outside 200..299 and a JSON object as body whose [message] is missing,
    [null], a boolean, a string or an integer below 2^53 in magnitude, the
    client alerts the [message] when it is truthy (a non-empty string, as
    text) and the generic "Error al iniciar sesión" when it is missing or
    falsy (the empty string, [null], [0], [false]); the in-memory state and
    the persisted store are left as they were. *)
Theorem login_rechazado_muestra_mensaje (email password : value) (w : World)
    (r : Respuesta) (campos : list (string * value)) :
  fetch (URL_API +++ "/auth/login") (peticion_login email password) = Val r ->
  ok r = false ->
  JSON_parse (texto r) = Some (VObj campos) ->
  let m := match assoc "message" campos with
           | Some x => x
           | None => VUndefined
           end in
  escalar_exacto m = true ->
  let r' := iniciarSesion email password w in
  fst r' = Val tt
  /\ estado (snd r') = estado w
  /\ localStorage (snd r') = localStorage w
  /\ alertas (snd r')
     = (if truthy m then ToString m else "Error al iniciar sesión") :: alertas w.
Proof.
  intros Hf Hok Hp m _. cbv zeta.
  rewrite (iniciarSesion_rechazado email password w r (VObj campos) _ Hf Hok Hp eq_refl).
  cbn [fst snd con_alerta con_consola estado localStorage alertas].
  repeat split. unfold js_or. destruct (truthy _); reflexivity.
Qed.

(** Claim C9.  For every login and every register attempt whose response
    body is not JSON, whatever the status, the client alerts "No se pudo
    conectar con el servidor" and leaves the in-memory state and the
    persisted store as they were. *)
Theorem respuesta_no_json_es_error_de_conexion
    (nombre email password : value) (w : World) :
  (forall r : Respuesta,
      fetch (URL_API +++ "/auth/login") (peticion_login email password) = Val r ->
      JSON_parse (texto r) = None ->
      let r' := iniciarSesion email password w in
      fst r' = Val tt
      /\ alertas (snd r') = "No se pudo conectar con el servidor" :: alertas w
      /\ estado (snd r') = estado w
      /\ localStorage (snd r') = localStorage w)
  /\ (forall r : Respuesta,
      fetch (URL_API +++ "/auth/register")
        (peticion_registro nombre email password) = Val r ->
      JSON_parse (texto r) = None ->
      let r' := registrarUsuario nombre email password w in
      fst r' = Val tt
      /\ alertas (snd r') = "No se pudo conectar con el servidor" :: alertas w
      /\ estado (snd r') = estado w
      /\ localStorage (snd r') = localStorage w).
Proof.
  split; intros r Hf Hp; cbv zeta.
  - rewrite (iniciarSesion_no_json email password w r Hf Hp). repeat split.
  - rewrite (registrarUsuario_no_json nombre email password w r Hf Hp). repeat split.
Qed.

End Auth.

(** Claim C4 as stated fails: a 401 whose body carries the message [""]
    is answered with the generic text, not with that message. *)
Lemma mensaje_vacio_muestra_el_generico :
  let red := red_fija 401 (cuerpo_mensaje "") in
  let r' := iniciarSesion sin_efecto sin_efecto red (VStr "ana@x.com") (VStr "clave")
              (mundo_nuevo ∅) in
  JSON_parse (cuerpo_mensaje "") = Some (VObj [("message", VStr "")])
  /\ alertas (snd r') = ["Error al iniciar sesión"]
  /\ alertas (snd r') <> [""].
Proof. vm_compute. repeat split. discriminate. Qed.

(** [login_rechazado_muestra_mensaje] at a 401 with the message
    [bad credentials]. *)
Lemma login_rechazado_muestra_mensaje_witness :
  let red := red_fija 401 (cuerpo_mensaje "bad credentials") in
  let w := mundo_nuevo ∅ in
  let r' := iniciarSesion sin_efecto sin_efecto red (VStr "ana@x.com") (VStr "clave") w in
  fst r' = Val tt
  /\ estado (snd r') = estado w
  /\ localStorage (snd r') = localStorage w
  /\ alertas (snd r') = ["bad credentials"].
Proof.
  apply (login_rechazado_muestra_mensaje sin_efecto sin_efecto
           (red_fija 401 (cuerpo_mensaje "bad credentials"))
           (VStr "ana@x.com") (VStr "clave") (mundo_nuevo ∅)
           {| status := 401; texto := cuerpo_mensaje "bad credentials" |}
           [("message", VStr "bad credentials")]);
    reflexivity.
Defined.

(** [respuesta_no_json_es_error_de_conexion] at a 200 whose body is an
    HTML page. *)
Lemma respuesta_no_json_es_error_de_conexion_witness :
  let red := red_fija 200 "<html>" in
  let w := mundo_nuevo ∅ in
  (let r' := iniciarSesion sin_efecto sin_efecto red (VStr "ana@x.com") (VStr "clave") w in
   fst r' = Val tt
   /\ alertas (snd r') = ["No se pudo conectar con el servidor"]
   /\ estado (snd r') = estado w
   /\ localStorage (snd r') = localStorage w)
  /\ (let r' := registrarUsuario sin_efecto sin_efecto red (VStr "Ana")
                  (VStr "ana@x.com") (VStr "clave") w in
      fst r' = Val tt
      /\ alertas (snd r') = ["No se pudo conectar con el servidor"]
      /\ estado (snd r') = estado w
      /\ localStorage (snd r') = localStorage w).
Proof.
  destruct (respuesta_no_json_es_error_de_conexion sin_efecto sin_efecto
              (red_fija 200 "<html>") (VStr "Ana") (VStr "ana@x.com") (VStr "clave")
              (mundo_nuevo ∅)) as (H1 & H2).
  split.
  - apply (H1 {| status := 200; texto := "<html>" |}); reflexivity.
  - apply (H2 {| status := 200; texto := "<html>" |}); reflexivity.
Defined.

(* ===================================================================== *)
(** ** Cart, image listing, customer creation *)
(* ===================================================================== *)

(** *** The cart *)

Lemma fusionar_ausente (it : Item) (q : Z) (ls : list Linea) :
  ~ In (itemId it) (ids ls) -> map (fusionar it q) ls = ls.
Proof.
  induction ls as [|l ls IH]; [reflexivity|]. cbn [ids map In]. intros Hni.
  unfold fusionar at 1. destruct (Z.eqb_spec (item_id l) (itemId it)) as [E|E].
  - tauto.
  - f_equal. apply IH. tauto.
Qed.

Lemma agregar_presente (it : Item) (q : Z) (ls : list Linea) :
  In (itemId it) (ids ls) -> List.NoDup (ids ls) ->
  agregar it q ls = map (fusionar it q) ls.
Proof.
  induction ls as [|l ls IH]; [contradiction|].
  cbn [ids map agregar]. intros Hin Hnd. inversion Hnd as [|? ? Hni Hnd']; subst.
  unfold fusionar at 1. destruct (Z.eqb_spec (item_id l) (itemId it)) as [E|E].
  - f_equal. symmetry. apply fusionar_ausente. rewrite <- E. exact Hni.
  - f_equal. apply IH; [|exact Hnd']. destruct Hin as [Hin|Hin]; [contradiction|exact Hin].
Qed.

Lemma agregar_ausente (it : Item) (q : Z) (ls : list Linea) :
  ~ In (itemId it) (ids ls) -> agregar it q ls = ls ++ [linea_nueva it q].
Proof.
  induction ls as [|l ls IH]; [reflexivity|].
  cbn [ids map agregar In app]. intros Hni.
  destruct (Z.eqb_spec (item_id l) (itemId it)) as [E|E]; [tauto|].
  f_equal. apply IH. tauto.
Qed.

Lemma ids_fusionar (it : Item) (q : Z) (ls : list Linea) :
  ids (map (fusionar it q) ls) = ids ls.
Proof.
  unfold ids. rewrite map_map. apply map_ext. intros l. unfold fusionar.
  destruct (item_id l =? itemId it)%Z; reflexivity.
Qed.

Lemma agregar_sin_duplicados (it : Item) (q : Z) (ls : list Linea) :
  List.NoDup (ids ls) -> List.NoDup (ids (agregar it q ls)).
Proof.
  intros Hnd. destruct (in_dec Z.eq_dec (itemId it) (ids ls)) as [Hin|Hni].
  - rewrite agregar_presente, ids_fusionar by assumption. exact Hnd.
  - rewrite agregar_ausente by assumption. unfold ids. rewrite map_app. cbn [map].
    apply List.NoDup_app; [exact Hnd|constructor; [intros []|constructor]|].
    intros x Hx [<-|[]]. apply Hni. exact Hx.
Qed.

Lemma quitar_sin_duplicados (id : Z) (ls : list Linea) :
  List.NoDup (ids ls) -> List.NoDup (ids (List.filter (fun l => negb (item_id l =? id)%Z) ls)).
Proof.
  induction ls as [|l ls IH]; [trivial|]. cbn [ids map List.filter].
  intros Hnd. inversion Hnd as [|? ? Hni Hnd']; subst.
  destruct (negb _); [|apply IH; exact Hnd'].
  cbn [ids map]. constructor; [|apply IH; exact Hnd'].
  intros Hin. apply Hni. unfold ids in *. apply in_map_iff in Hin as (l' & El & Hl').
  apply filter_In in Hl' as [Hl' _]. apply in_map_iff. eauto.
Qed.

Lemma aplicar_ok (c : Carrito) (o : Op) : carrito_ok c -> carrito_ok (aplicar c o).
Proof.
  intros [_ Hnd]. destruct o as [it q|id]; cbn [aplicar]; unfold addItem, removeItem;
    split; cbn [total items]; try reflexivity.
  - apply agregar_sin_duplicados, Hnd.
  - apply quitar_sin_duplicados, Hnd.
Qed.

Lemma ejecutar_ok (ops : list Op) : forall c : Carrito,
  carrito_ok c -> carrito_ok (ejecutar ops c).
Proof.
  unfold ejecutar. induction ops as [|o ops IH]; intros c Hc; [exact Hc|].
  cbn [fold_left]. apply IH, aplicar_ok, Hc.
Qed.

Lemma carrito_vacio_ok : carrito_ok carrito_vacio.
Proof. split; [reflexivity|constructor]. Qed.

(** Claim C5.  After every sequence of [addItem] and [removeItem] calls,
    from the empty cart or from any cart that satisfies the invariant, the
    cart's total is the sum of price times quantity over its lines and no id
    occurs twice.  [addItem] of an id already in the cart keeps the lines
    and adds the quantity to that line; of a new id, it appends a line.
    Adding [{itemId:1, name:"X", unitPrice:10}] with quantity 2 and again
    with quantity 3 gives one line of quantity 5 and total 50. *)
Theorem carrito_total_y_fusion :
  (forall (ops : list Op) (c : Carrito),
      carrito_ok c ->
      total (ejecutar ops c) = suma (items (ejecutar ops c))
      /\ List.NoDup (ids (items (ejecutar ops c))))
  /\ (forall ops : list Op,
        total (ejecutar ops carrito_vacio)
        = suma (items (ejecutar ops carrito_vacio)))
  /\ (forall (it : Item) (q : Z) (c : Carrito),
        List.NoDup (ids (items c)) -> In (itemId it) (ids (items c)) ->
        items (addItem it q c) = map (fusionar it q) (items c)
        /\ length (items (addItem it q c)) = length (items c))
  /\ (forall (it : Item) (q : Z) (c : Carrito),
        ~ In (itemId it) (ids (items c)) ->
        items (addItem it q c) = items c ++ [linea_nueva it q])
  /\ ejecutar [OpAdd producto_x 2; OpAdd producto_x 3] carrito_vacio
     = {| items := [ {| item_id := 1; item_nombre := "X"; precio := 10;
                        cantidad := 5 |} ];
          total := 50 |}.
Proof.
  split; [|split; [|split; [|split]]].
  - intros ops c Hc. apply (ejecutar_ok ops c Hc).
  - intros ops. apply (ejecutar_ok ops carrito_vacio carrito_vacio_ok).
  - intros it q c Hnd Hin. unfold addItem. cbn [items].
    rewrite agregar_presente by assumption. split; [reflexivity|apply length_map].
  - intros it q c Hni. unfold addItem. cbn [items]. apply agregar_ausente, Hni.
  - reflexivity.
Qed.

(** [carrito_total_y_fusion] at a cart that holds the item X. *)
Lemma carrito_total_y_fusion_witness :
  let c := addItem producto_x 2 carrito_vacio in
  total (ejecutar [OpAdd producto_x 3; OpRemove 7] c) = 50%Z
  /\ items (addItem producto_x 3 c) = map (fusionar producto_x 3) (items c)
  /\ items (addItem producto_x 2 carrito_vacio) = [linea_nueva producto_x 2].
Proof.
  destruct carrito_total_y_fusion as (H1 & _ & H3 & H4 & _).
  split; [|split].
  - apply (H1 [OpAdd producto_x 3; OpRemove 7] (addItem producto_x 2 carrito_vacio)).
    split; [reflexivity|]. repeat constructor. intros [].
  - apply (H3 producto_x 3%Z (addItem producto_x 2 carrito_vacio)).
    + repeat constructor. intros [].
    + left. reflexivity.
  - apply (H4 producto_x 2%Z carrito_vacio). intros [].
Defined.

(** *** The image listing *)

Section Catalogo.

Variable collation_leb : value -> value -> bool.

Lemma insertar_ordenado_Forall (P : Fila -> Prop) (c : string) (f : Fila) (fs : list Fila) :
  P f -> Forall P fs -> Forall P (insertar_ordenado collation_leb c f fs).
Proof.
  intros Hf. induction 1 as [|g fs Hg Hfs IH]; cbn [insertar_ordenado].
  - constructor; [exact Hf|constructor].
  - destruct (collation_leb _ _).
    + constructor; [exact Hf|constructor; assumption].
    + constructor; assumption.
Qed.

Lemma ordenar_Forall (P : Fila -> Prop) (c : string) (fs : list Fila) :
  Forall P fs -> Forall P (ordenar collation_leb c fs).
Proof.
  induction 1 as [|f fs Hf Hfs IH]; cbn [ordenar fold_right]; [constructor|].
  apply insertar_ordenado_Forall; assumption.
Qed.

Lemma sql_eq_uno (v : value) : sql_eq v (VInt 1) = true -> v = VInt 1.
Proof.
  destruct v as [| |b|m e|s|xs|fs]; cbn [sql_eq VInt]; try discriminate.
  intros H. apply andb_true_iff in H as [Hm He].
  apply Z.eqb_eq in Hm. apply Nat.eqb_eq in He. subst. reflexivity.
Qed.

Lemma obtenerImagenes_activas (db : Db) (imgs : list value) :
  obtenerImagenes collation_leb db = Val imgs ->
  Forall (fun img => get_prop img "activo" = Val (VInt 1)) imgs.
Proof.
  unfold obtenerImagenes, pool_query_select.
  destruct (negb (conectada db)); [discriminate|].
  destruct (find _ _) as [[c donde]|]; [discriminate|]. intros [= <-].
  apply List.Forall_map.
  apply List.Forall_impl with (P := fun f => campo f "activo" = VInt 1).
  - intros f Hf. cbn. rewrite Hf. reflexivity.
  - apply ordenar_Forall. apply List.Forall_forall. intros f Hin.
    apply List.filter_In in Hin as [_ Hf]. apply sql_eq_uno. exact Hf.
Qed.

(** Claim C7.  Whenever the query of [obtenerImagenes] succeeds, the
    listing answers 200 with the body [{success: true, message, data}],
    [data] being the rows of the query, and every row has [activo = 1]. *)
Theorem listado_de_imagenes (db : Db) (imgs : list value) :
  obtenerImagenes collation_leb db = Val imgs ->
  getImagenes collation_leb db
  = {| codigo := 200;
       json := VObj [("success", VBool true);
                     ("message",
                      VStr ("Se encontraron "
                            +++ ToString (VInt (Z.of_nat (length imgs)))
                            +++ " imagenes"));
                     ("data", VArr imgs)] |}
  /\ Forall (fun img => get_prop img "activo" = Val (VInt 1)) imgs.
Proof.
  intros H. split.
  - unfold getImagenes. rewrite H. reflexivity.
  - apply (obtenerImagenes_activas db imgs H).
Qed.

(** The statement orders by [nombre], a column the table of initdb.js does
    not have: on that table the query is rejected and the listing answers
    500. *)
Lemma esquema_de_initdb_sin_nombre (db : Db) :
  conectada db = true -> columnas (imagenes db) = columnas_imagenes ->
  obtenerImagenes collation_leb db
  = Throw (DbError "Unknown column 'nombre' in 'order clause'")
  /\ codigo (getImagenes collation_leb db) = 500%Z.
Proof.
  intros Hc Hcols. unfold getImagenes, obtenerImagenes, pool_query_select, tiene_columna.
  rewrite Hc, Hcols. split; reflexivity.
Qed.
End Catalogo.

(** [listado_de_imagenes] at a table of four images, two of them active. *)
Lemma listado_de_imagenes_witness :
  let imgs := map (proyectar (sel_columnas consulta_imagenes))
                [fila_imagen 1 "playa" (VInt 1); fila_imagen 4 "montaña" (VInt 1)] in
  getImagenes orden_cualquiera db_ejemplo
  = {| codigo := 200;
       json := VObj [("success", VBool true);
                     ("message", VStr "Se encontraron 2 imagenes");
                     ("data", VArr imgs)] |}
  /\ Forall (fun img => get_prop img "activo" = Val (VInt 1)) imgs.
Proof.
  apply (listado_de_imagenes orden_cualquiera db_ejemplo
           (map (proyectar (sel_columnas consulta_imagenes))
              [fila_imagen 1 "playa" (VInt 1); fila_imagen 4 "montaña" (VInt 1)])).
  reflexivity.
Defined.

(** Claim C10.  Whatever [crearCliente] returns is an object with exactly
    the properties [insertId], [id], [nombre] and [email], in that order:
    [id] equals [insertId], [nombre] and [email] are the argument's, and
    there is no property [password]. *)
Theorem crearCliente_devuelve_cuatro_campos (arg r : value) (db db' : Db) :
  crearCliente arg db = (Val r, db') ->
  claves r = ["insertId"; "id"; "nombre"; "email"]
  /\ ~ In "password" (claves r)
  /\ get_prop r "password" = Val VUndefined
  /\ get_prop r "id" = get_prop r "insertId"
  /\ get_prop r "nombre" = get_prop arg "nombre"
  /\ get_prop r "email" = get_prop arg "email".
Proof.
  unfold crearCliente.
  destruct (get_prop arg "nombre") as [n|e];
    [|destruct (get_prop arg "email"), (get_prop arg "password"); discriminate].
  destruct (get_prop arg "email") as [m|e]; [|destruct (get_prop arg "password"); discriminate].
  destruct (get_prop arg "password") as [p|e]; [|discriminate].
  destruct (pool_query_insert_cliente db n m p) as [[result|e] db2]; [|discriminate].
  destruct (get_prop result "insertId") as [i|e]; [|discriminate].
  intros [= <- _]. cbn. repeat split.
  intros [H|[H|[H|[H|[]]]]]; discriminate H.
Qed.

(** [crearCliente_devuelve_cuatro_campos] at Ana's registration on an
    empty table. *)
Lemma crearCliente_devuelve_cuatro_campos_witness :
  let r := VObj [("insertId", VInt 1); ("id", VInt 1);
                 ("nombre", VStr "Ana"); ("email", VStr "a@x.com")] in
  fst (crearCliente alta_ana db_ejemplo) = Val r
  /\ claves r = ["insertId"; "id"; "nombre"; "email"]
  /\ ~ In "password" (claves r)
  /\ get_prop r "password" = Val VUndefined
  /\ get_prop r "id" = get_prop r "insertId"
  /\ get_prop r "nombre" = get_prop alta_ana "nombre"
  /\ get_prop r "email" = get_prop alta_ana "email".
Proof.
  split; [reflexivity|].
  apply (crearCliente_devuelve_cuatro_campos alta_ana _ db_ejemplo
           (snd (crearCliente alta_ana db_ejemplo))).
  reflexivity.
Defined.

(* ===================================================================== *)
(** ** Views, accepted logins, form links, listing order, customers *)
(* ===================================================================== *)

(** *** What [mostrarInterfaz] draws *)

Lemma lookup_alternar (id : string) (force : bool) (els : gmap string bool) (i : string) :
  alternar id force els !! i
  = match els !! i with
    | Some b => Some (if String.eqb i id then force else b)
    | None => None
    end.
Proof.
  unfold alternar. destruct (String.eqb_spec i id) as [->|Hne].
  - destruct (els !! id) as [b|] eqn:E.
    + rewrite bool_decide_eq_true_2 by eauto. apply lookup_insert_eq.
    + rewrite bool_decide_eq_false_2 by (intros [x Hx]; discriminate Hx). exact E.
  - destruct (bool_decide _).
    + rewrite lookup_insert_ne by congruence. destruct (els !! i); reflexivity.
    + destruct (els !! i); reflexivity.
Qed.

Lemma existe_alternar (id : string) (force : bool) (els : gmap string bool) (i : string) :
  bool_decide (is_Some (alternar id force els !! i)) = bool_decide (is_Some (els !! i)).
Proof.
  rewrite lookup_alternar. destruct (els !! i); reflexivity.
Qed.

Lemma alternar_eq (id : string) (force : bool) (els : gmap string bool) :
  alternar id force els
  = if bool_decide (is_Some (els !! id)) then <[id := force]> els else els.
Proof. reflexivity. Qed.

Lemma hay_None (els : gmap string bool) (i : string) :
  els !! i = None -> bool_decide (is_Some (els !! i)) = false.
Proof. intros ->. reflexivity. Qed.

Lemma nombre_de_truthy (u : value) :
  truthy u = true -> exists n, get_prop u "nombre" = Val n.
Proof.
  destruct u; cbn [truthy get_prop]; try discriminate; eauto.
Qed.

Section Vista.

Variable cargarCarrito : M unit.
Variable cargarProductosTienda : M unit.

Local Abbreviation mostrarInterfaz :=
  (mostrarInterfaz cargarCarrito cargarProductosTienda).
Local Abbreviation cerrarSesion :=
  (cerrarSesion cargarCarrito cargarProductosTienda).
Local Abbreviation cargarSesionGuardada :=
  (cargarSesionGuardada cargarCarrito cargarProductosTienda).

Lemma mostrarInterfaz_vista (w : World) :
  truthy (usuario (estado w)) = false
  \/ elementos (documento w) !! "tiendaSection" = None ->
  mostrarInterfaz w = (Val tt, con_documento (vista (usuario (estado w)) (documento w)) w).
Proof.
  intros H. abrir_mundo w. cbn [estado usuario documento elementos] in H.
  unfold Script.mostrarInterfaz, con_documento, vista, nav_de.
  rewrite (alternar_eq "tiendaSection"), !existe_alternar,
    (alternar_eq "productosMostrar"), !existe_alternar, (alternar_eq "authSection").
  desplegar.
  destruct (truthy u) eqn:Hu.
  - destruct H as [H|H]; [discriminate H|].
    rewrite (hay_None _ _ H).
    destruct (nombre_de_truthy u Hu) as (nm & Hn).
    repeat match goal with
           | |- context [bool_decide ?P] => destruct (bool_decide P)
           end; cbn [negb]; rewrite ?Hn; reflexivity.
  - cbn [negb].
    repeat match goal with
           | |- context [bool_decide ?P] => destruct (bool_decide P)
           end; reflexivity.
Qed.

Lemma cerrarSesion_vista (w : World) :
  cerrarSesion w = (Val tt, mundo_cerrado (vista VNull (documento w)) w).
Proof.
  abrir_mundo w. unfold Script.cerrarSesion.
  match goal with
  | |- context [Script.mostrarInterfaz ?a ?b] => set (mi := Script.mostrarInterfaz a b)
  end.
  desplegar.
  match goal with
  | |- context [mi ?w'] =>
      pose proof (mostrarInterfaz_vista w' (or_introl eq_refl)) as Hd;
      fold mi in Hd; rewrite Hd
  end.
  reflexivity.
Qed.

Lemma lookup_vista (u : value) (d : Dom) (i : string) :
  elementos (vista u d) !! i
  = match elementos d !! i with
    | Some b => Some (oculto_tras_vista (truthy u) i b)
    | None => None
    end.
Proof.
  unfold vista, oculto_tras_vista. cbn [elementos].
  rewrite !lookup_alternar. destruct (elementos d !! i); reflexivity.
Qed.

Lemma vista_vista (u : value) (d : Dom) : vista u (vista u d) = vista u d.
Proof.
  assert (He : elementos (vista u (vista u d)) = elementos (vista u d)).
  { apply map_eq. intros i. rewrite !lookup_vista.
    destruct (elementos d !! i) as [b|]; [|reflexivity].
    unfold oculto_tras_vista.
    destruct (String.eqb i "tiendaSection"); [reflexivity|].
    destruct (String.eqb i "productosMostrar"); [reflexivity|].
    destruct (String.eqb i "authSection"); reflexivity. }
  assert (Hn : nav (vista u (vista u d)) = nav (vista u d)).
  { unfold vista at 1. cbn [nav]. rewrite lookup_vista.
    unfold vista. cbn [nav elementos].
    destruct (elementos d !! "authNav"); reflexivity. }
  destruct (vista u (vista u d)), (vista u d). cbn in He, Hn. subst. reflexivity.
Qed.

(** Property X1.  Logging out twice is logging out once: a second [cerrarSesion]
    returns normally and leaves the in-memory state, the persisted store,
    the document and the alerts as the first one left them. *)
Theorem cerrarSesion_idempotente (w : World) :
  let w1 := snd (cerrarSesion w) in
  let r2 := cerrarSesion w1 in
  fst r2 = Val tt
  /\ estado (snd r2) = estado w1
  /\ localStorage (snd r2) = localStorage w1
  /\ documento (snd r2) = documento w1
  /\ alertas (snd r2) = alertas w1.
Proof.
  cbv zeta. rewrite !cerrarSesion_vista.
  cbn [fst snd mundo_cerrado estado localStorage documento alertas].
  repeat split.
  - apply map_eq. intros i.
    destruct (decide (i = "carrito")) as [->|H1];
      [|destruct (decide (i = "user")) as [->|H2];
        [|destruct (decide (i = "token")) as [->|H3]]];
      repeat first [rewrite lookup_delete_eq
                   |rewrite lookup_delete_ne by congruence];
      reflexivity.
  - apply vista_vista.
Qed.

(** Property X2.  Where the two undefined functions are not reached
    (nobody is logged in, or the page has no [tiendaSection]) and the
    markup written into [authNav] holds no name with markup in it (nobody
    is logged in, or the page has no [authNav], or the user's name is a
    string without [<] and [&]), [mostrarInterfaz] returns normally and changes the
    document only: [authSection] and [productosMostrar], where the page
    has them, are hidden exactly when a user is logged in, [tiendaSection]
    exactly when none is; [authNav], where the page has it, shows the
    user's name or the invitation to log in; and on a page without
    [authNav] no element appears or disappears and every other element
    keeps its class list. *)
Theorem mostrarInterfaz_dibuja (w : World) :
  truthy (usuario (estado w)) = false
  \/ elementos (documento w) !! "tiendaSection" = None ->
  truthy (usuario (estado w)) = false
  \/ elementos (documento w) !! "authNav" = None
  \/ (exists s, get_prop (usuario (estado w)) "nombre" = Val (VStr s)
                 /\ sin_marcado s = true) ->
  let r := mostrarInterfaz w in
  let d := documento (snd r) in
  let logueado := truthy (usuario (estado w)) in
  fst r = Val tt
  /\ snd r = con_documento d w
  /\ (forall id : string,
        In id ["authSection"; "productosMostrar"; "tiendaSection"] ->
        elementos d !! id
        = match elementos (documento w) !! id with
          | Some b => Some (oculto_tras_vista logueado id b)
          | None => None
          end)
  /\ nav d = match elementos (documento w) !! "authNav" with
             | Some _ => nav_de (usuario (estado w))
             | None => nav (documento w)
             end
  /\ (logueado = true ->
      exists n, get_prop (usuario (estado w)) "nombre" = Val n
                /\ nav_de (usuario (estado w)) = NavUsuario (ToString n))
  /\ (elementos (documento w) !! "authNav" = None ->
      forall id : string,
        elementos d !! id
        = match elementos (documento w) !! id with
          | Some b => Some (oculto_tras_vista logueado id b)
          | None => None
          end).
Proof.
  intros H _. cbv zeta. rewrite (mostrarInterfaz_vista w H).
  cbn [fst snd con_documento documento]. repeat split.
  - intros id _. apply lookup_vista.
  - unfold vista. cbn [nav]. destruct (elementos (documento w) !! "authNav"); reflexivity.
  - intros Hu. destruct (nombre_de_truthy _ Hu) as (n & Hn). exists n.
    split; [exact Hn|]. unfold nav_de. rewrite Hu, Hn. reflexivity.
  - intros _ id. apply lookup_vista.
Qed.

End Vista.

(** *** Login and registration, branch by branch *)

Lemma try_catch_vuelve (body : M unit) (h : JsError -> M unit) (w : World) :
  (forall e w', fst (h e w') = Val tt) -> fst (try_catch body h w) = Val tt.
Proof.
  intros H. unfold try_catch. destruct (body w) as [[[]|e] w']; [reflexivity|apply H].
Qed.

Section Acceso.

Variable cargarCarrito : M unit.
Variable cargarProductosTienda : M unit.
Variable fetch : string -> Peticion -> Res Respuesta.

Local Abbreviation mostrarInterfaz :=
  (mostrarInterfaz cargarCarrito cargarProductosTienda).
Local Abbreviation cerrarSesion :=
  (cerrarSesion cargarCarrito cargarProductosTienda).
Local Abbreviation cargarSesionGuardada :=
  (cargarSesionGuardada cargarCarrito cargarProductosTienda).
Local Abbreviation iniciarSesion :=
  (iniciarSesion cargarCarrito cargarProductosTienda fetch).
Local Abbreviation registrarUsuario :=
  (registrarUsuario cargarCarrito cargarProductosTienda fetch).

(** Property X3.  Whatever the two undefined functions and the network do,
    [cerrarSesion], [cargarSesionGuardada], [iniciarSesion] and
    [registrarUsuario] return normally: every throw inside them is caught.
    [cargarSesionGuardada] and [cerrarSesion] show no alert. *)
Theorem las_funciones_de_sesion_vuelven (nombre email password : value) (w : World) :
  fst (cerrarSesion w) = Val tt
  /\ alertas (snd (cerrarSesion w)) = alertas w
  /\ fst (cargarSesionGuardada w) = Val tt
  /\ alertas (snd (cargarSesionGuardada w)) = alertas w
  /\ fst (iniciarSesion email password w) = Val tt
  /\ fst (registrarUsuario nombre email password w) = Val tt.
Proof.
  assert (Hc : forall w', fst (cerrarSesion w') = Val tt
                          /\ alertas (snd (cerrarSesion w')) = alertas w').
  { intros w'. rewrite cerrarSesion_vista. split; reflexivity. }
  split; [apply Hc|]. split; [apply Hc|].
  assert (Hr : fst (cargarSesionGuardada w) = Val tt
               /\ alertas (snd (cargarSesionGuardada w)) = alertas w).
  { rewrite cargarSesionGuardada_run. cbv zeta.
    destruct (truthy (js_and _ _)); [|split; reflexivity].
    destruct (JSON_parse _) as [u|].
    - destruct (get_prop u "nombre"); [split; reflexivity|].
      match goal with |- context [Script.cerrarSesion _ _ ?w'] =>
        destruct (Hc w') as (-> & ->) end.
      split; reflexivity.
    - match goal with |- context [Script.cerrarSesion _ _ ?w'] =>
        destruct (Hc w') as (-> & ->) end.
      split; reflexivity. }
  split; [apply Hr|]. split; [apply Hr|]. split.
  - unfold Script.iniciarSesion. apply try_catch_vuelve. reflexivity.
  - unfold Script.registrarUsuario. apply try_catch_vuelve. reflexivity.
Qed.

(** [fetch] rejects: the [catch] runs on the world as it was. *)
Lemma iniciarSesion_sin_red (email password : value) (w : World) (e : JsError) :
  fetch (URL_API +++ "/auth/login") (peticion_login email password) = Throw e ->
  iniciarSesion email password w
  = (Val tt,
     con_alerta "No se pudo conectar con el servidor"
       (con_consola (ConsoleError "❌ Error login:" e) w)).
Proof.
  intros Hf. abrir_mundo w.
  unfold Script.iniciarSesion, peticion_login, con_alerta, con_consola in *.
  desplegar. rewrite Hf. reflexivity.
Qed.

Lemma registrarUsuario_sin_red (nombre email password : value) (w : World) (e : JsError) :
  fetch (URL_API +++ "/auth/register") (peticion_registro nombre email password) = Throw e ->
  registrarUsuario nombre email password w
  = (Val tt,
     con_alerta "No se pudo conectar con el servidor"
       (con_consola (ConsoleError "❌ Error registro:" e) w)).
Proof.
  intros Hf. abrir_mundo w.
  unfold Script.registrarUsuario, peticion_registro, con_alerta, con_consola in *.
  desplegar. rewrite Hf. reflexivity.
Qed.

(** Property X4.  When [fetch] rejects (no network, server down), login and
    registration alert "No se pudo conectar con el servidor", log the
    error, and leave the in-memory state, the store and the document as
    they were. *)
Theorem sin_red_es_error_de_conexion (nombre email password : value) (w : World)
    (e : JsError) :
  (fetch (URL_API +++ "/auth/login") (peticion_login email password) = Throw e ->
   let r' := iniciarSesion email password w in
   fst r' = Val tt
   /\ alertas (snd r') = "No se pudo conectar con el servidor" :: alertas w
   /\ consola (snd r') = ConsoleError "❌ Error login:" e :: consola w
   /\ estado (snd r') = estado w
   /\ localStorage (snd r') = localStorage w
   /\ documento (snd r') = documento w)
  /\ (fetch (URL_API +++ "/auth/register")
        (peticion_registro nombre email password) = Throw e ->
      let r' := registrarUsuario nombre email password w in
      fst r' = Val tt
      /\ alertas (snd r') = "No se pudo conectar con el servidor" :: alertas w
      /\ consola (snd r') = ConsoleError "❌ Error registro:" e :: consola w
      /\ estado (snd r') = estado w
      /\ localStorage (snd r') = localStorage w
      /\ documento (snd r') = documento w).
Proof.
  split; intros Hf; cbv zeta.
  - rewrite (iniciarSesion_sin_red email password w e Hf). repeat split.
  - rewrite (registrarUsuario_sin_red nombre email password w e Hf). repeat split.
Qed.

(** Property X5.  A response whose body is the JSON text [null], whatever its
    status: reading [token] or [message] of it throws, so login and
    registration alert "No se pudo conectar con el servidor" and leave the
    in-memory state and the store as they were. *)
Theorem cuerpo_null_es_error_de_conexion (nombre email password : value) (w : World)
    (r : Respuesta) :
  JSON_parse (texto r) = Some VNull ->
  (fetch (URL_API +++ "/auth/login") (peticion_login email password) = Val r ->
   let r' := iniciarSesion email password w in
   fst r' = Val tt
   /\ alertas (snd r') = "No se pudo conectar con el servidor" :: alertas w
   /\ estado (snd r') = estado w
   /\ localStorage (snd r') = localStorage w)
  /\ (fetch (URL_API +++ "/auth/register")
        (peticion_registro nombre email password) = Val r ->
      let r' := registrarUsuario nombre email password w in
      fst r' = Val tt
      /\ alertas (snd r') = "No se pudo conectar con el servidor" :: alertas w
      /\ estado (snd r') = estado w
      /\ localStorage (snd r') = localStorage w).
Proof.
  intros Hp. split; intros Hf; cbv zeta; abrir_mundo w.
  - unfold Script.iniciarSesion, peticion_login in *.
    desplegar. rewrite Hf, ToString_VStr, Hp. desplegar.
    destruct (ok r); repeat split.
  - unfold Script.registrarUsuario, peticion_registro in *.
    desplegar. rewrite Hf, ToString_VStr, Hp. desplegar.
    destruct (ok r); repeat split.
Qed.

(** A response in 200..299 whose body is JSON with readable [token] and
    [usuario]: the [if] branch, statement by statement. *)
Lemma iniciarSesion_aceptado (email password : value) (w : World)
    (r : Respuesta) (datos t u : value) :
  fetch (URL_API +++ "/auth/login") (peticion_login email password) = Val r ->
  ok r = true ->
  JSON_parse (texto r) = Some datos ->
  get_prop datos "token" = Val t ->
  get_prop datos "usuario" = Val u ->
  iniciarSesion email password w
  = match guardarSesion t u
            (con_consola (ConsoleLog [VStr "📥 Respuesta login:"; VInt (status r); datos]) w) with
    | (Val _, w1) =>
        match mostrarInterfaz w1 with
        | (Val _, w2) =>
            match get_prop u "nombre" with
            | Val n => (Val tt, con_alerta ("Bienvenido, " +++ ToString n) w2)
            | Throw e =>
                (Val tt, con_alerta "No se pudo conectar con el servidor"
                           (con_consola (ConsoleError "❌ Error login:" e) w2))
            end
        | (Throw e, w2) =>
            (Val tt, con_alerta "No se pudo conectar con el servidor"
                       (con_consola (ConsoleError "❌ Error login:" e) w2))
        end
    | (Throw e, w1) =>
        (Val tt, con_alerta "No se pudo conectar con el servidor"
                   (con_consola (ConsoleError "❌ Error login:" e) w1))
    end.
Proof.
  intros Hf Hok Hp Ht Hu. abrir_mundo w.
  unfold Script.iniciarSesion, peticion_login, con_alerta, con_consola in *.
  match goal with
  | |- context [Script.mostrarInterfaz ?a ?b] => set (mi := Script.mostrarInterfaz a b)
  end.
  desplegar. rewrite Hf, ToString_VStr, Hp. desplegar. rewrite Hok, Ht, Hu.
  destruct (guardarSesion t u _) as [[[]|e1] w1]; [|reflexivity].
  destruct (mi w1) as [[[]|e2] w2]; [|reflexivity].
  destruct (get_prop u "nombre"); rewrite ?ToString_VStr; reflexivity.
Qed.

Lemma registrarUsuario_aceptado (nombre email password : value) (w : World)
    (r : Respuesta) (datos t u : value) :
  fetch (URL_API +++ "/auth/register") (peticion_registro nombre email password) = Val r ->
  ok r = true ->
  JSON_parse (texto r) = Some datos ->
  get_prop datos "token" = Val t ->
  get_prop datos "usuario" = Val u ->
  registrarUsuario nombre email password w
  = match guardarSesion t u
            (con_consola (ConsoleLog [VStr "📥 Respuesta registro:"; VInt (status r); datos]) w) with
    | (Val _, w1) =>
        match mostrarInterfaz w1 with
        | (Val _, w2) =>
            match get_prop u "nombre" with
            | Val n => (Val tt, con_alerta ("Cuenta creada. Bienvenido, " +++ ToString n) w2)
            | Throw e =>
                (Val tt, con_alerta "No se pudo conectar con el servidor"
                           (con_consola (ConsoleError "❌ Error registro:" e) w2))
            end
        | (Throw e, w2) =>
            (Val tt, con_alerta "No se pudo conectar con el servidor"
                       (con_consola (ConsoleError "❌ Error registro:" e) w2))
        end
    | (Throw e, w1) =>
        (Val tt, con_alerta "No se pudo conectar con el servidor"
                   (con_consola (ConsoleError "❌ Error registro:" e) w1))
    end.
Proof.
  intros Hf Hok Hp Ht Hu. abrir_mundo w.
  unfold Script.registrarUsuario, peticion_registro, con_alerta, con_consola in *.
  match goal with
  | |- context [Script.mostrarInterfaz ?a ?b] => set (mi := Script.mostrarInterfaz a b)
  end.
  desplegar. rewrite Hf, ToString_VStr, Hp. desplegar. rewrite Hok, Ht, Hu.
  destruct (guardarSesion t u _) as [[[]|e1] w1]; [|reflexivity].
  destruct (mi w1) as [[[]|e2] w2]; [|reflexivity].
  destruct (get_prop u "nombre"); rewrite ?ToString_VStr; reflexivity.
Qed.




(** Property X6.  A response in 200..299 whose body has no usable [usuario] (the
    property is missing or [null]): [guardarSesion] has already written
    the token and the empty user to memory and to the store when reading
    the user's name throws, so the visitor is told "No se pudo conectar con
    el servidor" while whatever session there was is overwritten; the
    document is not redrawn.  The same for a registration. *)
Theorem respuesta_sin_usuario_deja_sesion_a_medias
    (nombre email password : value) (w : World) (r : Respuesta) (datos t u : value) :
  ok r = true ->
  JSON_parse (texto r) = Some datos ->
  get_prop datos "token" = Val t ->
  get_prop datos "usuario" = Val u ->
  u = VNull \/ u = VUndefined ->
  (fetch (URL_API +++ "/auth/login") (peticion_login email password) = Val r ->
   let r' := iniciarSesion email password w in
   fst r' = Val tt
   /\ alertas (snd r') = "No se pudo conectar con el servidor" :: alertas w
   /\ token (estado (snd r')) = t
   /\ usuario (estado (snd r')) = u
   /\ localStorage (snd r')
      = <["user" := ToString u]> (<["token" := ToString t]> (localStorage w))
   /\ documento (snd r') = documento w)
  /\ (fetch (URL_API +++ "/auth/register")
        (peticion_registro nombre email password) = Val r ->
      let r' := registrarUsuario nombre email password w in
      fst r' = Val tt
      /\ alertas (snd r') = "No se pudo conectar con el servidor" :: alertas w
      /\ token (estado (snd r')) = t
      /\ usuario (estado (snd r')) = u
      /\ localStorage (snd r')
         = <["user" := ToString u]> (<["token" := ToString t]> (localStorage w))
      /\ documento (snd r') = documento w).
Proof.
  intros Hok Hp Ht Hu Hnulo. split; intros Hf; cbv zeta.
  - rewrite (iniciarSesion_aceptado email password w r datos t u Hf Hok Hp Ht Hu).
    rewrite guardarSesion_run. cbv zeta.
    destruct Hnulo as [-> | ->]; cbn [get_prop]; repeat split.
  - rewrite (registrarUsuario_aceptado nombre email password w r datos t u Hf Hok Hp Ht Hu).
    rewrite guardarSesion_run. cbv zeta.
    destruct Hnulo as [-> | ->]; cbn [get_prop]; repeat split.
Qed.


(** Property X8.  For every registration answered with a status outside
    200..299 and a JSON body other than [null] whose [message] is missing,
    [null], a boolean, a string or an integer below 2^53 in magnitude, the
    client alerts the [message] when it is truthy and "Error al
    registrarse" otherwise (also when the body is no object), and leaves
    the in-memory state, the store and the document as they were. *)
Theorem registro_rechazado_muestra_mensaje (nombre email password : value) (w : World)
    (r : Respuesta) (datos m : value) :
  fetch (URL_API +++ "/auth/register") (peticion_registro nombre email password) = Val r ->
  ok r = false ->
  JSON_parse (texto r) = Some datos ->
  get_prop datos "message" = Val m ->
  escalar_exacto m = true ->
  let r' := registrarUsuario nombre email password w in
  fst r' = Val tt
  /\ estado (snd r') = estado w
  /\ localStorage (snd r') = localStorage w
  /\ documento (snd r') = documento w
  /\ alertas (snd r')
     = (if truthy m then ToString m else "Error al registrarse") :: alertas w.
Proof.
  intros Hf Hok Hp Hm _. cbv zeta. abrir_mundo w.
  unfold Script.registrarUsuario, peticion_registro in *.
  desplegar. rewrite Hf, ToString_VStr, Hp. desplegar. rewrite Hok, Hm.
  cbn [fst snd]. repeat split. unfold js_or. destruct (truthy m); reflexivity.
Qed.



(** Property X10.  A session saved without a user does not survive a reload: after
    [guardarSesion] with a token whose text is not empty and a [null] or
    [undefined] user, [cargarSesionGuardada] on a freshly loaded page
    finds the text [null] or [undefined] under [user], takes the session
    for corrupt and clears it: nobody is logged in, the keys [token] and
    [user] are gone, nothing is alerted. *)
Theorem sesion_sin_usuario_no_sobrevive_recarga (tok usr : value) (w : World)
    (d : Dom) :
  ToString tok <> "" -> usr = VNull \/ usr = VUndefined ->
  let guardado := snd (guardarSesion tok usr w) in
  let fresco := {| estado := estado_inicial;
                   localStorage := localStorage guardado;
                   documento := d; consola := []; alertas := [] |} in
  let r := cargarSesionGuardada fresco in
  fst r = Val tt
  /\ estado (snd r) = estado_inicial
  /\ localStorage (snd r) !! "token" = None
  /\ localStorage (snd r) !! "user" = None
  /\ alertas (snd r) = [].
Proof.
  intros Htok Hnulo. cbv zeta.
  destruct (guardarSesion_escribe tok usr w) as (_ & _ & ->).
  rewrite cargarSesionGuardada_run. cbv zeta.
  set (s := ToString (JSON_stringify usr)).
  assert (Hs : s <> "" /\ (JSON_parse s = None \/ JSON_parse s = Some VNull)).
  { unfold s. destruct Hnulo as [-> | ->]; (split; [discriminate|]);
      [right|left]; reflexivity. }
  destruct Hs as (Hsne & Hparse).
  set (fresco := {| estado := estado_inicial;
                    localStorage := <["user" := s]> (<["token" := ToString tok]> (localStorage w));
                    documento := d; consola := []; alertas := [] |}).
  assert (Hu : leer "user" fresco = VStr s).
  { apply leer_Some. cbn [fresco localStorage]. apply lookup_insert_eq. }
  assert (Ht : leer "token" fresco = VStr (ToString tok)).
  { apply leer_Some. cbn [fresco localStorage].
    rewrite lookup_insert_ne by discriminate. apply lookup_insert_eq. }
  rewrite Hu, Ht, (truthy_js_and_str _ s Htok Hsne), ToString_VStr.
  destruct Hparse as [-> | ->]; cbn [get_prop];
    rewrite cerrarSesion_vista;
    cbn [fst snd mundo_cerrado estado localStorage alertas con_consola con_sesion fresco];
    (repeat split;
     [rewrite lookup_delete_ne, lookup_delete_ne by discriminate; apply lookup_delete_eq
     |rewrite lookup_delete_ne by discriminate; apply lookup_delete_eq]).
Qed.

End Acceso.

(** Property X11.  A later [guardarSesion] replaces an earlier one entirely: the
    in-memory state, the store and the outcome are those of the later call
    alone. *)
Theorem guardarSesion_sobrescribe (t1 u1 t2 u2 : value) (w : World) :
  let w1 := snd (guardarSesion t1 u1 w) in
  fst (guardarSesion t2 u2 w1) = fst (guardarSesion t2 u2 w)
  /\ estado (snd (guardarSesion t2 u2 w1)) = estado (snd (guardarSesion t2 u2 w))
  /\ localStorage (snd (guardarSesion t2 u2 w1))
     = localStorage (snd (guardarSesion t2 u2 w)).
Proof.
  cbv zeta. rewrite !guardarSesion_run. cbv zeta.
  destruct (get_prop u1 "nombre"), (get_prop u2 "nombre");
    cbn [fst snd con_consola estado carrito localStorage]; repeat split;
    rewrite (insert_insert_ne _ "token" "user") by discriminate;
    rewrite !insert_insert_eq; reflexivity.
Qed.

Section Recarga.

Variable cargarCarrito : M unit.
Variable cargarProductosTienda : M unit.

Local Abbreviation cargarSesionGuardada :=
  (cargarSesionGuardada cargarCarrito cargarProductosTienda).

(** Property X12.  Restoring twice is restoring once: a second
    [cargarSesionGuardada] right after the first leaves the in-memory
    state, the store, the document and the alerts as the first one left
    them (a restored session is read again to the same values, a cleared
    one leaves nothing to read). *)
Theorem cargarSesionGuardada_idempotente (w : World) :
  let w1 := snd (cargarSesionGuardada w) in
  let w2 := snd (cargarSesionGuardada w1) in
  estado w2 = estado w1
  /\ localStorage w2 = localStorage w1
  /\ documento w2 = documento w1
  /\ alertas w2 = alertas w1.
Proof.
  cbv zeta.
  assert (Hlimpio : forall d w0,
             cargarSesionGuardada (mundo_cerrado d w0) = (Val tt, mundo_cerrado d w0)).
  { intros d w0. apply cargarSesionGuardada_sin_datos. left.
    unfold leer. cbn [mundo_cerrado localStorage].
    rewrite lookup_delete_ne, lookup_delete_ne by discriminate.
    rewrite lookup_delete_eq. reflexivity. }
  rewrite (cargarSesionGuardada_run _ _ w). cbv zeta.
  destruct (truthy (js_and (leer "token" w) (leer "user" w))) eqn:Hg.
  - destruct (JSON_parse (ToString (leer "user" w))) as [u|] eqn:Hp.
    + destruct (get_prop u "nombre") as [nm|e] eqn:Hn.
      * cbn [snd]. rewrite cargarSesionGuardada_run. cbv zeta.
        change (leer "token" (con_consola _ (con_sesion _ _ w))) with (leer "token" w).
        change (leer "user" (con_consola _ (con_sesion _ _ w))) with (leer "user" w).
        rewrite Hg, Hp, Hn. cbn [snd]. repeat split.
      * rewrite cerrarSesion_vista. cbn [snd]. rewrite Hlimpio. cbn [snd].
        repeat split.
    + rewrite cerrarSesion_vista. cbn [snd]. rewrite Hlimpio. cbn [snd].
      repeat split.
  - cbn [snd]. rewrite cargarSesionGuardada_run. cbv zeta. rewrite Hg. cbn [snd].
    repeat split.
Qed.

End Recarga.

(** Property X13.  The credentials travel as JSON: whatever characters the name,
    the email and the password hold, the body of the login request parses
    back to the object [{email, password}] and the body of the
    registration request to [{nombre, email, password}]; both requests are
    POSTs of type application/json. *)
Theorem las_credenciales_viajan_como_json (nombre email password : string) :
  JSON_parse (cuerpo (peticion_login (VStr email) (VStr password)))
  = Some (VObj [("email", VStr email); ("password", VStr password)])
  /\ JSON_parse (cuerpo (peticion_registro (VStr nombre) (VStr email) (VStr password)))
     = Some (VObj [("nombre", VStr nombre); ("email", VStr email);
                   ("password", VStr password)])
  /\ metodo (peticion_login (VStr email) (VStr password)) = "POST"
  /\ metodo (peticion_registro (VStr nombre) (VStr email) (VStr password)) = "POST"
  /\ cabeceras (peticion_login (VStr email) (VStr password))
     = [("Content-Type", "application/json")]
  /\ cabeceras (peticion_registro (VStr nombre) (VStr email) (VStr password))
     = [("Content-Type", "application/json")].
Proof.
  unfold peticion_login, peticion_registro, peticion_json. cbn [cuerpo metodo cabeceras].
  split; [|split; [|repeat split]].
  - destruct (JSON_parse_stringify
                (VObj [("email", VStr email); ("password", VStr password)]) eq_refl)
      as (s & -> & Hp).
    rewrite ToString_VStr. exact Hp.
  - destruct (JSON_parse_stringify
                (VObj [("nombre", VStr nombre); ("email", VStr email);
                       ("password", VStr password)]) eq_refl)
      as (s & -> & Hp).
    rewrite ToString_VStr. exact Hp.
Qed.

(** *** The links under the forms *)

Lemma hay_Some (els : gmap string bool) (i : string) :
  is_Some (els !! i) -> bool_decide (is_Some (els !! i)) = true.
Proof. intros H. apply bool_decide_eq_true_2. exact H. Qed.

(** A click with both forms on the page: the form of the link is shown,
    the other hidden, nothing else changes. *)
Lemma pulsar_run (l : Enlace) (w : World) :
  is_Some (elementos (documento w) !! "loginForm") ->
  is_Some (elementos (documento w) !! "registerForm") ->
  pulsar l w
  = (Val tt,
     con_documento
       {| elementos :=
            match l with
            | ShowRegister =>
                <["registerForm" := false]> (<["loginForm" := true]> (elementos (documento w)))
            | ShowLogin =>
                <["loginForm" := false]> (<["registerForm" := true]> (elementos (documento w)))
            end;
          nav := nav (documento w) |} w).
Proof.
  intros Hl Hr. abrir_mundo w. cbn [documento elementos] in Hl, Hr.
  assert (Hl' : is_Some (<["registerForm" := true]> els !! "loginForm"))
    by (rewrite lookup_insert_ne by discriminate; exact Hl).
  assert (Hr' : is_Some (<["loginForm" := true]> els !! "registerForm"))
    by (rewrite lookup_insert_ne by discriminate; exact Hr).
  destruct l; unfold pulsar, showRegister_click, showLogin_click, classList_hidden,
    con_documento; desplegar.
  - rewrite (hay_Some _ _ Hl). cbv beta iota.
    rewrite (hay_Some _ _ Hr'). reflexivity.
  - rewrite (hay_Some _ _ Hr). cbv beta iota.
    rewrite (hay_Some _ _ Hl'). reflexivity.
Qed.

Lemma pulsar_formularios (l : Enlace) (w : World) :
  is_Some (elementos (documento w) !! "loginForm") ->
  is_Some (elementos (documento w) !! "registerForm") ->
  let w' := snd (pulsar l w) in
  fst (pulsar l w) = Val tt
  /\ is_Some (elementos (documento w') !! "loginForm")
  /\ is_Some (elementos (documento w') !! "registerForm")
  /\ visible "loginForm" w' = match l with ShowLogin => true | ShowRegister => false end
  /\ visible "registerForm" w' = match l with ShowLogin => false | ShowRegister => true end
  /\ (forall id, id <> "loginForm" -> id <> "registerForm" ->
        elementos (documento w') !! id = elementos (documento w) !! id)
  /\ nav (documento w') = nav (documento w)
  /\ estado w' = estado w
  /\ localStorage w' = localStorage w
  /\ alertas w' = alertas w.
Proof.
  intros Hl Hr. cbv zeta. rewrite (pulsar_run l w Hl Hr).
  cbn [fst snd con_documento documento elementos nav estado localStorage alertas].
  unfold visible. cbn [con_documento documento elementos].
  destruct l; cbv beta iota.
  - split; [reflexivity|]. split.
    { rewrite lookup_insert_ne by discriminate. rewrite lookup_insert_eq. eauto. }
    split. { rewrite lookup_insert_eq. eauto. }
    split. { rewrite lookup_insert_ne by discriminate. rewrite lookup_insert_eq. reflexivity. }
    split. { rewrite lookup_insert_eq. reflexivity. }
    split; [|repeat split].
    intros id H1 H2. rewrite !lookup_insert_ne by congruence. reflexivity.
  - split; [reflexivity|]. split.
    { rewrite lookup_insert_eq. eauto. }
    split. { rewrite lookup_insert_ne by discriminate. rewrite lookup_insert_eq. eauto. }
    split. { rewrite lookup_insert_eq. reflexivity. }
    split. { rewrite lookup_insert_ne by discriminate. rewrite lookup_insert_eq. reflexivity. }
    split; [|repeat split].
    intros id H1 H2. rewrite !lookup_insert_ne by congruence. reflexivity.
Qed.

(** Property X14.  On a page that has both forms, after any clicks on the links
    [showRegister] and [showLogin] exactly one form is shown, the one of
    the link clicked last; no click throws; no other element is touched,
    and neither are the in-memory state, the store and the alerts. *)
Theorem un_formulario_a_la_vista (clics : list Enlace) (l : Enlace) (w : World) :
  is_Some (elementos (documento w) !! "loginForm") ->
  is_Some (elementos (documento w) !! "registerForm") ->
  let antes := pulsar_todos clics w in
  let w' := pulsar_todos (clics ++ [l]) w in
  fst (pulsar l antes) = Val tt
  /\ visible "loginForm" w' = match l with ShowLogin => true | ShowRegister => false end
  /\ visible "registerForm" w' = negb (visible "loginForm" w')
  /\ (forall id, id <> "loginForm" -> id <> "registerForm" ->
        elementos (documento w') !! id = elementos (documento w) !! id)
  /\ estado w' = estado w
  /\ localStorage w' = localStorage w
  /\ alertas w' = alertas w.
Proof.
  revert w. induction clics as [|c clics IH]; intros w Hl Hr; cbv zeta.
  - cbn [pulsar_todos app].
    destruct (pulsar_formularios l w Hl Hr) as (H0 & _ & _ & H1 & H2 & H3 & _ & H4 & H5 & H6).
    rewrite H1, H2. repeat split; try assumption. destruct l; reflexivity.
  - cbn [pulsar_todos app].
    destruct (pulsar_formularios c w Hl Hr) as (_ & Hl' & Hr' & _ & _ & H3 & _ & H4 & H5 & H6).
    destruct (IH (snd (pulsar c w)) Hl' Hr') as (K0 & K1 & K2 & K3 & K4 & K5 & K6).
    repeat split; try assumption.
    + intros id H1 H2. rewrite (K3 id H1 H2). apply H3; assumption.
    + rewrite K4. exact H4.
    + rewrite K5. exact H5.
    + rewrite K6. exact H6.
Qed.

(** Property X15.  The click listeners do not test what [getElementById] returns:
    on a page without [registerForm] every click on either link throws a
    TypeError; a click on [showLogin] changes nothing, a click on
    [showRegister] has already hidden [loginForm], which no click on these
    links shows again. *)
Theorem sin_formulario_de_registro_los_enlaces_lanzan (w : World) :
  elementos (documento w) !! "registerForm" = None ->
  (forall l, exists e, fst (pulsar l w) = Throw (TypeError e))
  /\ snd (pulsar ShowLogin w) = w
  /\ visible "loginForm" (snd (pulsar ShowRegister w)) = false
  /\ (forall clics, visible "loginForm" w = false ->
        visible "loginForm" (pulsar_todos clics w) = false).
Proof.
  intros Hr.
  assert (Hlogin : forall w', elementos (documento w') !! "registerForm" = None ->
             pulsar ShowLogin w'
             = (Throw (TypeError "Cannot read properties of null (reading 'classList')"), w')).
  { intros w' H. abrir_mundo w'. cbn [documento elementos] in H.
    unfold pulsar, showLogin_click, classList_hidden. desplegar.
    rewrite (hay_None _ _ H). reflexivity. }
  assert (Hreg : forall w', elementos (documento w') !! "registerForm" = None ->
             elementos (documento (snd (pulsar ShowRegister w'))) !! "registerForm" = None
             /\ visible "loginForm" (snd (pulsar ShowRegister w')) = false
             /\ exists e, fst (pulsar ShowRegister w') = Throw (TypeError e)).
  { intros w' H. abrir_mundo w'. cbn [documento elementos] in H.
    unfold pulsar, showRegister_click, classList_hidden, visible. desplegar.
    destruct (els !! "loginForm") as [b|] eqn:El.
    - rewrite bool_decide_eq_true_2 by eauto. cbv beta iota.
      rewrite bool_decide_eq_false_2
        by (rewrite lookup_insert_ne by discriminate; rewrite H; intros [x Hx]; discriminate Hx).
      cbn [fst snd]. rewrite lookup_insert_ne by discriminate.
      rewrite lookup_insert_eq. split; [exact H|]. split; [reflexivity|eauto].
    - rewrite bool_decide_eq_false_2 by (intros [x Hx]; discriminate Hx).
      cbn [fst snd]. rewrite El. split; [exact H|]. split; [reflexivity|eauto]. }
  split; [|split; [|split]].
  - intros [|].
    + destruct (Hreg w Hr) as (_ & _ & H). exact H.
    + rewrite (Hlogin w Hr). eauto.
  - rewrite (Hlogin w Hr). reflexivity.
  - apply (Hreg w Hr).
  - intros clics. revert w Hr.
    induction clics as [|c clics IH]; intros w Hr Hv; cbn [pulsar_todos]; [exact Hv|].
    destruct c.
    + destruct (Hreg w Hr) as (H1 & H2 & _). apply IH; assumption.
    + rewrite (Hlogin w Hr). cbn [snd]. apply IH; assumption.
Qed.

(** *** The listing: which rows, in which order, and when it fails *)

Section Listado.

Variable collation_leb : value -> value -> bool.

Lemma insertar_ordenado_perm (c : string) (f : Fila) (fs : list Fila) :
  Permutation (insertar_ordenado collation_leb c f fs) (f :: fs).
Proof.
  induction fs as [|g fs IH]; cbn [insertar_ordenado]; [reflexivity|].
  destruct (collation_leb _ _); [reflexivity|].
  rewrite IH. apply perm_swap.
Qed.

Lemma ordenar_perm (c : string) (fs : list Fila) :
  Permutation (ordenar collation_leb c fs) fs.
Proof.
  induction fs as [|f fs IH]; cbn [ordenar fold_right]; [reflexivity|].
  rewrite insertar_ordenado_perm. apply perm_skip. exact IH.
Qed.

Lemma insertar_ordenado_Sorted (c : string) (f : Fila) (fs : list Fila) :
  (forall a b, collation_leb a b = true \/ collation_leb b a = true) ->
  Sorted (fun x y => collation_leb (campo x c) (campo y c) = true) fs ->
  Sorted (fun x y => collation_leb (campo x c) (campo y c) = true)
    (insertar_ordenado collation_leb c f fs).
Proof.
  intros Htotal. induction 1 as [|g fs Hs IH Hhd]; cbn [insertar_ordenado].
  - constructor; constructor.
  - destruct (collation_leb (campo f c) (campo g c)) eqn:E.
    + constructor; [constructor; assumption|constructor; exact E].
    + constructor; [exact IH|].
      destruct fs as [|h tl]; cbn [insertar_ordenado].
      * constructor. destruct (Htotal (campo f c) (campo g c)) as [H|H];
          [rewrite H in E; discriminate E|exact H].
      * destruct (collation_leb (campo f c) (campo h c)).
        -- constructor. destruct (Htotal (campo f c) (campo g c)) as [H|H];
             [rewrite H in E; discriminate E|exact H].
        -- constructor. inversion Hhd; assumption.
Qed.

Lemma ordenar_Sorted (c : string) (fs : list Fila) :
  (forall a b, collation_leb a b = true \/ collation_leb b a = true) ->
  Sorted (fun x y => collation_leb (campo x c) (campo y c) = true)
    (ordenar collation_leb c fs).
Proof.
  intros Htotal. induction fs as [|f fs IH]; cbn [ordenar fold_right].
  - constructor.
  - apply insertar_ordenado_Sorted; assumption.
Qed.

Lemma tiene_columna_In (t : Tabla) (c : string) :
  tiene_columna t c = true <-> In c (columnas t).
Proof.
  unfold tiene_columna. rewrite existsb_exists. split.
  - intros (x & Hx & E). apply String.eqb_eq in E. subst. exact Hx.
  - intros H. exists c. split; [exact H|apply String.eqb_refl].
Qed.

(** The query of [obtenerImagenes] is accepted exactly when the server is
    reached and the table has every column the statement names. *)
Lemma obtenerImagenes_aceptada (db : Db) :
  (exists imgs, obtenerImagenes collation_leb db = Val imgs)
  <-> conectada db = true
      /\ Forall (fun c => In c (columnas (imagenes db)))
           (columnas_imagenes ++ ["activo"; "nombre"]).
Proof.
  assert (Hcols : map fst (columnas_nombradas consulta_imagenes)
                  = columnas_imagenes ++ ["activo"; "nombre"]) by reflexivity.
  unfold obtenerImagenes, pool_query_select. rewrite <- Hcols.
  destruct (conectada db); cbn [negb].
  - destruct (find _ _) as [[c donde]|] eqn:E.
    + apply find_some in E as [Hin Hc]. cbn [fst] in Hc. split.
      * intros (imgs & H). discriminate H.
      * intros (_ & Hall). rewrite List.Forall_forall in Hall.
        assert (Hc' : In c (map fst (columnas_nombradas consulta_imagenes)))
          by (apply in_map_iff; exists (c, donde); split; [reflexivity|exact Hin]).
        apply Hall, tiene_columna_In in Hc'. rewrite Hc' in Hc. discriminate Hc.
    + split; [|intros _; eexists; reflexivity].
      intros _. split; [reflexivity|]. apply List.Forall_forall. intros c Hin.
      apply in_map_iff in Hin as ([c' donde] & Hfst & Hin). cbn [fst] in Hfst. subst c'.
      apply tiene_columna_In.
      pose proof (find_none _ _ E (c, donde) Hin) as Hc. cbn [fst] in Hc.
      destruct (tiene_columna (imagenes db) c); [reflexivity|discriminate Hc].
  - split; [intros (imgs & H); discriminate H|intros (H & _); discriminate H].
Qed.

(** Property X16.  Whenever the query of [obtenerImagenes] succeeds, the rows it
    returns are the rows of the table with [activo = 1], each of them once
    and none dropped, each as an object with the ten selected columns in
    the order of the SELECT list; and they come in ascending order of
    [nombre] (under a total collation), a column that is not among the
    ones returned. *)
Theorem listado_completo_y_ordenado (db : Db) (imgs : list value) :
  obtenerImagenes collation_leb db = Val imgs ->
  exists fs : list Fila,
    imgs = map (proyectar columnas_imagenes) fs
    /\ Permutation fs (List.filter activa (filas (imagenes db)))
    /\ length imgs = length (List.filter activa (filas (imagenes db)))
    /\ Forall (fun img => claves img = columnas_imagenes) imgs
    /\ ((forall a b, collation_leb a b = true \/ collation_leb b a = true) ->
        Sorted (por_nombre collation_leb) fs).
Proof.
  unfold obtenerImagenes, pool_query_select.
  destruct (negb (conectada db)); [discriminate|].
  destruct (find _ _) as [[c donde]|]; [discriminate|]. intros [= <-].
  change (sel_columnas consulta_imagenes) with columnas_imagenes.
  cbn [sel_order sel_where consulta_imagenes fst snd].
  exists (ordenar collation_leb "nombre" (List.filter activa (filas (imagenes db)))).
  split; [reflexivity|]. split; [apply ordenar_perm|]. split.
  - rewrite length_map. apply Permutation_length, ordenar_perm.
  - split.
    + apply List.Forall_map. apply List.Forall_forall. intros f _. reflexivity.
    + intros Htotal. apply ordenar_Sorted. exact Htotal.
Qed.

(** Property X17.  The listing answers 200 or 500, and 200 exactly when the
    database is reached and the table [imagenes] has the ten selected
    columns, [activo] and [nombre]; the [success] flag of the body says
    which, and only the 200 body carries [data].  The rows of the table
    play no part: an empty table is answered with 200. *)
Theorem listado_responde_200_sii (db : Db) :
  let r := getImagenes collation_leb db in
  (codigo r = 200%Z \/ codigo r = 500%Z)
  /\ (codigo r = 200%Z
      <-> conectada db = true
          /\ Forall (fun c => In c (columnas (imagenes db)))
               (columnas_imagenes ++ ["activo"; "nombre"]))
  /\ get_prop (json r) "success" = Val (VBool (codigo r =? 200)%Z)
  /\ (In "data" (claves (json r)) <-> codigo r = 200%Z).
Proof.
  cbv zeta. pose proof (obtenerImagenes_aceptada db) as Hacc.
  unfold getImagenes. destruct (obtenerImagenes collation_leb db) as [imgs|e];
    cbn [codigo json get_prop assoc String.eqb claves map fst].
  - split; [left; reflexivity|]. split.
    + split; [intros _; apply Hacc; eauto|reflexivity].
    + split; [reflexivity|]. split; [reflexivity|]. intros _. cbn. auto.
  - split; [right; reflexivity|]. split.
    + split; [discriminate|].
      intros H. apply Hacc in H as (imgs & H). discriminate H.
    + split; [reflexivity|]. split; [|discriminate].
      cbn. intros [H|[H|[H|[]]]]; discriminate H.
Qed.

(** Property X18.  On the table [imagenes] as initdb.js creates it, which
    has no column [nombre], the ORDER BY of [obtenerImagenes] is rejected
    by the server whatever the rows and the collation, and the listing
    answers 500 with [success: false], the fixed [message] and the
    server's message as [error]. *)
Theorem listado_sobre_initdb_responde_500 (db : Db) :
  conectada db = true -> columnas (imagenes db) = columnas_imagenes ->
  exists mensaje : string,
    obtenerImagenes collation_leb db = Throw (DbError mensaje)
    /\ getImagenes collation_leb db
       = {| codigo := 500;
            json := VObj [("success", VBool false);
                          ("message", VStr "Error interno del servidor");
                          ("error", VStr mensaje)] |}.
Proof.
  intros Hc Hcols.
  destruct (esquema_de_initdb_sin_nombre collation_leb db Hc Hcols) as (H & _).
  eexists. split; [exact H|]. unfold getImagenes. rewrite H. reflexivity.
Qed.

End Listado.

Lemma orden_binario_total (a b : value) :
  orden_binario a b = true \/ orden_binario b a = true.
Proof.
  destruct a, b; cbn [orden_binario]; auto. apply String.leb_total.
Qed.

(** *** Customers: creation and lookup *)

(** What a successful [crearCliente] did. *)
Lemma crearCliente_exito (arg r : value) (db db' : Db) :
  crearCliente arg db = (Val r, db') ->
  exists nombre email password,
    get_prop arg "nombre" = Val nombre
    /\ get_prop arg "email" = Val email
    /\ get_prop arg "password" = Val password
    /\ conectada db = true
    /\ existsb (fun f => sql_eq (campo f "email") email) (filas (clientes db)) = false
    /\ r = VObj [("insertId", VInt (siguiente_id db)); ("id", VInt (siguiente_id db));
                 ("nombre", nombre); ("email", email)]
    /\ db' = {| conectada := true;
                imagenes := imagenes db;
                clientes := {| columnas := columnas (clientes db);
                               filas := filas (clientes db)
                                        ++ [[("id", VInt (siguiente_id db));
                                             ("nombre", nombre); ("email", email);
                                             ("password", password)]] |};
                siguiente_id := (siguiente_id db + 1)%Z |}.
Proof.
  unfold crearCliente.
  destruct (get_prop arg "nombre") as [n|e];
    [|destruct (get_prop arg "email"), (get_prop arg "password"); discriminate].
  destruct (get_prop arg "email") as [m|e]; [|destruct (get_prop arg "password"); discriminate].
  destruct (get_prop arg "password") as [p|e]; [|discriminate].
  unfold pool_query_insert_cliente.
  destruct (conectada db) eqn:Hc; cbn [negb]; [|discriminate].
  destruct (find _ _) as [[c v]|]; [discriminate|]. cbv zeta.
  destruct (existsb _ _) eqn:Hdup; [discriminate|].
  intros H. injection H as <- <-.
  exists n, m, p. repeat split. exact Hdup.
Qed.

(** A [crearCliente] that returned was given three fields, none of them
    [null] or [undefined]. *)
Lemma crearCliente_exito_campos (arg r : value) (db db' : Db) (c : string) :
  crearCliente arg db = (Val r, db') ->
  In c ["nombre"; "email"; "password"] ->
  exists v, get_prop arg c = Val v /\ es_null_sql v = false.
Proof.
  unfold crearCliente.
  destruct (get_prop arg "nombre") as [n|e] eqn:Gn;
    [|destruct (get_prop arg "email"), (get_prop arg "password"); discriminate].
  destruct (get_prop arg "email") as [m|e] eqn:Gm;
    [|destruct (get_prop arg "password"); discriminate].
  destruct (get_prop arg "password") as [p|e] eqn:Gp; [|discriminate].
  unfold pool_query_insert_cliente.
  destruct (negb (conectada db)); [discriminate|].
  destruct (find _ _) as [[c' v]|] eqn:Ef; [discriminate|].
  intros _ Hin.
  assert (Hno : forall x y, In (x, y) [("nombre", n); ("email", m); ("password", p)] ->
                            es_null_sql y = false).
  { intros x y Hxy. exact (find_none _ _ Ef (x, y) Hxy). }
  destruct Hin as [<-|[<-|[<-|[]]]].
  - exists n. split; [exact Gn|]. apply (Hno "nombre"). cbn. auto.
  - exists m. split; [exact Gm|]. apply (Hno "email"). cbn. auto.
  - exists p. split; [exact Gp|]. apply (Hno "password"). cbn. auto.
Qed.

(** A [crearCliente] that threw wrote no row; the counter is where it was
    or one further. *)
Lemma crearCliente_fallo (arg : value) (db db' : Db) (e : JsError) :
  crearCliente arg db = (Throw e, db') ->
  conectada db' = conectada db
  /\ imagenes db' = imagenes db
  /\ clientes db' = clientes db
  /\ (siguiente_id db <= siguiente_id db' <= siguiente_id db + 1)%Z.
Proof.
  assert (Hdb : conectada db = conectada db /\ imagenes db = imagenes db
                /\ clientes db = clientes db
                /\ (siguiente_id db <= siguiente_id db <= siguiente_id db + 1)%Z)
    by (repeat split; lia).
  unfold crearCliente.
  destruct (get_prop arg "nombre") as [n|e0];
    [|destruct (get_prop arg "email"), (get_prop arg "password");
      intros [= _ <-]; exact Hdb].
  destruct (get_prop arg "email") as [m|e0];
    [|destruct (get_prop arg "password"); intros [= _ <-]; exact Hdb].
  destruct (get_prop arg "password") as [p|e0]; [|intros [= _ <-]; exact Hdb].
  unfold pool_query_insert_cliente.
  destruct (negb (conectada db)); [intros [= _ <-]; exact Hdb|].
  destruct (find _ _) as [[c v]|]; [intros [= _ <-]; exact Hdb|]. cbv zeta.
  destruct (existsb _ _).
  - intros [= _ <-]. cbn [conectada imagenes clientes siguiente_id].
    repeat split; lia.
  - cbn. discriminate.
Qed.

(** Property X19.  A [crearCliente] that throws adds no customer: the
    rows and columns of [clientes] and the table [imagenes] are as they
    were, and the AUTO_INCREMENT counter is where it was or one further (a
    refused duplicate has used up an id).  And it does throw for a [null]
    or [undefined] argument, for a field that is missing, [null] or
    [undefined], and without a connection. *)
Theorem crearCliente_que_falla_no_escribe (arg : value) (db : Db) :
  (forall e db', crearCliente arg db = (Throw e, db') ->
      clientes db' = clientes db
      /\ imagenes db' = imagenes db
      /\ (siguiente_id db <= siguiente_id db' <= siguiente_id db + 1)%Z)
  /\ (arg = VNull \/ arg = VUndefined \/ conectada db = false
      \/ (exists c, In c ["nombre"; "email"; "password"]
                    /\ (get_prop arg c = Val VNull \/ get_prop arg c = Val VUndefined)) ->
      exists e, fst (crearCliente arg db) = Throw e).
Proof.
  split.
  - intros e db' E.
    destruct (crearCliente_fallo arg db db' e E) as (_ & Hi & Hc & Hs).
    split; [exact Hc|]. split; [exact Hi|exact Hs].
  - intros H. destruct (crearCliente arg db) as [[r|e] db'] eqn:E; [|eauto].
    exfalso.
    pose proof (crearCliente_exito_campos arg r db db') as Hcampos.
    apply crearCliente_exito in E as E'.
    destruct E' as (n & m & p & Hn & _ & _ & Hc & _).
    destruct H as [-> | [-> | [H | (c & Hin & H)]]]; try discriminate Hn.
    + rewrite H in Hc. discriminate Hc.
    + destruct (Hcampos c E Hin) as (v & Hv & Hnulo).
      destruct H as [H|H]; rewrite H in Hv; injection Hv as <-; discriminate Hnulo.
Qed.

Lemma sql_eq_VStr (v : value) (s : string) :
  sql_eq v (VStr s) = true <-> v = VStr s.
Proof.
  destruct v; cbn [sql_eq]; split; try discriminate.
  - intros H. apply String.eqb_eq in H. subst. reflexivity.
  - intros [= ->]. apply String.eqb_refl.
Qed.

(** Property X20.  The email is a key: where [clientes] holds a row with
    an email, every [crearCliente] with that very email throws, whatever
    the other fields, and adds no row. *)
Theorem email_repetido_se_rechaza (b : value) (s : string) (f : Fila) (db : Db) :
  In f (filas (clientes db)) ->
  campo f "email" = VStr s ->
  get_prop b "email" = Val (VStr s) ->
  (exists e, fst (crearCliente b db) = Throw e)
  /\ clientes (snd (crearCliente b db)) = clientes db
  /\ imagenes (snd (crearCliente b db)) = imagenes db.
Proof.
  intros Hin Hf Hb.
  destruct (crearCliente b db) as [[r|e] db'] eqn:E.
  - exfalso.
    apply crearCliente_exito in E as (n & m & p & _ & Hm & _ & _ & Hdup & _).
    rewrite Hb in Hm. injection Hm as <-.
    assert (Hex : existsb (fun g => sql_eq (campo g "email") (VStr s))
                    (filas (clientes db)) = true).
    { apply existsb_exists. exists f. split; [exact Hin|].
      apply sql_eq_VStr. exact Hf. }
    rewrite Hex in Hdup. discriminate Hdup.
  - cbn [fst snd].
    destruct (crearCliente_fallo b db db' e E) as (_ & Hi & Hc & _).
    split; [eauto|]. split; assumption.
Qed.

Lemma FOP_snoc {A : Type} (R : A -> A -> Prop) (l : list A) (x : A) :
  ForallOrdPairs R l -> Forall (fun y => R y x) l -> ForallOrdPairs R (l ++ [x]).
Proof.
  induction 1 as [|a l Ha Hl IH]; intros Hx; cbn [app].
  - constructor; constructor.
  - inversion Hx; subst. constructor.
    + apply List.Forall_app. split; [exact Ha|constructor; [assumption|constructor]].
    + apply IH. assumption.
Qed.

(** Property X21.  [crearCliente] keeps the keys of [clientes]: where no two rows
    have equal emails and every id is below the AUTO_INCREMENT counter,
    the same holds after the call, whatever the argument; and the id it
    returns is the id of no row that was there before. *)
Theorem crearCliente_conserva_claves (arg : value) (db : Db) :
  emails_unicos db -> ids_bajo_contador db ->
  emails_unicos (snd (crearCliente arg db))
  /\ ids_bajo_contador (snd (crearCliente arg db))
  /\ (forall r f, fst (crearCliente arg db) = Val r ->
        In f (filas (clientes db)) -> get_prop r "id" <> Val (campo f "id")).
Proof.
  intros He Hi.
  destruct (crearCliente arg db) as [[r|e] db'] eqn:E; cbn [fst snd].
  - apply crearCliente_exito in E
      as (n & m & p & _ & _ & _ & _ & Hdup & -> & ->).
    split; [|split].
    + unfold emails_unicos. cbn [clientes filas].
      apply FOP_snoc; [exact He|].
      apply List.Forall_forall. intros f Hin.
      change (campo [("id", VInt (siguiente_id db)); ("nombre", n); ("email", m);
                     ("password", p)] "email") with m.
      destruct (sql_eq (campo f "email") m) eqn:Es; [|reflexivity].
      assert (Hex : existsb (fun f => sql_eq (campo f "email") m)
                      (filas (clientes db)) = true)
        by (apply existsb_exists; eauto).
      rewrite Hex in Hdup. discriminate Hdup.
    + unfold ids_bajo_contador in *. cbn [clientes filas siguiente_id].
      apply List.Forall_app. split.
      * eapply List.Forall_impl; [|exact Hi].
        intros f (i & Hf & Hlt). exists i. split; [exact Hf|lia].
      * constructor; [|constructor]. exists (siguiente_id db).
        split; [reflexivity|lia].
    + intros r' f [= <-] Hin.
      change (get_prop (VObj [("insertId", VInt (siguiente_id db));
                              ("id", VInt (siguiente_id db));
                              ("nombre", n); ("email", m)]) "id")
        with (Val (VInt (siguiente_id db))).
      unfold ids_bajo_contador in Hi. rewrite List.Forall_forall in Hi.
      destruct (Hi f Hin) as (i & Hf & Hlt). rewrite Hf.
      intros [= H]. lia.
  - destruct (crearCliente_fallo arg db db' e E) as (_ & _ & Hc & Hs).
    split; [|split].
    + unfold emails_unicos. rewrite Hc. exact He.
    + unfold ids_bajo_contador in *. rewrite Hc.
      eapply List.Forall_impl; [|exact Hi].
      intros f (i & Hf & Hlt). exists i. split; [exact Hf|lia].
    + intros r f H. discriminate H.
Qed.


(** [buscarPorEmail] on a reachable database whose [clientes] has the
    columns of initdb.js. *)
Lemma buscarPorEmail_run (email : value) (db : Db) :
  conectada db = true -> columnas (clientes db) = columnas_clientes ->
  buscarPorEmail email db
  = Val (nth 0 (map (proyectar columnas_clientes)
                  (List.filter (fun f => sql_eq (campo f "email") email)
                     (filas (clientes db))))
           VUndefined).
Proof.
  intros Hc Hcols. unfold buscarPorEmail, pool_query_select_where, tiene_columna.
  rewrite Hc, Hcols. reflexivity.
Qed.


(** Property X23.  [buscarPorEmail] finds the customer that is stored: on
    a reachable database whose [clientes] has the columns of initdb.js
    and no two rows with equal emails, for every row the lookup of that
    row's email returns that row, as an object with the five selected
    columns, the stored password among them.  Whatever the lookup of a
    string returns, other than [undefined], is a row of the table; and
    when it returns [undefined], no row has that very email. *)
Theorem buscarPorEmail_encuentra (s : string) (f : Fila) (db : Db) :
  conectada db = true -> columnas (clientes db) = columnas_clientes ->
  emails_unicos db ->
  In f (filas (clientes db)) -> campo f "email" = VStr s ->
  buscarPorEmail (VStr s) db = Val (proyectar columnas_clientes f)
  /\ claves (proyectar columnas_clientes f) = columnas_clientes
  /\ get_prop (proyectar columnas_clientes f) "id" = Val (campo f "id")
  /\ get_prop (proyectar columnas_clientes f) "password" = Val (campo f "password")
  /\ (forall (t : string) (c : value),
        buscarPorEmail (VStr t) db = Val c -> c <> VUndefined ->
        exists g, In g (filas (clientes db)) /\ c = proyectar columnas_clientes g)
  /\ (forall t : string,
        buscarPorEmail (VStr t) db = Val VUndefined ->
        forall g, In g (filas (clientes db)) -> campo g "email" <> VStr t).
Proof.
  intros Hc Hcols Hu Hin Hf.
  assert (Hfiltro : forall t g,
             In g (List.filter (fun f => sql_eq (campo f "email") (VStr t))
                     (filas (clientes db)))
             <-> In g (filas (clientes db)) /\ campo g "email" = VStr t).
  { intros t g. rewrite List.filter_In, sql_eq_VStr. reflexivity. }
  split; [|split; [reflexivity|split; [reflexivity|split; [reflexivity|split]]]].
  - rewrite (buscarPorEmail_run _ db Hc Hcols).
    destruct (List.filter _ _) as [|g tl] eqn:Efil.
    + exfalso. assert (H : In f []) by (rewrite <- Efil; apply Hfiltro; auto).
      exact H.
    + cbn [map nth]. f_equal. f_equal.
      assert (Hg : In g (filas (clientes db)) /\ campo g "email" = VStr s)
        by (apply Hfiltro; rewrite Efil; left; reflexivity).
      destruct Hg as [Hgin Hgs].
      destruct (ForallOrdPairs_In Hu g f Hgin Hin) as [E|[E|E]]; [exact E| |];
        rewrite Hf, Hgs in E; cbn [sql_eq] in E;
        rewrite String.eqb_refl in E; discriminate E.
  - intros t c. rewrite (buscarPorEmail_run _ db Hc Hcols).
    destruct (List.filter _ _) as [|g tl] eqn:Efil; cbn [map nth].
    + intros [= <-] H. contradiction.
    + intros [= <-] _. exists g. split; [|reflexivity].
      apply (Hfiltro t g). rewrite Efil. left. reflexivity.
  - intros t. rewrite (buscarPorEmail_run _ db Hc Hcols).
    destruct (List.filter _ _) as [|g tl] eqn:Efil; cbn [map nth].
    + intros _ g Hg Hgt.
      assert (H : In g []) by (rewrite <- Efil; apply Hfiltro; auto).
      exact H.
    + discriminate.
Qed.

(** *** The statements above at concrete inputs *)


(** [mostrarInterfaz_dibuja] at the page as served, nobody logged in. *)
Lemma mostrarInterfaz_dibuja_witness :
  let r := mostrarInterfaz sin_efecto sin_efecto pagina_tienda in
  fst r = Val tt
  /\ elementos (documento (snd r)) !! "authSection" = Some false
  /\ elementos (documento (snd r)) !! "productosMostrar" = Some false
  /\ elementos (documento (snd r)) !! "tiendaSection" = Some true
  /\ nav (documento (snd r)) = NavInvitado.
Proof.
  destruct (mostrarInterfaz_dibuja sin_efecto sin_efecto pagina_tienda
              (or_introl eq_refl) (or_introl eq_refl)) as (H1 & _ & H3 & H4 & _).
  split; [exact H1|].
  split; [exact (H3 "authSection" (or_introl eq_refl))|].
  split; [exact (H3 "productosMostrar" (or_intror (or_introl eq_refl)))|].
  split; [exact (H3 "tiendaSection" (or_intror (or_intror (or_introl eq_refl))))|].
  exact H4.
Defined.

(** [sin_red_es_error_de_conexion] on a network that cannot be reached. *)
Lemma sin_red_es_error_de_conexion_witness :
  let w := mundo_nuevo ∅ in
  let r' := iniciarSesion sin_efecto sin_efecto red_caida
              (VStr "ana@x.com") (VStr "clave") w in
  fst r' = Val tt
  /\ alertas (snd r') = ["No se pudo conectar con el servidor"]
  /\ estado (snd r') = estado w
  /\ localStorage (snd r') = localStorage w.
Proof.
  destruct (sin_red_es_error_de_conexion sin_efecto sin_efecto red_caida
              (VStr "Ana") (VStr "ana@x.com") (VStr "clave") (mundo_nuevo ∅)
              (NetworkError "Failed to fetch")) as (H1 & _).
  destruct (H1 eq_refl) as (A & B & _ & D & E & _).
  repeat split; assumption.
Defined.

(** [cuerpo_null_es_error_de_conexion] at a 200 whose body is [null]. *)
Lemma cuerpo_null_es_error_de_conexion_witness :
  let w := mundo_nuevo ∅ in
  let r' := registrarUsuario sin_efecto sin_efecto (red_fija 200 "null")
              (VStr "Ana") (VStr "ana@x.com") (VStr "clave") w in
  JSON_parse "null" = Some VNull
  /\ fst r' = Val tt
  /\ alertas (snd r') = ["No se pudo conectar con el servidor"]
  /\ estado (snd r') = estado w
  /\ localStorage (snd r') = localStorage w.
Proof.
  split; [reflexivity|].
  destruct (cuerpo_null_es_error_de_conexion sin_efecto sin_efecto (red_fija 200 "null")
              (VStr "Ana") (VStr "ana@x.com") (VStr "clave") (mundo_nuevo ∅)
              {| status := 200; texto := "null" |} eq_refl) as (_ & H2).
  exact (H2 eq_refl).
Defined.

(** [respuesta_sin_usuario_deja_sesion_a_medias] at a 200 whose body has a
    token and no user, over a store that held Ana's session. *)
Lemma respuesta_sin_usuario_deja_sesion_a_medias_witness :
  let texto_json := cuerpo_json (VObj [("token", VStr "xyz")]) in
  let w := snd (guardarSesion (VStr "abc") ana (mundo_nuevo ∅)) in
  let r' := iniciarSesion sin_efecto sin_efecto (red_fija 200 texto_json)
              (VStr "ana@x.com") (VStr "clave") w in
  fst r' = Val tt
  /\ alertas (snd r') = ["No se pudo conectar con el servidor"]
  /\ token (estado (snd r')) = VStr "xyz"
  /\ usuario (estado (snd r')) = VUndefined
  /\ localStorage (snd r') !! "user" = Some "undefined".
Proof.
  destruct (respuesta_sin_usuario_deja_sesion_a_medias sin_efecto sin_efecto
              (red_fija 200 (cuerpo_json (VObj [("token", VStr "xyz")])))
              (VStr "Ana") (VStr "ana@x.com") (VStr "clave")
              (snd (guardarSesion (VStr "abc") ana (mundo_nuevo ∅)))
              {| status := 200; texto := cuerpo_json (VObj [("token", VStr "xyz")]) |}
              (VObj [("token", VStr "xyz")]) (VStr "xyz") VUndefined
              eq_refl eq_refl eq_refl eq_refl (or_intror eq_refl)) as (H1 & _).
  destruct (H1 eq_refl) as (A & B & C & D & E & _).
  split; [exact A|]. split; [exact B|]. split; [exact C|]. split; [exact D|].
  rewrite E. reflexivity.
Defined.


(** [registro_rechazado_muestra_mensaje] at a 409 with a message. *)
Lemma registro_rechazado_muestra_mensaje_witness :
  let w := mundo_nuevo ∅ in
  let r' := registrarUsuario sin_efecto sin_efecto
              (red_fija 409 (cuerpo_mensaje "El email ya existe"))
              (VStr "Ana") (VStr "a@x.com") (VStr "clave") w in
  fst r' = Val tt
  /\ estado (snd r') = estado w
  /\ localStorage (snd r') = localStorage w
  /\ documento (snd r') = documento w
  /\ alertas (snd r') = ["El email ya existe"].
Proof.
  apply (registro_rechazado_muestra_mensaje sin_efecto sin_efecto
           (red_fija 409 (cuerpo_mensaje "El email ya existe"))
           (VStr "Ana") (VStr "a@x.com") (VStr "clave") (mundo_nuevo ∅)
           {| status := 409; texto := cuerpo_mensaje "El email ya existe" |}
           (VObj [("message", VStr "El email ya existe")])
           (VStr "El email ya existe"));
    reflexivity.
Defined.


(** [sesion_sin_usuario_no_sobrevive_recarga] at a token saved with a
    [null] user. *)
Lemma sesion_sin_usuario_no_sobrevive_recarga_witness :
  let guardado := snd (guardarSesion (VStr "abc") VNull (mundo_nuevo ∅)) in
  let r := cargarSesionGuardada sin_efecto sin_efecto
             (mundo_nuevo (localStorage guardado)) in
  localStorage guardado !! "token" = Some "abc"
  /\ localStorage guardado !! "user" = Some "null"
  /\ fst r = Val tt
  /\ estado (snd r) = estado_inicial
  /\ localStorage (snd r) !! "token" = None
  /\ localStorage (snd r) !! "user" = None
  /\ alertas (snd r) = [].
Proof.
  split; [reflexivity|]. split; [reflexivity|].
  apply (sesion_sin_usuario_no_sobrevive_recarga sin_efecto sin_efecto
           (VStr "abc") VNull (mundo_nuevo ∅) {| elementos := ∅; nav := NavPagina |});
    [discriminate|left; reflexivity].
Defined.

(** [un_formulario_a_la_vista] after three clicks, the last on
    [showRegister]. *)
Lemma un_formulario_a_la_vista_witness :
  let w' := pulsar_todos [ShowRegister; ShowLogin; ShowRegister] pagina_formularios in
  visible "loginForm" w' = false
  /\ visible "registerForm" w' = true
  /\ elementos (documento w') !! "authSection" = Some false.
Proof.
  destruct (un_formulario_a_la_vista [ShowRegister; ShowLogin] ShowRegister
              pagina_formularios) as (_ & H1 & H2 & H3 & _);
    [eexists; reflexivity|eexists; reflexivity|].
  split; [exact H1|]. split; [exact (eq_trans H2 (f_equal negb H1))|].
  etransitivity; [apply (H3 "authSection"); discriminate|reflexivity].
Defined.

(** [sin_formulario_de_registro_los_enlaces_lanzan] on a page that has the
    login form only. *)
Lemma sin_formulario_de_registro_los_enlaces_lanzan_witness :
  let w := con_documento {| elementos := <["loginForm" := false]> ∅; nav := NavPagina |}
             (mundo_nuevo ∅) in
  visible "loginForm" w = true
  /\ (exists e, fst (pulsar ShowRegister w) = Throw (TypeError e))
  /\ visible "loginForm" (snd (pulsar ShowRegister w)) = false
  /\ visible "loginForm" (pulsar_todos [ShowLogin; ShowLogin] (snd (pulsar ShowRegister w)))
     = false.
Proof.
  split; [reflexivity|].
  set (w := con_documento {| elementos := <["loginForm" := false]> ∅; nav := NavPagina |}
              (mundo_nuevo ∅)).
  assert (H0 : elementos (documento w) !! "registerForm" = None) by reflexivity.
  assert (H0' : elementos (documento (snd (pulsar ShowRegister w))) !! "registerForm" = None)
    by reflexivity.
  destruct (sin_formulario_de_registro_los_enlaces_lanzan w H0) as (H1 & _ & H3 & _).
  split; [exact (H1 ShowRegister)|]. split; [exact H3|].
  destruct (sin_formulario_de_registro_los_enlaces_lanzan
              (snd (pulsar ShowRegister w)) H0') as (_ & _ & _ & H4).
  apply (H4 [ShowLogin; ShowLogin]). exact H3.
Defined.

(** [listado_completo_y_ordenado] at a table of four images, two of them
    active, under the binary collation: [montaña] comes before [playa]. *)
Lemma listado_completo_y_ordenado_witness :
  let imgs := map (proyectar columnas_imagenes)
                [fila_imagen 4 "montaña" (VInt 1); fila_imagen 1 "playa" (VInt 1)] in
  obtenerImagenes orden_binario db_ejemplo = Val imgs
  /\ exists fs : list Fila,
       imgs = map (proyectar columnas_imagenes) fs
       /\ Permutation fs (List.filter activa (filas (imagenes db_ejemplo)))
       /\ length imgs = 2%nat
       /\ Sorted (por_nombre orden_binario) fs.
Proof.
  split; [reflexivity|].
  destruct (listado_completo_y_ordenado orden_binario db_ejemplo
              (map (proyectar columnas_imagenes)
                 [fila_imagen 4 "montaña" (VInt 1); fila_imagen 1 "playa" (VInt 1)])
              eq_refl) as (fs & H1 & H2 & H3 & _ & H5).
  exists fs. split; [exact H1|]. split; [exact H2|]. split; [exact H3|].
  apply H5. exact orden_binario_total.
Defined.

(** [listado_sobre_initdb_responde_500] on the database as initdb.js sets
    it up. *)
Lemma listado_sobre_initdb_responde_500_witness :
  codigo (getImagenes orden_binario db_initdb) = 500%Z
  /\ get_prop (json (getImagenes orden_binario db_initdb)) "success" = Val (VBool false)
  /\ exists mensaje, get_prop (json (getImagenes orden_binario db_initdb)) "error"
                     = Val (VStr mensaje).
Proof.
  destruct (listado_sobre_initdb_responde_500 orden_binario db_initdb eq_refl eq_refl)
    as (mensaje & _ & H).
  rewrite H. split; [reflexivity|]. split; [reflexivity|].
  exists mensaje. reflexivity.
Defined.

(** [crearCliente_que_falla_no_escribe] at a second registration of the
    test customer's email, and at a registration without password. *)
Lemma crearCliente_que_falla_no_escribe_witness :
  let r := crearCliente alta_prueba db_initdb in
  (exists e, fst r = Throw e)
  /\ clientes (snd r) = clientes db_initdb
  /\ imagenes (snd r) = imagenes db_initdb
  /\ (siguiente_id db_initdb <= siguiente_id (snd r) <= siguiente_id db_initdb + 1)%Z
  /\ exists e, fst (crearCliente (VObj [("nombre", VStr "Ana"); ("email", VStr "a@x.com")])
                      db_initdb) = Throw e.
Proof.
  destruct (crearCliente_que_falla_no_escribe alta_prueba db_initdb) as (H1 & _).
  destruct (crearCliente_que_falla_no_escribe
              (VObj [("nombre", VStr "Ana"); ("email", VStr "a@x.com")]) db_initdb)
    as (_ & H2).
  destruct (crearCliente alta_prueba db_initdb) as [[v|e] db'] eqn:E;
    [discriminate E|].
  destruct (H1 e db' eq_refl) as (A & B & C).
  cbn [fst snd]. split; [eauto|]. split; [exact A|]. split; [exact B|].
  split; [exact C|].
  apply H2. right. right. right. exists "password".
  split; [cbn; auto|right; reflexivity].
Defined.

(** [email_repetido_se_rechaza] at a second registration of the email
    Ana has just registered. *)
Lemma email_repetido_se_rechaza_witness :
  let db' := snd (crearCliente alta_ana db_initdb) in
  (exists r, fst (crearCliente alta_ana db_initdb) = Val r)
  /\ (exists e, fst (crearCliente alta_repetida db') = Throw e)
  /\ clientes (snd (crearCliente alta_repetida db')) = clientes db'
  /\ imagenes (snd (crearCliente alta_repetida db')) = imagenes db'.
Proof.
  split; [eexists; reflexivity|].
  apply (email_repetido_se_rechaza alta_repetida "a@x.com"
           [("id", VInt 2); ("nombre", VStr "Ana"); ("email", VStr "a@x.com");
            ("password", VStr "$2b$10$hash")]
           (snd (crearCliente alta_ana db_initdb)));
    [right; left; reflexivity|reflexivity|reflexivity].
Defined.

(** [crearCliente_conserva_claves] on the database of initdb.js. *)
Lemma crearCliente_conserva_claves_witness :
  emails_unicos db_initdb /\ ids_bajo_contador db_initdb
  /\ emails_unicos (snd (crearCliente alta_ana db_initdb))
  /\ ids_bajo_contador (snd (crearCliente alta_ana db_initdb))
  /\ get_prop (VObj [("insertId", VInt 2); ("id", VInt 2);
                     ("nombre", VStr "Ana"); ("email", VStr "a@x.com")]) "id"
     <> Val (campo usuario_prueba "id").
Proof.
  assert (He : emails_unicos db_initdb)
    by (constructor; [constructor|constructor]).
  assert (Hi : ids_bajo_contador db_initdb)
    by (constructor; [exists 1%Z; split; [reflexivity|reflexivity]|constructor]).
  split; [exact He|]. split; [exact Hi|].
  destruct (crearCliente_conserva_claves alta_ana db_initdb He Hi) as (H1 & H2 & H3).
  split; [exact H1|]. split; [exact H2|].
  apply (H3 _ usuario_prueba eq_refl). left. reflexivity.
Defined.


(** [buscarPorEmail_encuentra] for the test customer of initdb.js. *)
Lemma buscarPorEmail_encuentra_witness :
  buscarPorEmail (VStr "test@example.com") db_initdb
  = Val (proyectar columnas_clientes usuario_prueba)
  /\ get_prop (proyectar columnas_clientes usuario_prueba) "password"
     = Val (VStr "$2a$10$N9qo8uLO")
  /\ buscarPorEmail (VStr "nadie@example.com") db_initdb = Val VUndefined.
Proof.
  destruct (buscarPorEmail_encuentra "test@example.com" usuario_prueba db_initdb)
    as (H1 & _ & _ & H4 & _);
    [reflexivity|reflexivity|constructor; [constructor|constructor]
    |left; reflexivity|reflexivity|].
  split; [exact H1|]. split; [exact H4|reflexivity].
Defined.
